(** * Bitcoin ETL mirror: ingestion, reorg handling, sync loop and audit

    Shallow embedding of
      - [etl/etl_sync.py]    (class [BitcoinETL])
      - [etl/reorg_check.py] (class [ReorgChecker.check_block_consistency])
    of the text-to-sql-bitcoin homework, followed by the properties of the
    design document that concern them.

    Python integers are [Z]; JSON dictionaries with optional keys are records
    of [option] fields (a missing key is [None]); the difficulty of a block,
    which the auditor subtracts and compares, is the binary64 number Python
    holds; the value of an output and the percentages are the rationals they
    stand for; the SQLite tables are lists of rows in insertion order; Python
    dictionaries built by the auditor are [gmap]s. *)

From Stdlib Require Import ZArith QArith Qabs String List Lia Floats.
From stdpp Require Import base list sorting gmap strings fin_maps.

#[local] Open Scope string_scope.
#[local] Open Scope list_scope.
#[local] Open Scope Z_scope.

(** ** The remote payload (result of [getblock hash 2]) *)

Module Payload.

(** [vin['prevout']], read with [.get('hash', '')] and [.get('n', 0)]. *)
Record prevout := {
  po_hash : option string;
  po_n : option Z
}.

(** One element of [tx['vin']]. *)
Record vin := {
  vin_vout : option Z;
  vin_sequence : option Z;
  vin_coinbase : option string;
  vin_txinwitness : option (list string);
  vin_prevout : option prevout;
  vin_scriptsig : option string;
  vin_scriptsig_asm : option string;
  vin_inner_witnessscript_asm : option string;
  vin_inner_redeemscript_asm : option string
}.

(** [vout['scriptPubKey']]. *)
Record script_pub_key := {
  spk_hex : option string;
  spk_asm : option string;
  spk_type : option string;
  spk_addresses : option (list string)
}.

(** One element of [tx['vout']]. *)
Record vout := {
  vout_n : option Z;
  vout_scriptPubKey : option script_pub_key;
  vout_value : option Q
}.

(** One element of [block['tx']]. *)
Record tx_data := {
  tx_txid : option string;
  tx_hash : option string;
  tx_version : option Z;
  tx_size : option Z;
  tx_vsize : option Z;
  tx_weight : option Z;
  tx_locktime : option Z;
  tx_confirmations : option Z;
  tx_time : option Z;
  tx_blocktime : option Z;
  tx_vin : option (list vin);
  tx_vout : option (list vout)
}.

(** The block dictionary. [bd_tx = None] stands for a payload without a
    ['tx'] key. *)
Record block_data := {
  bd_hash : option string;
  bd_confirmations : option Z;
  bd_size : option Z;
  bd_weight : option Z;
  bd_height : option Z;
  bd_version : option Z;
  bd_versionHex : option string;
  bd_merkleroot : option string;
  bd_tx : option (list tx_data);
  bd_time : option Z;
  bd_mediantime : option Z;
  bd_nonce : option Z;
  bd_bits : option string;
  bd_difficulty : option float;
  bd_chainwork : option string;
  bd_nTx : option Z;
  bd_previousblockhash : option string;
  bd_nextblockhash : option string;
  bd_strippedsize : option Z;
  bd_sigops : option Z
}.

(** [d.get(key, default)]. *)
Definition get {A} (o : option A) (default : A) : A :=
  match o with
  | Some v => v
  | None => default
  end.

(** [d.get(key, {}).get(sub, default)]. *)
Definition get_in {A B} (o : option A) (sub : A -> option B) (default : B) : B :=
  match o with
  | Some d => get (sub d) default
  | None => default
  end.

(** Python truthiness of an optional string: [None] and [''] are false. *)
Definition truthy_str (o : option string) : bool :=
  match o with
  | Some s => negb (String.eqb s "")
  | None => false
  end.

End Payload.

(** ** The persistence store *)

Module Store.
Import Payload.

Record BlockRow := {
  b_hash : string;
  b_confirmations : Z;
  b_size : Z;
  b_weight : Z;
  b_height : Z;
  b_version : Z;
  b_versionHex : string;
  b_merkleroot : string;
  b_tx : list tx_data;          (* the value whose JSON text is stored *)
  b_time : Z;
  b_mediantime : Z;
  b_nonce : Z;
  b_bits : string;
  b_difficulty : float;
  b_chainwork : string;
  b_nTx : Z;
  b_previousblockhash : string;
  b_nextblockhash : string;
  b_strippedsize : Z;
  b_sigops : Z;
  b_created_at : string
}.

Record TxRow := {
  t_txid : string;
  t_hash : string;
  t_version : Z;
  t_size : Z;
  t_vsize : Z;
  t_weight : Z;
  t_locktime : Z;
  t_block_hash : string;
  t_block_height : Z;
  t_block_time : Z;
  t_confirmations : Z;
  t_time : Z;
  t_blocktime : Z;
  t_created_at : string
}.

Record InputRow := {
  i_txid : string;
  i_vout : Z;
  i_sequence : Z;
  i_coinbase : string;
  i_txinwitness : list string;  (* the value whose JSON text is stored *)
  i_prevout_hash : string;
  i_prevout_n : Z;
  i_scriptsig : string;
  i_scriptsig_asm : string;
  i_inner_witnessscript_asm : string;
  i_inner_redeemscript_asm : string
}.

Record OutputRow := {
  o_txid : string;
  o_n : Z;
  o_scriptPubKey : string;
  o_scriptPubKey_asm : string;
  o_scriptPubKey_type : string;
  o_scriptPubKey_addresses : list string;
  o_value : Q
}.

(** The four tables, each in insertion order. *)
Record Db := {
  blocks : list BlockRow;
  transactions : list TxRow;
  tx_inputs : list InputRow;
  tx_outputs : list OutputRow
}.

Definition empty_db : Db :=
  {| blocks := []; transactions := []; tx_inputs := []; tx_outputs := [] |}.

Definition set_blocks (f : list BlockRow -> list BlockRow) (d : Db) : Db :=
  {| blocks := f (blocks d); transactions := transactions d;
     tx_inputs := tx_inputs d; tx_outputs := tx_outputs d |}.

Definition set_transactions (f : list TxRow -> list TxRow) (d : Db) : Db :=
  {| blocks := blocks d; transactions := f (transactions d);
     tx_inputs := tx_inputs d; tx_outputs := tx_outputs d |}.

Definition set_tx_inputs (f : list InputRow -> list InputRow) (d : Db) : Db :=
  {| blocks := blocks d; transactions := transactions d;
     tx_inputs := f (tx_inputs d); tx_outputs := tx_outputs d |}.

Definition set_tx_outputs (f : list OutputRow -> list OutputRow) (d : Db) : Db :=
  {| blocks := blocks d; transactions := transactions d;
     tx_inputs := tx_inputs d; tx_outputs := f (tx_outputs d) |}.

(** Modelled from the spec: the table declarations ([sql/schema.sql], read by
    [init_database]) are not part of the sources.  The design document gives
    the persisted schema as [blocks(height unique, hash unique, ...)] and
    "replace-on-conflict keyed by height/hash and by txid", and states no
    uniqueness on [tx_inputs] or [tx_outputs].  [INSERT OR REPLACE] therefore
    removes every row that conflicts with the new one on a unique column and
    then adds the new row. *)
Definition block_conflicts (r b : BlockRow) : Prop :=
  b_hash b = b_hash r \/ b_height b = b_height r.

#[export] Instance block_conflicts_dec r b : Decision (block_conflicts r b).
Proof. unfold block_conflicts. apply _. Defined.

(** [INSERT OR REPLACE INTO blocks (...) VALUES (...)] *)
Definition insert_or_replace_block (r : BlockRow) : Db -> Db :=
  set_blocks (fun bs => filter (fun b => ~ block_conflicts r b) bs ++ [r]).

(** [INSERT OR REPLACE INTO transactions (...) VALUES (...)] *)
Definition insert_or_replace_transaction (r : TxRow) : Db -> Db :=
  set_transactions (fun ts => filter (fun t => t_txid t <> t_txid r) ts ++ [r]).

(** [INSERT INTO tx_inputs (...) VALUES (...)] *)
Definition insert_tx_input (r : InputRow) : Db -> Db :=
  set_tx_inputs (fun l => l ++ [r]).

(** [INSERT INTO tx_outputs (...) VALUES (...)] *)
Definition insert_tx_output (r : OutputRow) : Db -> Db :=
  set_tx_outputs (fun l => l ++ [r]).

(** A [DELETE] removes rows of the table it names only: the connections are
    opened by [sqlite3.connect] with nothing but [row_factory] set, and
    SQLite carries out foreign-key actions only on a connection that has
    issued [PRAGMA foreign_keys = ON]. *)

(** [DELETE FROM blocks WHERE height > ?] *)
Definition delete_blocks_above (f : Z) : Db -> Db :=
  set_blocks (filter (fun b => ~ (b_height b > f))).

(** [DELETE FROM transactions WHERE block_height > ?] *)
Definition delete_transactions_above (f : Z) : Db -> Db :=
  set_transactions (filter (fun t => ~ (t_block_height t > f))).

(** [SELECT txid FROM transactions WHERE block_height > ?] *)
Definition select_txids_above (f : Z) (d : Db) : list string :=
  t_txid <$> filter (fun t => t_block_height t > f) (transactions d).

(** [DELETE FROM tx_inputs WHERE txid IN
      (SELECT txid FROM transactions WHERE block_height > ?)].
    The sub-select is evaluated on the table as it stands when the statement
    runs. *)
Definition delete_inputs_of_transactions_above (f : Z) (d : Db) : Db :=
  set_tx_inputs (filter (fun i => i_txid i ∉ select_txids_above f d)) d.

(** [DELETE FROM tx_outputs WHERE txid IN
      (SELECT txid FROM transactions WHERE block_height > ?)] *)
Definition delete_outputs_of_transactions_above (f : Z) (d : Db) : Db :=
  set_tx_outputs (filter (fun o => o_txid o ∉ select_txids_above f d)) d.

(** [SELECT height FROM blocks WHERE hash = ?] followed by [fetchone()]. *)
Definition select_height_by_hash (h : string) (d : Db) : option Z :=
  b_height <$> head (filter (fun b => b_hash b = h) (blocks d)).

(** [SELECT hash FROM blocks WHERE height = ?] followed by [fetchone()]. *)
Definition select_hash_by_height (k : Z) (d : Db) : option string :=
  b_hash <$> head (filter (fun b => b_height b = k) (blocks d)).

(** [SELECT MAX(height) as max_height FROM blocks]: the single result row
    holds NULL ([None]) on an empty table. *)
Definition select_max_height (d : Db) : option Z :=
  match b_height <$> blocks d with
  | [] => None
  | k :: ks => Some (foldl Z.max k ks)
  end.

End Store.

(** ** The remote node *)

Module Remote.
Import Payload.

(** What the programs raise.  [RpcFailure] covers both a transport failure and
    a response whose [error] field is not null; [DatabaseError] is a failing
    SQLite statement. *)
Inductive exn :=
| KeyError (key : string)
| RpcFailure (method : string)
| DatabaseError
| NoBlocksFound.                (* Exception("No blocks found in database") *)

(** The requests that reach the node, as [rpc_call(method, params)]. *)
Inductive rpc_request :=
| GetBlockchainInfo
| GetBlockHash (height : Z)
| GetBlock (hash : string) (verbosity : Z).

(** The node as seen during one run: the answer to each request, [None] when
    the call fails.  [getblockchaininfo] gives [info['blocks']]. *)
Record Rpc := {
  getblockchaininfo : option Z;
  getblockhash : Z -> option string;
  getblock : string -> Z -> option block_data
}.

Definition method_of (r : rpc_request) : string :=
  match r with
  | GetBlockchainInfo => "getblockchaininfo"
  | GetBlockHash _ => "getblockhash"
  | GetBlock _ _ => "getblock"
  end.

End Remote.

(** ** [etl_sync.py]: class [BitcoinETL] *)

Module ETL.
Import Payload Store Remote.

(** The state the methods act on.  [committed] is the database file as any
    other connection sees it, [working] is the view of the connection held by
    the running method, including the statements of its open transaction.
    [ticks] counts the readings of the system clock, [stmts] the statements
    sent to SQLite and [requests] records the RPC requests in order. *)
Record World := {
  committed : Db;
  working : Db;
  ticks : nat;
  stmts : nat;
  requests : list rpc_request
}.

Definition set_committed (d : Db) (w : World) : World :=
  {| committed := d; working := working w; ticks := ticks w;
     stmts := stmts w; requests := requests w |}.

Definition set_working (d : Db) (w : World) : World :=
  {| committed := committed w; working := d; ticks := ticks w;
     stmts := stmts w; requests := requests w |}.

Definition set_ticks (n : nat) (w : World) : World :=
  {| committed := committed w; working := working w; ticks := n;
     stmts := stmts w; requests := requests w |}.

Definition set_stmts (n : nat) (w : World) : World :=
  {| committed := committed w; working := working w; ticks := ticks w;
     stmts := n; requests := requests w |}.

Definition set_requests (l : list rpc_request) (w : World) : World :=
  {| committed := committed w; working := working w; ticks := ticks w;
     stmts := stmts w; requests := l |}.

(** A method either returns a value or raises; the state reached is kept in
    both cases. *)
Definition M (A : Type) : Type := World -> (exn + A) * World.

#[export] Instance M_ret : MRet M := fun A x w => (inr x, w).

#[export] Instance M_bind : MBind M := fun A B f m w =>
  match m w with
  | (inr x, w') => f x w'
  | (inl e, w') => (inl e, w')
  end.

Definition raise {A} (e : exn) : M A := fun w => (inl e, w).

(** [try: body  except Exception as e: handler e] *)
Definition try_except {A} (body : M A) (handler : exn -> M A) : M A := fun w =>
  match body w with
  | (inl e, w') => handler e w'
  | r => r
  end.

(** [try: body  finally: cleanup] *)
Definition try_finally {A} (body : M A) (cleanup : M unit) : M A := fun w =>
  match body w with
  | (r, w') =>
      match cleanup w' with
      | (inr _, w'') => (r, w'')
      | (inl e, w'') => (inl e, w'')
      end
  end.

(** [for x in l: body x] *)
Fixpoint for_each {A} (l : list A) (body : A -> M unit) : M unit :=
  match l with
  | [] => mret tt
  | x :: l' => body x ;; for_each l' body
  end.

(** [d[key]] *)
Definition getitem {A} (key : string) (o : option A) : M A :=
  match o with
  | Some v => mret v
  | None => raise (KeyError key)
  end.

(** Python truthiness of an optional integer argument: [None] and [0] are
    false. *)
Definition truthy_int (o : option Z) : bool :=
  match o with
  | Some n => negb (n =? 0)
  | None => false
  end.

(** [conn.commit()] and [conn.rollback()] once they reach the engine, and the
    view of a connection that has just been opened or is closed with its
    transaction still open. *)
Definition commit_txn : M unit := fun w => (inr tt, set_committed (working w) w).
Definition rollback : M unit := fun w => (inr tt, set_working (committed w) w).
Definition get_db_connection : M unit := rollback.
Definition conn_close : M unit := rollback.

(** The effect of a successful statement on the running connection, and the
    rows a successful query reads through it or through a fresh connection. *)
Definition apply_stmt (stmt : Db -> Db) : M unit := fun w =>
  (inr tt, set_working (stmt (working w)) w).
Definition read {A} (query : Db -> A) : M A := fun w =>
  (inr (query (working w)), w).
Definition read_committed {A} (query : Db -> A) : M A := fun w =>
  (inr (query (committed w)), w).

Section Methods.

(** The surroundings of a run: the node, the system clock
    ([datetime.now().isoformat()] at its n-th reading) and the statements on
    which SQLite fails (the n-th statement raises when [db_fault n]). *)
Variable rpc : Rpc.
Variable clock : nat -> string.
Variable db_fault : nat -> bool.

Definition now : M string := fun w =>
  (inr (clock (ticks w)), set_ticks (S (ticks w)) w).

(** A statement reaches SQLite: it is counted, and fails when the oracle says
    so, leaving the database as it is. *)
Definition db_step : M unit := fun w =>
  let w' := set_stmts (S (stmts w)) w in
  if db_fault (stmts w) then (inl DatabaseError, w') else (inr tt, w').

(** [conn.execute(<INSERT/DELETE>)] on the running connection. *)
Definition execute (stmt : Db -> Db) : M unit :=
  db_step ;; apply_stmt stmt.

(** [conn.execute(<SELECT>).fetchone()] on the running connection. *)
Definition fetch {A} (query : Db -> A) : M A :=
  db_step ;; read query.

(** [conn.commit()] *)
Definition commit : M unit := db_step ;; commit_txn.

(** [rpc_call]: the request is sent; a failure is logged and re-raised. *)
Definition rpc_call {A} (req : rpc_request) (answer : option A) : M A := fun w =>
  let w' := set_requests (requests w ++ [req]) w in
  match answer with
  | Some v => (inr v, w')
  | None => (inl (RpcFailure (method_of req)), w')
  end.

(** [get_latest_block_height] *)
Definition get_latest_block_height : M Z :=
  rpc_call GetBlockchainInfo (getblockchaininfo rpc).

(** [get_db_latest_height]: a connection of its own, hence the committed
    data; [result['max_height'] if result and result['max_height'] else -1],
    and [-1] as well when the query raises. *)
Definition get_db_latest_height : M Z :=
  try_except
    (db_step ;;
     max_height ← read_committed select_max_height;
     mret (if truthy_int max_height then get max_height 0 else -1))
    (fun _ => mret (-1)).

(** [fetch_block]: [getblock] with verbosity 2. *)
Definition fetch_block (block_hash : string) : M block_data :=
  rpc_call (GetBlock block_hash 2) (getblock rpc block_hash 2).

Definition input_row (v : vin) (txid : string) : InputRow :=
  {| i_txid := txid;
     i_vout := get (vin_vout v) 0;
     i_sequence := get (vin_sequence v) 0;
     i_coinbase := get (vin_coinbase v) "";
     i_txinwitness := get (vin_txinwitness v) [];
     i_prevout_hash := get_in (vin_prevout v) po_hash "";
     i_prevout_n := get_in (vin_prevout v) po_n 0;
     i_scriptsig := get (vin_scriptsig v) "";
     i_scriptsig_asm := get (vin_scriptsig_asm v) "";
     i_inner_witnessscript_asm := get (vin_inner_witnessscript_asm v) "";
     i_inner_redeemscript_asm := get (vin_inner_redeemscript_asm v) "" |}.

(** [insert_input] (the handler logs and re-raises). *)
Definition insert_input (v : vin) (txid : string) : M unit :=
  execute (insert_tx_input (input_row v txid)).

Definition output_row (v : vout) (txid : string) : OutputRow :=
  {| o_txid := txid;
     o_n := get (vout_n v) 0;
     o_scriptPubKey := get_in (vout_scriptPubKey v) spk_hex "";
     o_scriptPubKey_asm := get_in (vout_scriptPubKey v) spk_asm "";
     o_scriptPubKey_type := get_in (vout_scriptPubKey v) spk_type "";
     o_scriptPubKey_addresses := get_in (vout_scriptPubKey v) spk_addresses [];
     o_value := get (vout_value v) 0%Q |}.

(** [insert_output] (the handler logs and re-raises). *)
Definition insert_output (v : vout) (txid : string) : M unit :=
  execute (insert_tx_output (output_row v txid)).

Definition transaction_row (tx : tx_data) (txid block_hash : string)
    (block_height block_time : Z) (created_at : string) : TxRow :=
  {| t_txid := txid;
     t_hash := get (tx_hash tx) "";
     t_version := get (tx_version tx) 0;
     t_size := get (tx_size tx) 0;
     t_vsize := get (tx_vsize tx) 0;
     t_weight := get (tx_weight tx) 0;
     t_locktime := get (tx_locktime tx) 0;
     t_block_hash := block_hash;
     t_block_height := block_height;
     t_block_time := block_time;
     t_confirmations := get (tx_confirmations tx) 0;
     t_time := get (tx_time tx) 0;
     t_blocktime := get (tx_blocktime tx) 0;
     t_created_at := created_at |}.

(** [insert_transaction].  [tx_data['txid']] is read first; the later
    readings of the same key in the two loops give the same value.  The
    handler formats [tx_data['txid']] into its log line before it re-raises. *)
Definition insert_transaction (tx : tx_data) (block_hash : string)
    (block_height block_time : Z) : M unit :=
  try_except
    (txid ← getitem "txid" (tx_txid tx);
     created_at ← now;
     execute (insert_or_replace_transaction
                (transaction_row tx txid block_hash block_height block_time created_at)) ;;
     match tx_vin tx with
     | Some vins => for_each vins (fun v => insert_input v txid)
     | None => mret tt
     end ;;
     match tx_vout tx with
     | Some vouts => for_each vouts (fun v => insert_output v txid)
     | None => mret tt
     end)
    (fun e => getitem "txid" (tx_txid tx) ;; raise e).

Definition block_row (bd : block_data) (hash : string) (height : Z)
    (created_at : string) : BlockRow :=
  {| b_hash := hash;
     b_confirmations := get (bd_confirmations bd) 0;
     b_size := get (bd_size bd) 0;
     b_weight := get (bd_weight bd) 0;
     b_height := height;
     b_version := get (bd_version bd) 0;
     b_versionHex := get (bd_versionHex bd) "";
     b_merkleroot := get (bd_merkleroot bd) "";
     b_tx := get (bd_tx bd) [];
     b_time := get (bd_time bd) 0;
     b_mediantime := get (bd_mediantime bd) 0;
     b_nonce := get (bd_nonce bd) 0;
     b_bits := get (bd_bits bd) "";
     b_difficulty := get (bd_difficulty bd) 0%float;
     b_chainwork := get (bd_chainwork bd) "";
     b_nTx := get (bd_nTx bd) 0;
     b_previousblockhash := get (bd_previousblockhash bd) "";
     b_nextblockhash := get (bd_nextblockhash bd) "";
     b_strippedsize := get (bd_strippedsize bd) 0;
     b_sigops := get (bd_sigops bd) 0;
     b_created_at := created_at |}.

(** [insert_block].  The handler rolls back, formats [block_data['height']]
    into its log line and re-raises. *)
Definition insert_block (bd : block_data) : M unit :=
  try_except
    (hash ← getitem "hash" (bd_hash bd);
     height ← getitem "height" (bd_height bd);
     created_at ← now;
     execute (insert_or_replace_block (block_row bd hash height created_at)) ;;
     match bd_tx bd with
     | Some txs =>
         for_each txs (fun tx =>
           block_time ← getitem "time" (bd_time bd);
           insert_transaction tx hash height block_time)
     | None => mret tt
     end ;;
     commit)
    (fun e => rollback ;; getitem "height" (bd_height bd) ;; raise e).

(** The loop [while fork_height >= 0] of [handle_reorg], entered with
    [fork_height = n - 1]: it leaves with the first height, going down, whose
    stored hash is [prev_hash], or with [-1]. *)
Fixpoint walk_back (prev_hash : option string) (n : nat) : M Z :=
  match n with
  | O => mret (-1)
  | S k =>
      block ← fetch (select_hash_by_height (Z.of_nat k));
      if bool_decide (is_Some block /\ block = prev_hash)
      then mret (Z.of_nat k)
      else walk_back prev_hash k
  end.

(** [fork_height = new_block['height'] - 1] followed by the loop. *)
Definition find_fork (prev_hash : option string) (height : Z) : M Z :=
  if height - 1 <? 0 then mret (height - 1) else walk_back prev_hash (Z.to_nat height).

(** The branch [if fork_height >= 0] of [handle_reorg]: the four [DELETE]
    statements in the order they are issued, then the commit. *)
Definition remove_blocks_after (fork_height : Z) : M unit :=
  execute (delete_blocks_above fork_height) ;;
  execute (delete_transactions_above fork_height) ;;
  execute (delete_inputs_of_transactions_above fork_height) ;;
  execute (delete_outputs_of_transactions_above fork_height) ;;
  commit.

(** [handle_reorg].  Every exception is logged, the transaction rolled back,
    and [False] returned. *)
Definition handle_reorg (new_block : block_data) : M bool :=
  try_except
    (let prev_hash := bd_previousblockhash new_block in
     if negb (truthy_str prev_hash) then mret false else
     prev_block ← fetch (select_height_by_hash (get prev_hash ""));
     continuous ← match prev_block with
                  | Some h =>
                      height ← getitem "height" (bd_height new_block);
                      mret (bool_decide (h = height - 1))
                  | None => mret false
                  end;
     if (continuous : bool) then mret false else
     height ← getitem "height" (bd_height new_block);
     fork_height ← find_fork prev_hash height;
     if 0 <=? fork_height then
       remove_blocks_after fork_height ;;
       mret true
     else mret false)
    (fun _ => rollback ;; mret false).

(** The body of the loop of [sync_blocks] for one height; whatever it raises
    is logged and the loop goes on with the next height. *)
Definition sync_height (height : Z) : M unit :=
  try_except
    (block_hash ← rpc_call (GetBlockHash height) (getblockhash rpc height);
     block_data ← fetch_block block_hash;
     handle_reorg block_data ;;
     insert_block block_data)
    (fun _ => mret tt).

(** [sync_blocks(start_height=None, max_blocks=None)].  The outer handler
    logs and re-raises. *)
Definition sync_blocks (start_height max_blocks : option Z) : M unit :=
  latest_height ← get_latest_block_height;
  current_height ← (if truthy_int start_height
                    then mret (get start_height 0)
                    else (h ← get_db_latest_height; mret (h + 1)));
  let end_height :=
    if truthy_int max_blocks
    then Z.min (current_height + get max_blocks 0 - 1) latest_height
    else latest_height in
  get_db_connection ;;
  try_finally
    (for_each (seqZ current_height (end_height + 1 - current_height)) sync_height)
    conn_close.

End Methods.

End ETL.

(** ** [etl_sync.py]: the methods that open a connection *)

Module Connections.
Import Payload Store Remote ETL.

(** In [ETL] the database is taken to be at hand: [get_db_connection] there
    always returns.  Here [sqlite3.connect] can fail.  It reaches SQLite as a
    statement does: it is counted with the statements and raises when the
    oracle says so. *)
Section Methods.

Variable rpc : Rpc.
Variable clock : nat -> string.
Variable db_fault : nat -> bool.

(** [sqlite3.connect(self.db_path)] *)
Definition connect : M unit := db_step db_fault.

(** [conn = self.get_db_connection()] for the connection the method then
    runs its statements on. *)
Definition get_db_connection : M unit := connect ;; ETL.get_db_connection.

(** [get_db_latest_height]: the connection, one of its own, is opened before
    the [try], so that a failure to open it is not caught by the handler
    that answers [-1]. *)
Definition get_db_latest_height : M Z :=
  connect ;; ETL.get_db_latest_height db_fault.

(** [sync_blocks(start_height=None, max_blocks=None)]: the connection is
    opened inside the outer [try], whose handler logs and re-raises, and
    before the [try] whose [finally] closes it. *)
Definition sync_blocks (start_height max_blocks : option Z) : M unit :=
  latest_height ← get_latest_block_height rpc;
  current_height ← (if truthy_int start_height
                    then mret (get start_height 0)
                    else (h ← get_db_latest_height; mret (h + 1)));
  let end_height :=
    if truthy_int max_blocks
    then Z.min (current_height + get max_blocks 0 - 1) latest_height
    else latest_height in
  get_db_connection ;;
  try_finally
    (for_each (seqZ current_height (end_height + 1 - current_height))
       (sync_height rpc clock db_fault))
    conn_close.

End Methods.

End Connections.

(** ** [reorg_check.py]: [ReorgChecker.check_block_consistency] *)

Module ReorgCheck.
Import Payload Store Remote.

(** [dict(row)] for a row of
    [SELECT height, hash, previousblockhash, time FROM blocks ...]. *)
Record DbBlock := {
  db_height : Z;
  db_hash : string;
  db_previousblockhash : string;
  db_time : Z
}.

(** An entry of [bitcoind_blocks]. *)
Record BtcBlock := {
  btc_height : Z;
  btc_hash : string;
  btc_previousblockhash : string;
  btc_time : Z
}.

(** The two kinds of dictionary appended to [inconsistencies]; the
    constructor is the value of the ['type'] key. *)
Inductive Inconsistency :=
| hash_mismatch (height : Z) (db_hash bitcoind_hash : string)
| prev_hash_mismatch (height : Z) (db_prev_hash bitcoind_prev_hash : string).

Definition inc_height (i : Inconsistency) : Z :=
  match i with
  | hash_mismatch h _ _ => h
  | prev_hash_mismatch h _ _ => h
  end.

Definition inc_description (i : Inconsistency) : string :=
  match i with
  | hash_mismatch _ _ _ => "Block hash mismatch between database and bitcoind"
  | prev_hash_mismatch _ _ _ => "Previous block hash mismatch"
  end.

Inductive Status := healthy | inconsistent.

Record BlocksChecked := {
  start_height : Z;
  end_height : Z;
  total : nat
}.

Record Consistency := {
  percentage : Q;
  total_inconsistencies : nat;
  missing_blocks_count : nat      (* key ['missing_blocks'] of ['consistency'] *)
}.

Record Report := {
  check_time : string;
  blocks_checked : BlocksChecked;
  consistency : Consistency;
  inconsistencies : list Inconsistency;
  missing_blocks : list Z;
  status : Status
}.

(** [{key x: val x for x in l}]: later elements overwrite earlier ones. *)
Definition dict_of {A V} (key : A -> Z) (val : A -> V) (l : list A) : gmap Z V :=
  foldl (fun m x => <[key x := val x]> m) ∅ l.

Definition db_block_of_row (r : BlockRow) : DbBlock :=
  {| db_height := b_height r; db_hash := b_hash r;
     db_previousblockhash := b_previousblockhash r; db_time := b_time r |}.

Definition height_le (a b : BlockRow) : Prop := b_height a <= b_height b.

#[export] Instance height_le_dec a b : Decision (height_le a b).
Proof. unfold height_le. apply _. Defined.

(** [SELECT height, hash, previousblockhash, time FROM blocks
     WHERE height >= ? ORDER BY height] *)
Definition select_blocks_from (start : Z) (d : Db) : list DbBlock :=
  db_block_of_row <$>
    merge_sort height_le (filter (fun b => b_height b >= start) (blocks d)).

(** [round(x, 2)] on the exact value: to the nearest hundredth, ties to the
    even one.  Floating-point values are modelled by the rationals they stand
    for. *)
Definition round2 (x : Q) : Q :=
  let n := Qnum (x * 100) in
  let d := Zpos (Qden (x * 100)) in
  let q := n / d in
  let r := n mod d in
  let rounded :=
    if 2 * r <? d then q
    else if d <? 2 * r then q + 1
    else if Z.even q then q else q + 1 in
  Qred (rounded # 100).

Section Checker.

Variable rpc : Rpc.

(** The two calls made for one height; [None] when either raises, in which
    case the height gets no entry. *)
Definition fetch_bitcoind_block (height : Z) : option BtcBlock :=
  block_hash ← getblockhash rpc height;
  block_info ← getblock rpc block_hash 1;
  Some {| btc_height := height;
          btc_hash := block_hash;
          btc_previousblockhash := get (bd_previousblockhash block_info) "";
          btc_time := get (bd_time block_info) 0 |}.

Definition fetch_bitcoind_blocks (heights : list Z) : gmap Z BtcBlock :=
  foldl (fun m height =>
           match fetch_bitcoind_block height with
           | Some b => <[height := b]> m
           | None => m
           end) ∅ heights.

(** One round of the comparison loop: what it appends to [inconsistencies]
    and to [missing_blocks]. *)
Definition compare_height (start_height : Z) (db_blocks : gmap Z DbBlock)
    (bitcoind_blocks : gmap Z BtcBlock) (height : Z) : list Inconsistency * list Z :=
  match db_blocks !! height with
  | None => ([], [height])
  | Some db_block =>
      match bitcoind_blocks !! height with
      | None => ([], [])
      | Some btc_block =>
          ((if bool_decide (db_hash db_block <> btc_hash btc_block)
            then [hash_mismatch height (db_hash db_block) (btc_hash btc_block)]
            else []) ++
           (if bool_decide (height > start_height) then
              match db_blocks !! (height - 1), bitcoind_blocks !! (height - 1) with
              | Some db_prev, Some _ =>
                  if bool_decide (db_hash db_prev <> btc_previousblockhash btc_block)
                  then [prev_hash_mismatch height (db_hash db_prev)
                          (btc_previousblockhash btc_block)]
                  else []
              | _, _ => []
              end
            else []),
           [])
      end
  end.

Definition compare_blocks (start_height : Z) (db_blocks : gmap Z DbBlock)
    (bitcoind_blocks : gmap Z BtcBlock) (heights : list Z) : list Inconsistency * list Z :=
  foldl (fun acc height =>
           let new := compare_height start_height db_blocks bitcoind_blocks height in
           (acc.1 ++ new.1, acc.2 ++ new.2))
        ([], []) heights.

(** [check_block_consistency(num_blocks)], run on the database [d] at clock
    reading [now]. *)
Definition check_block_consistency (d : Db) (now : string) (num_blocks : Z)
    : exn + Report :=
  match select_max_height d with
  | None => inl NoBlocksFound
  | Some db_latest_height =>
      let start_height := Z.max 0 (db_latest_height - num_blocks + 1) in
      let heights := seqZ start_height (db_latest_height + 1 - start_height) in
      let db_blocks := dict_of db_height id (select_blocks_from start_height d) in
      let bitcoind_blocks := fetch_bitcoind_blocks heights in
      let found := compare_blocks start_height db_blocks bitcoind_blocks heights in
      let total_blocks_checked := size bitcoind_blocks in
      let consistency_percentage :=
        if bool_decide (0 < total_blocks_checked)%nat
        then (inject_Z (Z.of_nat total_blocks_checked - Z.of_nat (length found.1))
              / inject_Z (Z.of_nat total_blocks_checked) * 100)%Q
        else 0%Q in
      inr {| check_time := now;
             blocks_checked := {| start_height := start_height;
                                  end_height := db_latest_height;
                                  total := total_blocks_checked |};
             consistency := {| percentage := round2 consistency_percentage;
                               total_inconsistencies := length found.1;
                               missing_blocks_count := length found.2 |};
             inconsistencies := found.1;
             missing_blocks := found.2;
             status := if bool_decide (length found.1 = 0%nat)
                       then healthy else inconsistent |}
  end.

End Checker.

End ReorgCheck.

(** ** Observations and reference descriptions used in the statements *)

Module Describe.
Import Payload Store Remote ETL.

(** A computation leaves a component of the state as it found it, whatever
    it returns or raises. *)
Definition keeps {A X} (proj : World -> X) (m : M A) : Prop :=
  forall w r w', m w = (r, w') -> proj w' = proj w.

(** Either the computation raises and the committed data are as before, or
    it returns and has just committed. *)
Definition commits_or_keeps {A} (m : M A) : Prop :=
  forall w r w', m w = (r, w') ->
    match r with
    | inl _ => committed w' = committed w
    | inr _ => committed w' = working w'
    end.

(** What a block that is written completely leaves in a database: the pure
    counterpart of the statements of [insert_block], with the clock readings
    it makes from reading [tick] on.  [None] when a key read with [d[key]]
    is missing. *)
Definition inputs_written (txid : string) (vins : list vin) (d : Db) : Db :=
  foldl (fun d v => insert_tx_input (input_row v txid) d) d vins.

Definition outputs_written (txid : string) (vouts : list vout) (d : Db) : Db :=
  foldl (fun d v => insert_tx_output (output_row v txid) d) d vouts.

Definition tx_written (clock : nat -> string) (tick : nat) (tx : tx_data)
    (hash : string) (height time : Z) (d : Db) : option Db :=
  txid ← tx_txid tx;
  Some (outputs_written txid (get (tx_vout tx) [])
          (inputs_written txid (get (tx_vin tx) [])
             (insert_or_replace_transaction
                (transaction_row tx txid hash height time (clock tick)) d))).

Fixpoint txs_written (clock : nat -> string) (tick : nat) (txs : list tx_data)
    (hash : string) (height : Z) (time : option Z) (d : Db) : option Db :=
  match txs with
  | [] => Some d
  | tx :: rest =>
      t ← time;
      d1 ← tx_written clock tick tx hash height t d;
      txs_written clock (S tick) rest hash height time d1
  end.

Definition block_written (clock : nat -> string) (tick : nat) (bd : block_data)
    (d : Db) : option Db :=
  hash ← bd_hash bd;
  height ← bd_height bd;
  txs_written clock (S tick) (get (bd_tx bd) []) hash height (bd_time bd)
    (insert_or_replace_block (block_row bd hash height (clock tick)) d).

(** The heights asked of the node with [getblockhash], in order. *)
Definition requested_heights (l : list rpc_request) : list Z :=
  omap (fun r => match r with GetBlockHash h => Some h | _ => None end) l.

(** The four [DELETE] statements of [remove_blocks_after] applied in their
    order to a database. *)
Definition truncated (f : Z) (d : Db) : Db :=
  delete_outputs_of_transactions_above f
    (delete_inputs_of_transactions_above f
       (delete_transactions_above f (delete_blocks_above f d))).

(** What [get_db_latest_height] answers in a state. *)
Definition latest_height_answer (db_fault : nat -> bool) (w : World) : Z :=
  if db_fault (stmts w) then -1
  else if truthy_int (select_max_height (committed w))
       then get (select_max_height (committed w)) 0 else -1.

(** The number of elements of the [vin] and of the [vout] arrays of a
    payload. *)
Definition payload_inputs (bd : block_data) : nat :=
  sum_list ((fun tx => length (get (tx_vin tx) [])) <$> get (bd_tx bd) []).

Definition payload_outputs (bd : block_data) : nat :=
  sum_list ((fun tx => length (get (tx_vout tx) [])) <$> get (bd_tx bd) []).

(** The fork-point search as the design document words it: from height
    [h - 1] down to the start height, the hash the node gives for height [k]
    is compared with the hash stored for [k]; the first height where the two
    agree is the fork point.  [n] heights remain to be visited, the next one
    being [start + n - 1]. *)
Fixpoint worded_walk_back (rpc : Rpc) (d : Db) (start : Z) (n : nat) : option Z :=
  match n with
  | O => None
  | S k =>
      let height := start + Z.of_nat k in
      if bool_decide (is_Some (getblockhash rpc height) /\
                      getblockhash rpc height = select_hash_by_height height d)
      then Some height
      else worded_walk_back rpc d start k
  end.

Definition worded_fork_point (rpc : Rpc) (d : Db) (start h : Z) : option Z :=
  worded_walk_back rpc d start (Z.to_nat (h - start)).

End Describe.

(** ** Concrete payloads, nodes and stores *)

Module Examples.
Import Payload Store Remote ETL.

Definition coinbase_vin : vin :=
  {| vin_vout := None; vin_sequence := Some 4294967295;
     vin_coinbase := Some "04ffff001d0104"; vin_txinwitness := None;
     vin_prevout := None; vin_scriptsig := None; vin_scriptsig_asm := None;
     vin_inner_witnessscript_asm := None; vin_inner_redeemscript_asm := None |}.

Definition pay_vout (n : Z) : vout :=
  {| vout_n := Some n;
     vout_scriptPubKey := Some {| spk_hex := Some "76a914"; spk_asm := None;
                                  spk_type := Some "pubkeyhash";
                                  spk_addresses := None |};
     vout_value := Some 50%Q |}.

Definition mk_tx (txid : option string) (vins : option (list vin))
    (vouts : option (list vout)) : tx_data :=
  {| tx_txid := txid; tx_hash := txid; tx_version := Some 1; tx_size := None;
     tx_vsize := None; tx_weight := None; tx_locktime := Some 0;
     tx_confirmations := None; tx_time := None; tx_blocktime := None;
     tx_vin := vins; tx_vout := vouts |}.

(** A coinbase transaction: one input, one output. *)
Definition coinbase_tx (txid : string) : tx_data :=
  mk_tx (Some txid) (Some [coinbase_vin]) (Some [pay_vout 0]).

Definition mk_block (hash : string) (height : Z) (prev : option string)
    (time : option Z) (txs : option (list tx_data)) : block_data :=
  {| bd_hash := Some hash; bd_confirmations := None; bd_size := None;
     bd_weight := None; bd_height := Some height; bd_version := Some 1;
     bd_versionHex := None; bd_merkleroot := None; bd_tx := txs;
     bd_time := time; bd_mediantime := None; bd_nonce := None;
     bd_bits := None; bd_difficulty := Some 1%float; bd_chainwork := None;
     bd_nTx := None; bd_previousblockhash := prev; bd_nextblockhash := None;
     bd_strippedsize := None; bd_sigops := None |}.

(** A node serving a fixed chain: the tip is the greatest height, a height
    resolves to the hash of the block at that height, and a hash to its
    block. *)
Definition node (chain : list block_data) : Rpc :=
  {| getblockchaininfo :=
       match omap bd_height chain with
       | [] => None
       | k :: ks => Some (foldl Z.max k ks)
       end;
     getblockhash := fun height =>
       head (filter (fun b => bd_height b = Some height) chain) ≫= bd_hash;
     getblock := fun hash _ =>
       head (filter (fun b => bd_hash b = Some hash) chain) |}.

Definition clock0 (n : nat) : string := "2024-01-01T00:00:00".
Definition no_fault (n : nat) : bool := false.

(** SQLite fails on statement number [k] of the run and on no other. *)
Definition fault_at (k n : nat) : bool := Nat.eqb n k.

Definition world_of (d : Db) : World :=
  {| committed := d; working := d; ticks := 0; stmts := 0; requests := [] |}.

Definition empty_world : World := world_of empty_db.

(** Chain A: heights 0 to 2. *)
Definition a0 := mk_block "a0" 0 None (Some 100) (Some [coinbase_tx "ta0"]).
Definition a1 := mk_block "a1" 1 (Some "a0") (Some 101) (Some [coinbase_tx "ta1"]).
Definition a2 := mk_block "a2" 2 (Some "a1") (Some 102) (Some [coinbase_tx "ta2"]).
Definition chain_a := [a0; a1; a2].

(** Chain B: shares heights 0 and 1 with chain A and replaces height 2. *)
Definition b2 := mk_block "b2" 2 (Some "a1") (Some 112) (Some [coinbase_tx "tb2"]).
Definition b3 := mk_block "b3" 3 (Some "b2") (Some 113) (Some [coinbase_tx "tb3"]).
Definition b4 := mk_block "b4" 4 (Some "b3") (Some 114) (Some [coinbase_tx "tb4"]).
Definition chain_b := [a0; a1; b2; b3; b4].

(** The store after chain A has been synchronised from the empty store, and
    a run that starts on it. *)
Definition store_a : Db :=
  committed (sync_blocks (node chain_a) clock0 no_fault None None empty_world).2.

Definition world_a : World := world_of store_a.

(** The store after height 0 of chain A alone has been ingested. *)
Definition store_genesis : Db :=
  committed (sync_height (node chain_a) clock0 no_fault 0 empty_world).2.

(** A store with a gap: the node cannot resolve height 1, the loop skips it
    and goes on with height 2. *)
Definition store_gap : Db :=
  committed (sync_blocks (node [a0; a2]) clock0 no_fault None None empty_world).2.

(** A block of height 3 that names block [a0] as its predecessor. *)
Definition c3 := mk_block "c3" 3 (Some "a0") (Some 123) (Some [coinbase_tx "tc3"]).

(** A linked chain with the given hashes, from [height] on. *)
Fixpoint chain_from (height : Z) (prev : option string) (names : list string)
    : list block_data :=
  match names with
  | [] => []
  | name :: rest =>
      mk_block name height prev (Some (1000 + height))
        (Some [coinbase_tx (String.append "t" name)])
      :: chain_from (height + 1) (Some name) rest
  end.

(** Ten blocks, heights 0 to 9. *)
Definition chain_c : list block_data :=
  chain_from 0 None ["c0"; "c1"; "c2"; "c3"; "c4"; "c5"; "c6"; "c7"; "c8"; "c9"].

(** The same payloads with the hash of the block at height [h] replaced. *)
Definition with_hash (h : Z) (hash : string) (chain : list block_data)
    : list block_data :=
  (fun b =>
     if bool_decide (bd_height b = Some h)
     then mk_block hash h (bd_previousblockhash b) (bd_time b) (bd_tx b)
     else b) <$> chain.

(** The store that mirrors [chain_c] except for the hash stored at height
    [h], which is ["xx"]. *)
Definition store_c (h : Z) : Db :=
  committed (sync_blocks (node (with_hash h "xx" chain_c)) clock0 no_fault None None
               empty_world).2.

(** Chain D: no block in common with chain A. *)
Definition d0 := mk_block "d0" 0 None (Some 200) (Some [coinbase_tx "td0"]).
Definition d1 := mk_block "d1" 1 (Some "d0") (Some 201) (Some [coinbase_tx "td1"]).
Definition d2 := mk_block "d2" 2 (Some "d1") (Some 202) (Some [coinbase_tx "td2"]).
Definition d3 := mk_block "d3" 3 (Some "d2") (Some 203) (Some [coinbase_tx "td3"]).
Definition d4 := mk_block "d4" 4 (Some "d3") (Some 204) (Some [coinbase_tx "td4"]).
Definition chain_d := [d0; d1; d2; d3; d4].

End Examples.

(** ** [reorg_check.py]: [check_chain_work] *)

Module ChainWork.
Import Payload Store Remote ReorgCheck.

(** [dict(row)] for a row of
    [SELECT height, chainwork, difficulty FROM blocks ...]. *)
Record DbWork := {
  dw_height : Z;
  dw_chainwork : string;
  dw_difficulty : float
}.

(** An entry of [bitcoind_chainwork]. *)
Record BtcWork := {
  bw_height : Z;
  bw_chainwork : string;
  bw_difficulty : float
}.

(** The two kinds of dictionary appended to [chainwork_inconsistencies]. *)
Inductive WorkInconsistency :=
| chainwork_mismatch (height : Z) (db_chainwork bitcoind_chainwork : string)
| difficulty_mismatch (height : Z) (db_difficulty bitcoind_difficulty : float).

Definition work_height (i : WorkInconsistency) : Z :=
  match i with
  | chainwork_mismatch h _ _ => h
  | difficulty_mismatch h _ _ => h
  end.

Record WorkReport := {
  work_check_time : string;
  work_blocks_checked : nat;            (* key ['blocks_checked'] *)
  chainwork_consistency : Q;
  work_total_inconsistencies : nat;     (* key ['total_inconsistencies'] *)
  work_inconsistencies : list WorkInconsistency;
  work_status : Status
}.

Definition db_work_of_row (r : BlockRow) : DbWork :=
  {| dw_height := b_height r; dw_chainwork := b_chainwork r;
     dw_difficulty := b_difficulty r |}.

(** [SELECT height, chainwork, difficulty FROM blocks
     WHERE height >= ? ORDER BY height] *)
Definition select_work_from (start : Z) (d : Db) : list DbWork :=
  db_work_of_row <$>
    merge_sort height_le (filter (fun b => b_height b >= start) (blocks d)).

(** The literal [0.001] as Python reads it: the binary64 number nearest to
    one thousandth. *)
Definition tolerance : float := 0x1.0624dd2f1a9fcp-10%float.

(** [abs(a - b) > 0.001] in binary64 arithmetic: the difference is rounded
    to the nearest number, ties to even, before it is compared. *)
Definition difficulty_differs (a b : float) : bool :=
  PrimFloat.ltb tolerance (PrimFloat.abs (PrimFloat.sub a b)).

Section Checker.

Variable rpc : Rpc.

(** The two calls made for one height; [None] when either raises. *)
Definition fetch_bitcoind_work (height : Z) : option BtcWork :=
  block_hash ← getblockhash rpc height;
  block_info ← getblock rpc block_hash 1;
  Some {| bw_height := height;
          bw_chainwork := get (bd_chainwork block_info) "";
          bw_difficulty := get (bd_difficulty block_info) 0%float |}.

Definition fetch_bitcoind_chainwork (heights : list Z) : gmap Z BtcWork :=
  foldl (fun m height =>
           match fetch_bitcoind_work height with
           | Some b => <[height := b]> m
           | None => m
           end) ∅ heights.

(** One round of the comparison loop of [check_chain_work]. *)
Definition compare_work (db_chainwork : gmap Z DbWork)
    (bitcoind_chainwork : gmap Z BtcWork) (height : Z) : list WorkInconsistency :=
  match db_chainwork !! height, bitcoind_chainwork !! height with
  | Some db_block, Some btc_block =>
      (if bool_decide (dw_chainwork db_block <> bw_chainwork btc_block)
       then [chainwork_mismatch height (dw_chainwork db_block) (bw_chainwork btc_block)]
       else []) ++
      (if difficulty_differs (dw_difficulty db_block) (bw_difficulty btc_block)
       then [difficulty_mismatch height (dw_difficulty db_block)
               (bw_difficulty btc_block)]
       else [])
  | _, _ => []
  end.

(** [check_chain_work(num_blocks)], run on the database [d] at clock reading
    [now]. *)
Definition check_chain_work (d : Db) (now : string) (num_blocks : Z)
    : exn + WorkReport :=
  match select_max_height d with
  | None => inl NoBlocksFound
  | Some db_latest_height =>
      let start_height := Z.max 0 (db_latest_height - num_blocks + 1) in
      let heights := seqZ start_height (db_latest_height + 1 - start_height) in
      let db_chainwork := dict_of dw_height id (select_work_from start_height d) in
      let bitcoind_chainwork := fetch_bitcoind_chainwork heights in
      let chainwork_inconsistencies :=
        foldl (fun acc height => acc ++ compare_work db_chainwork bitcoind_chainwork height)
          [] heights in
      let total_blocks_checked := size bitcoind_chainwork in
      let chainwork_consistency :=
        if bool_decide (0 < total_blocks_checked)%nat
        then (inject_Z (Z.of_nat total_blocks_checked
                        - Z.of_nat (length chainwork_inconsistencies))
              / inject_Z (Z.of_nat total_blocks_checked) * 100)%Q
        else 0%Q in
      inr {| work_check_time := now;
             work_blocks_checked := total_blocks_checked;
             chainwork_consistency := round2 chainwork_consistency;
             work_total_inconsistencies := length chainwork_inconsistencies;
             work_inconsistencies := chainwork_inconsistencies;
             work_status := if bool_decide (length chainwork_inconsistencies = 0%nat)
                            then healthy else inconsistent |}
  end.

End Checker.

End ChainWork.

(** ** Further descriptions used in the statements *)

Module Observe.
Import Payload Store Remote ETL.

(** The rows the [vin] and [vout] arrays of a payload stand for, in the order
    of the payload, each with the txid of its transaction. *)
Definition payload_input_rows (bd : block_data) : list InputRow :=
  tx ← get (bd_tx bd) [];
  match tx_txid tx with
  | Some txid => (fun v => input_row v txid) <$> get (tx_vin tx) []
  | None => []
  end.

Definition payload_output_rows (bd : block_data) : list OutputRow :=
  tx ← get (bd_tx bd) [];
  match tx_txid tx with
  | Some txid => (fun v => output_row v txid) <$> get (tx_vout tx) []
  | None => []
  end.

(** A computation that raises leaves the committed data as it found them. *)
Definition raises_keep_committed {A} (m : M A) : Prop :=
  forall w e w', m w = (inl e, w') -> committed w' = committed w.

(** No two block rows share a height or a hash, no two transaction rows a
    txid. *)
Definition store_unique (d : Db) : Prop :=
  NoDup (b_height <$> blocks d) /\
  NoDup (b_hash <$> blocks d) /\
  NoDup (t_txid <$> transactions d).

(** The keys [insert_block] and [insert_transaction] read with [d[key]]:
    ['hash'] and ['height'] of the block, ['time'] once for every
    transaction, and ['txid'] of every transaction.  Every other key is read
    with [d.get(key, default)]. *)
Definition payload_complete (bd : block_data) : Prop :=
  is_Some (bd_hash bd) /\ is_Some (bd_height bd) /\
  (get (bd_tx bd) [] <> [] -> is_Some (bd_time bd)) /\
  Forall (fun tx => is_Some (tx_txid tx)) (get (bd_tx bd) []).

(** The row of the block and the rows of its transactions, as the payload
    gives them.  The block row is stamped with one reading of the clock and
    every transaction row with a reading of its own, in the order of the
    payload. *)
Definition payload_block_row (clock : nat -> string) (tick : nat) (bd : block_data)
    : BlockRow :=
  block_row bd (get (bd_hash bd) "") (get (bd_height bd) 0) (clock tick).

Definition payload_transaction_rows (clock : nat -> string) (tick : nat)
    (bd : block_data) : list TxRow :=
  imap (fun i tx =>
          transaction_row tx (get (tx_txid tx) "") (get (bd_hash bd) "")
            (get (bd_height bd) 0) (get (bd_time bd) 0) (clock (tick + i)%nat))
       (get (bd_tx bd) []).

(** A table of transactions after rows have been put into it one after the
    other with replacement on the txid: each row takes the place of the row
    that holds its txid, at the end of the table. *)
Definition replaced_by_txid (table rows : list TxRow) : list TxRow :=
  foldl (fun t r => filter (fun x => t_txid x <> t_txid r) t ++ [r]) table rows.

(** The database [d'] is the database [d] with the payload persisted
    completely, the clock having been read [tick] times before: the payload
    has its keys, the block row has replaced the rows of its hash or of its
    height, the transaction rows those of their txids, and the input and
    output rows of the payload have been added. *)
Definition block_persisted (clock : nat -> string) (tick : nat) (bd : block_data)
    (d d' : Db) : Prop :=
  payload_complete bd /\
  blocks d' =
    filter (fun b => b_hash b <> get (bd_hash bd) "" /\ b_height b <> get (bd_height bd) 0)
      (blocks d) ++ [payload_block_row clock tick bd] /\
  transactions d' =
    replaced_by_txid (transactions d) (payload_transaction_rows clock (S tick) bd) /\
  tx_inputs d' = tx_inputs d ++ payload_input_rows bd /\
  tx_outputs d' = tx_outputs d ++ payload_output_rows bd.

End Observe.

(** ** What the records of the auditor say *)

Module ObserveAudit.
Import Payload Store Remote ReorgCheck ChainWork.

(** A dictionary filled height by height with the answers of [f], as the
    two checks fill theirs from the node. *)
Definition fill {V} (f : Z -> option V) (m : gmap Z V) (heights : list Z) : gmap Z V :=
  foldl (fun m height =>
           match f height with
           | Some b => <[height := b]> m
           | None => m
           end) m heights.

(** What a record of [check_block_consistency] says, read against the store
    and the node. *)
Definition record_holds (rpc : Rpc) (d : Db) (i : Inconsistency) : Prop :=
  match i with
  | hash_mismatch h a b =>
      a <> b /\ getblockhash rpc h = Some b /\
      exists r, r ∈ blocks d /\ b_height r = h /\ b_hash r = a
  | prev_hash_mismatch h a b =>
      a <> b /\
      btc_previousblockhash <$> fetch_bitcoind_block rpc h = Some b /\
      is_Some (fetch_bitcoind_block rpc (h - 1)) /\
      exists r, r ∈ blocks d /\ b_height r = h - 1 /\ b_hash r = a
  end.

(** The heights a record of a report may carry: those of the window, the
    first one excepted for a [prev_hash_mismatch]. *)
Definition record_in_window (rep : Report) (i : Inconsistency) : Prop :=
  match i with
  | hash_mismatch h _ _ =>
      start_height (blocks_checked rep) <= h <= end_height (blocks_checked rep)
  | prev_hash_mismatch h _ _ =>
      start_height (blocks_checked rep) < h <= end_height (blocks_checked rep)
  end.

(** What a record of [check_chain_work] says. *)
Definition work_record_holds (rpc : Rpc) (d : Db) (i : WorkInconsistency) : Prop :=
  match i with
  | chainwork_mismatch h a b =>
      a <> b /\
      bw_chainwork <$> fetch_bitcoind_work rpc h = Some b /\
      exists r, r ∈ blocks d /\ b_height r = h /\ b_chainwork r = a
  | difficulty_mismatch h a b =>
      a <> b /\
      bw_difficulty <$> fetch_bitcoind_work rpc h = Some b /\
      exists r, r ∈ blocks d /\ b_height r = h /\ b_difficulty r = a
  end.

End ObserveAudit.

(** ** Further payloads *)

Module MoreExamples.
Import Payload Store Remote ETL ReorgCheck Examples.

(** The block that follows chain A. *)
Definition a3 := mk_block "a3" 3 (Some "a2") (Some 103) (Some [coinbase_tx "ta3"]).

(** The same payload without the key ['time'], and with neither ['time'] nor
    transactions. *)
Definition a3_without_time :=
  mk_block "a3" 3 (Some "a2") None (Some [coinbase_tx "ta3"]).
Definition a3_bare := mk_block "a3" 3 (Some "a2") None None.

(** A payload without the key ['hash']. *)
Definition without_hash (b : block_data) : block_data :=
  {| bd_hash := None; bd_confirmations := bd_confirmations b; bd_size := bd_size b;
     bd_weight := bd_weight b; bd_height := bd_height b; bd_version := bd_version b;
     bd_versionHex := bd_versionHex b; bd_merkleroot := bd_merkleroot b;
     bd_tx := bd_tx b; bd_time := bd_time b; bd_mediantime := bd_mediantime b;
     bd_nonce := bd_nonce b; bd_bits := bd_bits b; bd_difficulty := bd_difficulty b;
     bd_chainwork := bd_chainwork b; bd_nTx := bd_nTx b;
     bd_previousblockhash := bd_previousblockhash b;
     bd_nextblockhash := bd_nextblockhash b; bd_strippedsize := bd_strippedsize b;
     bd_sigops := bd_sigops b |}.

(** The row stored at height 5 of [store_c 5], and the entry the auditor
    builds for that height from the node of chain C. *)
Definition row_5 : BlockRow :=
  default (block_row a0 "" 0 "") (blocks (store_c 5) !! 5%nat).

Definition node_entry_5 : BtcBlock :=
  {| btc_height := 5; btc_hash := "c5"; btc_previousblockhash := "c4";
     btc_time := 1005 |}.

(** A payload with another chainwork and another difficulty. *)
Definition with_work (chainwork : string) (difficulty : float) (b : block_data)
    : block_data :=
  {| bd_hash := bd_hash b; bd_confirmations := bd_confirmations b; bd_size := bd_size b;
     bd_weight := bd_weight b; bd_height := bd_height b; bd_version := bd_version b;
     bd_versionHex := bd_versionHex b; bd_merkleroot := bd_merkleroot b;
     bd_tx := bd_tx b; bd_time := bd_time b; bd_mediantime := bd_mediantime b;
     bd_nonce := bd_nonce b; bd_bits := bd_bits b; bd_difficulty := Some difficulty;
     bd_chainwork := Some chainwork; bd_nTx := bd_nTx b;
     bd_previousblockhash := bd_previousblockhash b;
     bd_nextblockhash := bd_nextblockhash b; bd_strippedsize := bd_strippedsize b;
     bd_sigops := bd_sigops b |}.

(** The node serves chain A with other figures than the stored ones, which
    are the chainwork [""] and the difficulty 1: at height 0 a difficulty
    within the tolerance, at height 1 a difficulty beyond it, at height 2
    another chainwork. *)
Definition chain_a_reworked : list block_data :=
  [with_work "" 0x1.004p+0%float a0; with_work "" 0x1.8p+0%float a1;
   with_work "0f" 1%float a2].

End MoreExamples.

(** * Properties *)

(** ** Runs of the methods *)

Module Runs.
Import Payload Store Remote ETL Describe.

Lemma bind_inv {A B} (m : M A) (f : A -> M B) w r w' :
  (m ≫= f) w = (r, w') ->
  (exists e, m w = (inl e, w') /\ r = inl e) \/
  (exists x w1, m w = (inr x, w1) /\ f x w1 = (r, w')).
Proof.
  unfold mbind, M_bind. destruct (m w) as [[e|x] w1]; intros H.
  - left. exists e. by simplify_eq.
  - right. by exists x, w1.
Qed.

Lemma try_except_inv {A} (body : M A) (handler : exn -> M A) w r w' :
  try_except body handler w = (r, w') ->
  (exists x, body w = (inr x, w') /\ r = inr x) \/
  (exists e w1, body w = (inl e, w1) /\ handler e w1 = (r, w')).
Proof.
  unfold try_except. destruct (body w) as [[e|x] w1]; intros H.
  - right. by exists e, w1.
  - left. exists x. by simplify_eq.
Qed.

Lemma ret_bind {A B} (x : A) (f : A -> M B) w : (mret x ≫= f) w = f x w.
Proof. reflexivity. Qed.

Lemma bind_returned {A B} (m : M A) (f : A -> M B) w x w1 :
  m w = (inr x, w1) -> (m ≫= f) w = f x w1.
Proof. unfold mbind, M_bind. by intros ->. Qed.

Lemma bind_assoc {A B C} (m : M A) (f : A -> M B) (g : B -> M C) w :
  ((m ≫= f) ≫= g) w = (m ≫= fun x => f x ≫= g) w.
Proof. unfold mbind, M_bind. by destruct (m w) as [[e|x] w1]. Qed.

Section Keeps.
Context {X : Type} (proj : World -> X).

Lemma keeps_ret {A} (x : A) : keeps proj (mret x).
Proof. by intros w r w' [= <- <-]. Qed.

Lemma keeps_raise {A} e : keeps proj (@raise A e).
Proof. by intros w r w' [= <- <-]. Qed.

Lemma keeps_bind {A B} (m : M A) (f : A -> M B) :
  keeps proj m -> (forall x, keeps proj (f x)) -> keeps proj (m ≫= f).
Proof.
  intros Hm Hf w r w' H. apply bind_inv in H as [(e & H & _)|(x & w1 & H1 & H2)].
  - by eapply Hm.
  - etrans; [by eapply Hf | by eapply Hm].
Qed.

Lemma keeps_try_except {A} (body : M A) handler :
  keeps proj body -> (forall e, keeps proj (handler e)) ->
  keeps proj (try_except body handler).
Proof.
  intros Hb Hh w r w' H. apply try_except_inv in H as [(x & H & _)|(e & w1 & H1 & H2)].
  - by eapply Hb.
  - etrans; [by eapply Hh | by eapply Hb].
Qed.

Lemma keeps_try_finally {A} (body : M A) cleanup :
  keeps proj body -> keeps proj cleanup -> keeps proj (try_finally body cleanup).
Proof.
  intros Hb Hc w r w'. unfold try_finally.
  destruct (body w) as [r1 w1] eqn:E1. destruct (cleanup w1) as [[e|[]] w2] eqn:E2;
    intros [= <- <-]; (etrans; [by eapply Hc | by eapply Hb]).
Qed.

Lemma keeps_for_each {A} (l : list A) (body : A -> M unit) :
  (forall x, keeps proj (body x)) -> keeps proj (for_each l body).
Proof.
  intros Hb. induction l as [|x l IH]; simpl.
  - apply keeps_ret.
  - apply keeps_bind; auto.
Qed.

Lemma keeps_getitem {A} key (o : option A) : keeps proj (getitem key o).
Proof. destruct o; [apply keeps_ret | apply keeps_raise]. Qed.

End Keeps.

Create HintDb keeps.
#[export] Hint Resolve keeps_ret keeps_raise keeps_bind keeps_try_except
  keeps_try_finally keeps_for_each keeps_getitem : keeps.

(** The primitive actions, by unfolding. *)
Ltac keeps_prim :=
  let H := fresh in
  intros ? ? ? H; cbv beta zeta delta [db_step apply_stmt read read_committed now
    rollback commit_txn rpc_call get_db_connection conn_close] in H;
  repeat case_match; simplify_eq; reflexivity.

Lemma db_step_committed f : keeps committed (db_step f).
Proof. keeps_prim. Qed.
Lemma db_step_working f : keeps working (db_step f).
Proof. keeps_prim. Qed.
Lemma db_step_requests f : keeps requests (db_step f).
Proof. keeps_prim. Qed.
Lemma apply_stmt_committed s : keeps committed (apply_stmt s).
Proof. keeps_prim. Qed.
Lemma apply_stmt_requests s : keeps requests (apply_stmt s).
Proof. keeps_prim. Qed.
Lemma read_committed_ {A} (q : Db -> A) : keeps committed (read q).
Proof. keeps_prim. Qed.
Lemma read_working {A} (q : Db -> A) : keeps working (read q).
Proof. keeps_prim. Qed.
Lemma read_requests {A} (q : Db -> A) : keeps requests (read q).
Proof. keeps_prim. Qed.
Lemma now_committed c : keeps committed (now c).
Proof. keeps_prim. Qed.
Lemma now_requests c : keeps requests (now c).
Proof. keeps_prim. Qed.
Lemma rollback_committed : keeps committed rollback.
Proof. keeps_prim. Qed.
Lemma rollback_requests : keeps requests rollback.
Proof. keeps_prim. Qed.
Lemma commit_txn_requests : keeps requests commit_txn.
Proof. keeps_prim. Qed.
Lemma rpc_call_committed {A} req (o : option A) : keeps committed (rpc_call req o).
Proof. keeps_prim. Qed.
Lemma rpc_call_working {A} req (o : option A) : keeps working (rpc_call req o).
Proof. keeps_prim. Qed.

#[export] Hint Resolve db_step_committed db_step_working db_step_requests
  apply_stmt_committed apply_stmt_requests read_committed_ read_working
  read_requests now_committed now_requests rollback_committed
  rollback_requests commit_txn_requests rpc_call_committed rpc_call_working
  : keeps.

Ltac keeps_auto :=
  repeat first
    [ progress eauto 8 with keeps
    | apply keeps_bind; [|intros ?]
    | apply keeps_for_each; intros ?
    | apply keeps_try_except; [|intros ?]
    | case_match ].

Section Frames.
Variable clock : nat -> string.
Variable db_fault : nat -> bool.

Lemma execute_committed s : keeps committed (execute db_fault s).
Proof. unfold execute. keeps_auto. Qed.

Lemma insert_transaction_committed tx hash height time :
  keeps committed (insert_transaction clock db_fault tx hash height time).
Proof. unfold insert_transaction, insert_input, insert_output, execute. keeps_auto. Qed.

Lemma insert_block_requests bd : keeps requests (insert_block clock db_fault bd).
Proof.
  unfold insert_block, insert_transaction, insert_input, insert_output, commit, execute.
  keeps_auto.
Qed.

Lemma walk_back_requests p n : keeps requests (walk_back db_fault p n).
Proof. induction n; simpl; unfold fetch; keeps_auto. Qed.

Lemma handle_reorg_requests bd : keeps requests (handle_reorg db_fault bd).
Proof.
  unfold handle_reorg, find_fork, remove_blocks_after, commit, execute, fetch.
  pose proof walk_back_requests. keeps_auto.
Qed.

End Frames.

(** Inversion of a run that returned. *)
Ltac run_inv H :=
  repeat match type of H with
  | (_ ≫= _) _ = (inr _, _) =>
      let e := fresh "e" in let x := fresh "x" in let w := fresh "w" in
      let H1 := fresh "H" in
      apply bind_inv in H as [(e & _ & [=])|(x & w & H1 & H)];
      try match type of x with unit => destruct x end
  | mret _ _ = _ => injection H as <- <-
  | getitem _ ?o _ = _ => destruct o eqn:?; simpl in H; [|discriminate H]
  | raise _ _ = _ => discriminate H
  end.

Section Written.
Variable clock : nat -> string.
Variable db_fault : nat -> bool.

Lemma execute_inv s w w' :
  execute db_fault s w = (inr tt, w') ->
  w' = set_working (s (working w)) (set_stmts (S (stmts w)) w).
Proof.
  unfold execute, mbind, M_bind, db_step, apply_stmt. simpl.
  destruct (db_fault (stmts w)); [done|]. by intros [= <-].
Qed.

Lemma for_each_inputs_inv txid vins w w' :
  for_each vins (fun v => insert_input db_fault v txid) w = (inr tt, w') ->
  working w' = inputs_written txid vins (working w) /\ ticks w' = ticks w.
Proof.
  revert w. induction vins as [|v vins IH]; intros w H; simpl in H.
  - by injection H as <-.
  - run_inv H. unfold insert_input in *.
    match goal with E : execute _ _ _ = _ |- _ => apply execute_inv in E as -> end.
    apply IH in H as [-> ->]. done.
Qed.

Lemma for_each_outputs_inv txid vouts w w' :
  for_each vouts (fun v => insert_output db_fault v txid) w = (inr tt, w') ->
  working w' = outputs_written txid vouts (working w) /\ ticks w' = ticks w.
Proof.
  revert w. induction vouts as [|v vouts IH]; intros w H; simpl in H.
  - by injection H as <-.
  - run_inv H. unfold insert_output in *.
    match goal with E : execute _ _ _ = _ |- _ => apply execute_inv in E as -> end.
    apply IH in H as [-> ->]. done.
Qed.

Lemma insert_transaction_inv tx hash height time w w' :
  insert_transaction clock db_fault tx hash height time w = (inr tt, w') ->
  tx_written clock (ticks w) tx hash height time (working w) = Some (working w') /\
  ticks w' = S (ticks w).
Proof.
  intros H. apply try_except_inv in H as [([] & H & _)|(e & w1 & _ & H)].
  2:{ apply bind_inv in H as [(e' & _ & [=])|(x & w2 & _ & [=])]. }
  unfold tx_written.
  apply bind_inv in H as [(e & _ & [=])|(txid & w0 & Htxid & H)].
  destruct (tx_txid tx) as [txid'|]; [injection Htxid as -> ->|discriminate Htxid].
  apply bind_inv in H as [(e & _ & [=])|(created & w1 & Hnow & H)].
  injection Hnow as <- <-.
  apply bind_inv in H as [(e & _ & [=])|([] & w2 & Hexec & H)].
  apply execute_inv in Hexec as ->.
  apply bind_inv in H as [(e & _ & [=])|([] & w3 & Hin & Hout)].
  match type of Hin with _ ?w2 = _ =>
    assert (working w3 = inputs_written txid (get (tx_vin tx) []) (working w2) /\
            ticks w3 = ticks w2) as [E1 E2]
  end.
  { destruct (tx_vin tx); simpl.
    - by apply for_each_inputs_inv in Hin.
    - by injection Hin as <-. }
  assert (working w' = outputs_written txid (get (tx_vout tx) []) (working w3) /\
          ticks w' = ticks w3) as [E3 E4].
  { destruct (tx_vout tx); simpl.
    - by apply for_each_outputs_inv in Hout.
    - by injection Hout as <-. }
  simpl. by rewrite E3, E1, E4, E2.
Qed.

Lemma for_each_txs_inv txs hash height time w w' :
  for_each txs (fun tx =>
      block_time ← getitem "time" time;
      insert_transaction clock db_fault tx hash height block_time) w = (inr tt, w') ->
  txs_written clock (ticks w) txs hash height time (working w) = Some (working w').
Proof.
  revert w. induction txs as [|tx txs IH]; intros w H; simpl in H.
  - by injection H as <-.
  - apply bind_inv in H as [(e & _ & [=])|([] & w1 & Htx & H)].
    apply bind_inv in Htx as [(e & _ & [=])|(t & w0 & Ht & Htx)].
    destruct time as [t'|]; [injection Ht as -> ->|discriminate Ht].
    apply insert_transaction_inv in Htx as [E1 E2].
    simpl. rewrite E1. simpl. rewrite <- E2. by apply IH.
Qed.

Lemma commits_or_keeps_bind {A B} (m : M A) (f : A -> M B) :
  keeps committed m -> (forall x, commits_or_keeps (f x)) ->
  commits_or_keeps (m ≫= f).
Proof.
  intros Hm Hf w r w' H. apply bind_inv in H as [(e & H & ->)|(x & w1 & H1 & H2)].
  - by eapply Hm.
  - apply Hf in H2. apply Hm in H1. destruct r; congruence.
Qed.

Lemma commit_commits_or_keeps : commits_or_keeps (commit db_fault).
Proof.
  intros w r w'. unfold commit, mbind, M_bind, db_step, commit_txn. simpl.
  destruct (db_fault (stmts w)); by intros [= <- <-].
Qed.

Lemma insert_block_body_inv bd w w' :
  insert_block clock db_fault bd w = (inr tt, w') ->
  block_written clock (ticks w) bd (working w) = Some (working w').
Proof.
  intros H. apply try_except_inv in H as [([] & H & _)|(e & w1 & _ & H)].
  2:{ apply bind_inv in H as [(e' & _ & [=])|([] & w2 & _ & H)].
      apply bind_inv in H as [(e' & _ & [=])|(x & w3 & _ & [=])]. }
  unfold block_written.
  apply bind_inv in H as [(e & _ & [=])|(hash & w0 & Hhash & H)].
  destruct (bd_hash bd) as [hash'|]; [injection Hhash as -> ->|discriminate Hhash].
  apply bind_inv in H as [(e & _ & [=])|(height & w0' & Hheight & H)].
  destruct (bd_height bd) as [height'|]; [injection Hheight as -> ->|discriminate Hheight].
  apply bind_inv in H as [(e & _ & [=])|(created & w1 & Hnow & H)].
  injection Hnow as <- <-.
  apply bind_inv in H as [(e & _ & [=])|([] & w2 & Hexec & H)].
  apply execute_inv in Hexec as ->.
  apply bind_inv in H as [(e & _ & [=])|([] & w3 & Htxs & Hcommit)].
  assert (working w' = working w3) as ->.
  { revert Hcommit. unfold commit, mbind, M_bind, db_step, commit_txn. simpl.
    destruct (db_fault (stmts w3)); [done|]. by intros [= <-]. }
  simpl. destruct (bd_tx bd) as [txs|]; simpl.
  - by apply for_each_txs_inv in Htxs.
  - by injection Htxs as <-.
Qed.

Lemma insert_block_outcome bd w r w' :
  insert_block clock db_fault bd w = (r, w') ->
  working w' = committed w' /\
  match r with
  | inl _ => committed w' = committed w
  | inr _ => block_written clock (ticks w) bd (working w) = Some (committed w')
  end.
Proof.
  intros H. pose proof H as H0.
  apply try_except_inv in H as [([] & H & ->)|(e & w1 & H & Hh)];
    match type of H with ?m _ = _ => assert (commits_or_keeps m) as Hm end.
  1,3: repeat (apply commits_or_keeps_bind;
               [by auto using execute_committed with keeps|intros ?]);
       apply commits_or_keeps_bind; [|intros _; apply commit_commits_or_keeps];
       pose proof insert_transaction_committed; keeps_auto.
  - apply Hm in H. split; [done|]. rewrite H. by apply insert_block_body_inv.
  - apply Hm in H.
    apply bind_inv in Hh as [(e' & [=] & _)|([] & w2 & Hrb & Hh)].
    injection Hrb as <-.
    assert (w' = set_working (committed w1) w1 /\ exists e', r = inl e') as [-> [e' ->]].
    { destruct (bd_height bd); simpl in Hh; injection Hh as <- <-; eauto. }
    simpl. done.
Qed.

(** Without a failing statement, a payload that has the keys read with
    [d[key]] is written. *)
Section NoFault.
Hypothesis Hno_fault : forall n, db_fault n = false.

Lemma execute_ok s w :
  execute db_fault s w = (inr tt, set_working (s (working w)) (set_stmts (S (stmts w)) w)).
Proof.
  unfold execute, mbind, M_bind, db_step, apply_stmt. simpl. by rewrite Hno_fault.
Qed.

Lemma commit_ok w :
  commit db_fault w = (inr tt, set_committed (working w) (set_stmts (S (stmts w)) w)).
Proof.
  unfold commit, mbind, M_bind, db_step, commit_txn. simpl. by rewrite Hno_fault.
Qed.

Lemma for_each_execute_ok {A} (l : list A) (stmt : A -> Db -> Db) w :
  exists w', for_each l (fun x => execute db_fault (stmt x)) w = (inr tt, w').
Proof.
  revert w. induction l as [|x l IH]; intros w; simpl; [by eexists|].
  unfold mbind, M_bind. rewrite execute_ok. apply IH.
Qed.

Lemma insert_transaction_ok tx hash height time w :
  is_Some (tx_txid tx) ->
  exists w', insert_transaction clock db_fault tx hash height time w = (inr tt, w').
Proof.
  intros [txid Htxid]. unfold insert_transaction, try_except, mbind, M_bind.
  rewrite Htxid. simpl. rewrite execute_ok.
  match goal with |- context [match tx_vin tx with _ => _ end ?w0] =>
    assert (exists w1, match tx_vin tx with
                       | Some vins => for_each vins (fun v => insert_input db_fault v txid)
                       | None => mret tt
                       end w0 = (inr tt, w1)) as [w1 ->]
  end.
  { destruct (tx_vin tx); [|by eexists].
    apply (for_each_execute_ok _ (fun v => insert_tx_input (input_row v txid))). }
  assert (exists w2, match tx_vout tx with
                     | Some vouts => for_each vouts (fun v => insert_output db_fault v txid)
                     | None => mret tt
                     end w1 = (inr tt, w2)) as [w2 ->].
  { destruct (tx_vout tx); [|by eexists].
    apply (for_each_execute_ok _ (fun v => insert_tx_output (output_row v txid))). }
  by eexists.
Qed.

Lemma for_each_txs_ok txs hash height time tick d w :
  is_Some (txs_written clock tick txs hash height time d) ->
  exists w', for_each txs (fun tx =>
      block_time ← getitem "time" time;
      insert_transaction clock db_fault tx hash height block_time) w = (inr tt, w').
Proof.
  revert tick d w. induction txs as [|tx txs IH]; intros tick d w [d' H]; simpl in *.
  { by eexists. }
  destruct time as [t|]; [|done]. simpl in H.
  destruct (tx_written clock tick tx hash height t d) as [d1|] eqn:E1; [|done].
  simpl in H.
  destruct (insert_transaction_ok tx hash height t w) as [w1 H1].
  { unfold tx_written in E1. destruct (tx_txid tx); [by eexists|done]. }
  unfold mbind at 1, M_bind at 1. simpl. unfold mbind at 1, M_bind at 1. simpl.
  rewrite H1. eapply IH. by eexists.
Qed.

Lemma insert_block_ok bd w :
  is_Some (block_written clock (ticks w) bd (working w)) ->
  exists w', insert_block clock db_fault bd w = (inr tt, w').
Proof.
  intros [d' H]. unfold block_written in H.
  destruct (bd_hash bd) as [hash|] eqn:Ehash; [|done].
  destruct (bd_height bd) as [height|] eqn:Eheight; [|done]. simpl in H.
  unfold insert_block, try_except, mbind, M_bind.
  rewrite Ehash, Eheight. simpl. rewrite execute_ok.
  match goal with |- context [match bd_tx bd with _ => _ end ?w0] =>
    assert (exists w1, match bd_tx bd with
       | Some txs => for_each txs (fun tx =>
           block_time ← getitem "time" (bd_time bd);
           insert_transaction clock db_fault tx hash height block_time)
       | None => mret tt
       end w0 = (inr tt, w1)) as [w1 Hw1]
  end.
  { destruct (bd_tx bd); [|by eexists]. eapply for_each_txs_ok. by eexists. }
  unfold mbind, M_bind in Hw1. rewrite Hw1. rewrite commit_ok. by eexists.
Qed.

End NoFault.

End Written.

End Runs.

(** ** What a block writes and what a truncation deletes *)

Module StoreFacts.
Import Payload Store Remote ETL Describe Runs.

(** *** Rows written by a block *)

Lemma inputs_written_tables txid vins d :
  blocks (inputs_written txid vins d) = blocks d /\
  transactions (inputs_written txid vins d) = transactions d /\
  tx_inputs (inputs_written txid vins d) =
    tx_inputs d ++ ((fun v => input_row v txid) <$> vins) /\
  tx_outputs (inputs_written txid vins d) = tx_outputs d.
Proof.
  revert d. induction vins as [|v vins IH]; intros d; simpl.
  - by rewrite app_nil_r.
  - destruct (IH (insert_tx_input (input_row v txid) d)) as (-> & -> & -> & ->).
    simpl. by rewrite <- app_assoc.
Qed.

Lemma outputs_written_tables txid vouts d :
  blocks (outputs_written txid vouts d) = blocks d /\
  transactions (outputs_written txid vouts d) = transactions d /\
  tx_inputs (outputs_written txid vouts d) = tx_inputs d /\
  tx_outputs (outputs_written txid vouts d) =
    tx_outputs d ++ ((fun v => output_row v txid) <$> vouts).
Proof.
  revert d. induction vouts as [|v vouts IH]; intros d; simpl.
  - by rewrite app_nil_r.
  - destruct (IH (insert_tx_output (output_row v txid) d)) as (-> & -> & -> & ->).
    simpl. by rewrite <- app_assoc.
Qed.

Lemma tx_written_counts clock tick tx hash height time d d' :
  tx_written clock tick tx hash height time d = Some d' ->
  blocks d' = blocks d /\
  length (tx_inputs d') = (length (tx_inputs d) + length (get (tx_vin tx) []))%nat /\
  length (tx_outputs d') = (length (tx_outputs d) + length (get (tx_vout tx) []))%nat.
Proof.
  unfold tx_written. destruct (tx_txid tx) as [txid|]; [|done]. simpl. intros [= <-].
  destruct (outputs_written_tables txid (get (tx_vout tx) [])
    (inputs_written txid (get (tx_vin tx) [])
       (insert_or_replace_transaction
          (transaction_row tx txid hash height time (clock tick)) d)))
    as (-> & _ & -> & ->).
  destruct (inputs_written_tables txid (get (tx_vin tx) [])
       (insert_or_replace_transaction
          (transaction_row tx txid hash height time (clock tick)) d))
    as (-> & _ & -> & ->).
  simpl. by rewrite !length_app, !length_fmap.
Qed.

Lemma txs_written_counts clock tick txs hash height time d d' :
  txs_written clock tick txs hash height time d = Some d' ->
  blocks d' = blocks d /\
  length (tx_inputs d') =
    (length (tx_inputs d) + sum_list ((fun tx => length (get (tx_vin tx) [])) <$> txs))%nat /\
  length (tx_outputs d') =
    (length (tx_outputs d) + sum_list ((fun tx => length (get (tx_vout tx) [])) <$> txs))%nat.
Proof.
  revert tick d. induction txs as [|tx txs IH]; intros tick d H; simpl in *.
  - injection H as <-. by rewrite !Nat.add_0_r.
  - destruct time as [t|]; [|done]. simpl in H.
    destruct (tx_written clock tick tx hash height t d) as [d1|] eqn:E1; [|done].
    simpl in H. apply IH in H as (-> & -> & ->).
    apply tx_written_counts in E1 as (-> & -> & ->). split_and!; [done|..]; symmetry; apply Nat.add_assoc.
Qed.

(** A block that is written adds one input row per element of its [vin]
    arrays and one output row per element of its [vout] arrays. *)
Lemma block_written_counts clock tick bd d d' :
  block_written clock tick bd d = Some d' ->
  length (tx_inputs d') = (length (tx_inputs d) + payload_inputs bd)%nat /\
  length (tx_outputs d') = (length (tx_outputs d) + payload_outputs bd)%nat.
Proof.
  unfold block_written, payload_inputs, payload_outputs.
  destruct (bd_hash bd) as [hash|]; [|done].
  destruct (bd_height bd) as [height|]; [|done]. simpl. intros H.
  by apply txs_written_counts in H as (_ & -> & ->).
Qed.

Lemma txs_written_is_Some clock t1 t2 txs hash height time d1 d2 :
  is_Some (txs_written clock t1 txs hash height time d1) ->
  is_Some (txs_written clock t2 txs hash height time d2).
Proof.
  revert t1 t2 d1 d2. induction txs as [|tx txs IH]; intros t1 t2 d1 d2; simpl; [by eauto|].
  destruct time as [t|]; [|by intros [? ?]]. simpl.
  unfold tx_written. destruct (tx_txid tx) as [txid|]; [|by intros [? ?]].
  simpl. apply IH.
Qed.

Lemma block_written_is_Some clock tick tick' bd d d' :
  is_Some (block_written clock tick bd d) -> is_Some (block_written clock tick' bd d').
Proof.
  unfold block_written.
  destruct (bd_hash bd) as [hash|]; [|by intros [? ?]].
  destruct (bd_height bd) as [height|]; [|by intros [? ?]]. simpl.
  apply txs_written_is_Some.
Qed.

(** Writing the same payload a second time adds its input and output rows a
    second time. *)
Lemma insert_block_twice clock db_fault bd w w1 :
  (forall n, db_fault n = false) ->
  insert_block clock db_fault bd w = (inr tt, w1) ->
  exists w2, insert_block clock db_fault bd w1 = (inr tt, w2) /\
    length (tx_inputs (committed w2)) =
      (length (tx_inputs (working w)) + 2 * payload_inputs bd)%nat /\
    length (tx_outputs (committed w2)) =
      (length (tx_outputs (working w)) + 2 * payload_outputs bd)%nat.
Proof.
  intros Hnf H1.
  apply insert_block_outcome in H1 as [Hw1 H1].
  destruct (insert_block_ok clock db_fault Hnf bd w1) as [w2 H2].
  { eapply block_written_is_Some. by eexists. }
  exists w2. split; [done|].
  apply insert_block_outcome in H2 as [_ H2].
  apply block_written_counts in H1 as [E1 E1'], H2 as [E2 E2'].
  rewrite E2, E2', Hw1, E1, E1'. lia.
Qed.

(** *** Truncation *)

Lemma select_txids_above_deleted f d :
  select_txids_above f (delete_transactions_above f d) = [].
Proof.
  unfold select_txids_above, delete_transactions_above. simpl.
  induction (transactions d) as [|t ts IH]; [done|].
  rewrite (filter_cons (fun t => ~ _)). case_decide.
  - rewrite filter_cons. by case_decide.
  - done.
Qed.

Lemma filter_all {A} (P : A -> Prop) `{!forall x, Decision (P x)} (l : list A) :
  (forall x, P x) -> filter P l = l.
Proof.
  intros HP. induction l as [|x l IH]; [done|].
  rewrite filter_cons, decide_True by done. by rewrite IH.
Qed.

Lemma truncated_tables f d :
  blocks (truncated f d) = filter (fun b => ~ (b_height b > f)) (blocks d) /\
  transactions (truncated f d) = filter (fun t => ~ (t_block_height t > f)) (transactions d) /\
  tx_inputs (truncated f d) = tx_inputs d /\
  tx_outputs (truncated f d) = tx_outputs d.
Proof.
  pose proof (select_txids_above_deleted f (delete_blocks_above f d)) as E.
  assert (forall g d0, select_txids_above f (set_tx_inputs g d0) = select_txids_above f d0)
    as E' by done.
  unfold truncated, delete_outputs_of_transactions_above,
    delete_inputs_of_transactions_above.
  rewrite E', E. simpl.
  split_and!; try done; apply filter_all; intros x; apply not_elem_of_nil.
Qed.

End StoreFacts.

(** ** The reorganisation check *)

Module ReorgFacts.
Import Payload Store Remote ETL Describe Runs.

Section Reorg.
Variable db_fault : nat -> bool.

(** [handle_reorg] returns whatever happens. *)
Lemma handle_reorg_returns bd w :
  exists b w', handle_reorg db_fault bd w = (inr b, w').
Proof.
  unfold handle_reorg, try_except.
  match goal with |- context [match ?m w with _ => _ end] =>
    destruct (m w) as [[e|b] w1]
  end; by eauto.
Qed.

Hypothesis Hno_fault : forall n, db_fault n = false.

Lemma fetch_ok {A} (q : Db -> A) w :
  fetch db_fault q w = (inr (q (working w)), set_stmts (S (stmts w)) w).
Proof.
  unfold fetch, mbind, M_bind, db_step, read. simpl. by rewrite Hno_fault.
Qed.

(** The loop returns the highest height below [n] whose stored hash is the
    hash looked for, or [-1]; it reads the local store only. *)
Lemma walk_back_run p n w :
  exists k w', walk_back db_fault (Some p) n w = (inr k, w') /\
    working w' = working w /\ committed w' = committed w /\ requests w' = requests w /\
    ((0 <= k < Z.of_nat n /\ select_hash_by_height k (working w) = Some p /\
      forall j, k < j < Z.of_nat n -> select_hash_by_height j (working w) <> Some p) \/
     (k = -1 /\
      forall j, 0 <= j < Z.of_nat n -> select_hash_by_height j (working w) <> Some p)).
Proof.
  revert w. induction n as [|n IH]; intros w.
  - exists (-1), w. split_and!; try done. right. split; [done|]. lia.
  - simpl. unfold mbind, M_bind. rewrite fetch_ok. simpl. case_bool_decide as Hd.
    + destruct Hd as [_ Hd]. eexists _, _. split_and!; try done.
      left. split_and!; [lia|lia|done|lia].
    + destruct (IH (set_stmts (S (stmts w)) w)) as (k & w' & Hrun & ? & ? & ? & Hk).
      exists k, w'. split_and!; try done.
      assert (select_hash_by_height (Z.of_nat n) (working w) <> Some p) as Hn.
      { intros E. apply Hd. rewrite E. split; [by eexists|done]. }
      destruct Hk as [(? & ? & Hj)|[-> Hj]]; [left|right].
      * split_and!; [lia|lia|done|]. intros j ?.
        destruct (decide (j = Z.of_nat n)) as [->|]; [done|]. apply Hj. lia.
      * split; [done|]. intros j ?.
        destruct (decide (j = Z.of_nat n)) as [->|]; [done|]. apply Hj. lia.
Qed.

Lemma find_fork_run p height w :
  exists k w', find_fork db_fault (Some p) height w = (inr k, w') /\
    working w' = working w /\ committed w' = committed w /\ requests w' = requests w /\
    ((0 <= k < height /\ select_hash_by_height k (working w) = Some p /\
      forall j, k < j < height -> select_hash_by_height j (working w) <> Some p) \/
     (k < 0 /\
      forall j, 0 <= j < height -> select_hash_by_height j (working w) <> Some p)).
Proof.
  unfold find_fork. destruct (height - 1 <? 0) eqn:E.
  - apply Z.ltb_lt in E. exists (height - 1), w. split_and!; try done.
    right. split; [lia|]. lia.
  - apply Z.ltb_ge in E.
    destruct (walk_back_run p (Z.to_nat height) w) as (k & w' & Hrun & ? & ? & ? & Hk).
    exists k, w'. split_and!; try done. rewrite Z2Nat.id in Hk by lia.
    destruct Hk as [?|[-> ?]]; [by left|right]. split; [lia|done].
Qed.

(** When no stored height below the block's carries the hash the block gives
    as its predecessor, [handle_reorg] answers [False] and changes nothing. *)
Lemma handle_reorg_unresolved bd p height w :
  bd_height bd = Some height ->
  bd_previousblockhash bd = Some p ->
  (forall j, 0 <= j < height -> select_hash_by_height j (working w) <> Some p) ->
  exists w', handle_reorg db_fault bd w = (inr false, w') /\
    working w' = working w /\ committed w' = committed w.
Proof.
  intros Hh Hp Hnone. unfold handle_reorg, try_except. rewrite Hp, Hh.
  destruct (truthy_str (Some p)); simpl; [|by eauto].
  unfold mbind at 1, M_bind at 1. rewrite fetch_ok.
  destruct (select_height_by_hash p (working w)) as [hrow|]; simpl.
  - unfold mbind at 1, M_bind at 1. simpl. case_bool_decide; simpl; [by eauto|].
    destruct (find_fork_run p height (set_stmts (S (stmts w)) w))
      as (k & w' & Hrun & ? & ? & ? & Hk).
    rewrite ret_bind, (bind_returned _ _ _ _ _ Hrun).
    destruct Hk as [(? & E & _)|[Hk _]].
    { exfalso. eapply Hnone; [|done]. lia. }
    destruct (0 <=? k) eqn:E0; [apply Z.leb_le in E0; lia|]. by eauto.
  - destruct (find_fork_run p height (set_stmts (S (stmts w)) w))
      as (k & w' & Hrun & ? & ? & ? & Hk).
    rewrite !ret_bind, (bind_returned _ _ _ _ _ Hrun).
    destruct Hk as [(? & E & _)|[Hk _]].
    { exfalso. eapply Hnone; [|done]. lia. }
    destruct (0 <=? k) eqn:E0; [apply Z.leb_le in E0; lia|]. by eauto.
Qed.

(** The statements of the truncation, run without a failure. *)
Lemma remove_blocks_after_run f w :
  exists w', remove_blocks_after db_fault f w = (inr tt, w') /\
    committed w' = truncated f (working w) /\ working w' = truncated f (working w).
Proof.
  unfold remove_blocks_after, mbind, M_bind.
  rewrite !(execute_ok db_fault Hno_fault), (commit_ok db_fault Hno_fault). by eauto.
Qed.

(** When the search finds a height, the store is truncated after it. *)
Lemma handle_reorg_resolved bd p height k w :
  bd_height bd = Some height ->
  bd_previousblockhash bd = Some p ->
  p <> "" ->
  select_height_by_hash p (working w) <> Some (height - 1) ->
  0 <= k < height ->
  select_hash_by_height k (working w) = Some p ->
  (forall j, k < j < height -> select_hash_by_height j (working w) <> Some p) ->
  exists w', handle_reorg db_fault bd w = (inr true, w') /\
    committed w' = truncated k (working w) /\ working w' = truncated k (working w).
Proof.
  intros Hh Hp Hne Hdiv Hk Hmatch Hhigh. unfold handle_reorg, try_except. rewrite Hp, Hh.
  assert (truthy_str (Some p) = true) as ->.
  { simpl. by destruct (String.eqb_spec p ""). }
  cbn [negb]. rewrite (bind_returned _ _ _ _ _ (fetch_ok _ _)).
  set (w0 := set_stmts (S (stmts w)) w).
  destruct (find_fork_run p height w0)
    as (k' & w1 & Hrun & Hw1 & Hc1 & _ & Hk').
  assert (k' = k) as ->.
  { destruct Hk' as [(? & Hm' & Hhigh')|[_ Hnone]].
    - destruct (Z.lt_trichotomy k' k) as [?|[?|?]]; [|done|].
      + exfalso. apply (Hhigh' k); [lia|done].
      + exfalso. apply (Hhigh k'); [lia|done].
    - exfalso. apply (Hnone k); [lia|done]. }
  destruct (remove_blocks_after_run k w1) as (w2 & Hrm & Hc2 & Hw2).
  assert ((find_fork db_fault (Some p) height ≫= fun fork_height =>
             if 0 <=? fork_height
             then remove_blocks_after db_fault fork_height ;; mret true
             else mret false) w0 = (inr true, w2)) as Hrest.
  { rewrite (bind_returned _ _ _ _ _ Hrun).
    destruct (0 <=? k) eqn:E; [|apply Z.leb_gt in E; lia].
    by rewrite (bind_returned _ _ _ _ _ Hrm). }
  simpl get. unfold getitem.
  destruct (select_height_by_hash p (working w)) as [hrow|].
  - rewrite bind_assoc, !ret_bind. rewrite bool_decide_false by congruence.
    rewrite ret_bind, Hrest. exists w2. by rewrite Hc2, Hw2, Hw1.
  - rewrite !ret_bind, Hrest. exists w2. by rewrite Hc2, Hw2, Hw1.
Qed.

End Reorg.
End ReorgFacts.

(** ** The synchronisation loop *)

Module SyncFacts.
Import Payload Store Remote ETL Describe Runs ReorgFacts.

Lemma keeps_requested_heights {A} (m : M A) :
  keeps requests m -> keeps (fun w => requested_heights (requests w)) m.
Proof. intros H w r w' E. by rewrite (H _ _ _ E). Qed.

Lemma requested_heights_app l1 l2 :
  requested_heights (l1 ++ l2) = requested_heights l1 ++ requested_heights l2.
Proof. apply omap_app. Qed.

Section Sync.
Variable rpc : Rpc.
Variable clock : nat -> string.
Variable db_fault : nat -> bool.

Lemma get_db_latest_height_run w :
  get_db_latest_height db_fault w =
  (inr (latest_height_answer db_fault w), set_stmts (S (stmts w)) w).
Proof.
  unfold get_db_latest_height, latest_height_answer, try_except, mbind, M_bind, db_step.
  simpl. by destruct (db_fault (stmts w)).
Qed.

(** One round of the loop never raises and asks for exactly its height. *)
Lemma sync_height_run height w :
  exists w', sync_height rpc clock db_fault height w = (inr tt, w') /\
    requested_heights (requests w') = requested_heights (requests w) ++ [height].
Proof.
  unfold sync_height, try_except.
  match goal with |- context [match ?m w with _ => _ end] =>
    assert (forall r w1, m w = (r, w1) ->
      requested_heights (requests w1) = requested_heights (requests w) ++ [height]) as Hreq;
    [|destruct (m w) as [[e|[]] w1] eqn:E; eexists; (split; [done|by eapply Hreq])]
  end.
  intros r w1 H.
  apply bind_inv in H as [(e & H & _)|(block_hash & w0 & H & Hrest)].
  - unfold rpc_call in H. destruct (getblockhash rpc height); simplify_eq; simpl.
    by rewrite requested_heights_app.
  - assert (requested_heights (requests w0) = requested_heights (requests w) ++ [height]) as <-.
    { unfold rpc_call in H. destruct (getblockhash rpc height); simplify_eq; simpl.
      by rewrite requested_heights_app. }
    revert Hrest. apply (keeps_bind (fun w => requested_heights (requests w))).
    { intros w2 r2 w3 H2. unfold fetch_block, rpc_call in H2.
      destruct (getblock rpc block_hash 2); simplify_eq; simpl;
        rewrite requested_heights_app; simpl; by rewrite app_nil_r. }
    intros bd. apply keeps_requested_heights. apply keeps_bind.
    + apply handle_reorg_requests.
    + intros _. apply insert_block_requests.
Qed.

Lemma for_each_sync_height_run heights w :
  exists w', for_each heights (sync_height rpc clock db_fault) w = (inr tt, w') /\
    requested_heights (requests w') = requested_heights (requests w) ++ heights.
Proof.
  revert w. induction heights as [|h heights IH]; intros w; simpl.
  - eexists. split; [done|]. by rewrite app_nil_r.
  - destruct (sync_height_run h w) as (w1 & H1 & E1).
    destruct (IH w1) as (w2 & H2 & E2).
    exists w2. unfold mbind, M_bind. rewrite H1. split; [done|].
    rewrite E2, E1. by rewrite <- app_assoc.
Qed.

(** A round that starts without an open transaction ends without one. *)
Lemma sync_height_no_open_transaction height w r w' :
  working w = committed w ->
  sync_height rpc clock db_fault height w = (r, w') ->
  working w' = committed w'.
Proof.
  intros Hclean H.
  assert (forall A req (o : option A) w0 r0 w1,
            rpc_call req o w0 = (r0, w1) ->
            working w1 = working w0 /\ committed w1 = committed w0) as Hrpc.
  { intros A req o w0 r0 w1 E. split.
    - by apply (rpc_call_working req o w0 r0 w1).
    - by apply (rpc_call_committed req o w0 r0 w1). }
  apply try_except_inv in H as [([] & H & _)|(e & w1 & H & [= _ <-])].
  - apply bind_inv in H as [(e & _ & [=])|(block_hash & w1 & _ & H)].
    apply bind_inv in H as [(e & _ & [=])|(bd & w2 & _ & H)].
    apply bind_inv in H as [(e & _ & [=])|(b & w3 & _ & H)].
    by apply insert_block_outcome in H as [? _].
  - apply bind_inv in H as [(e' & H & _)|(block_hash & w2 & H1 & H)].
    { apply Hrpc in H as [-> ->]. done. }
    apply Hrpc in H1 as [E1 E2].
    apply bind_inv in H as [(e' & H & _)|(bd & w3 & H2 & H)].
    { apply Hrpc in H as [-> ->]. congruence. }
    apply bind_inv in H as [(e' & H & _)|(b & w4 & _ & H)].
    { destruct (handle_reorg_returns db_fault bd w3) as (b & w4 & E). congruence. }
    by apply insert_block_outcome in H as [? _].
Qed.

(** The heights [sync_blocks] asks for, in order, once the tip is known. *)
Lemma sync_blocks_run start_height max_blocks w tip :
  getblockchaininfo rpc = Some tip ->
  let current_height :=
    if truthy_int start_height then get start_height 0
    else latest_height_answer db_fault w + 1 in
  let end_height :=
    if truthy_int max_blocks
    then Z.min (current_height + get max_blocks 0 - 1) tip else tip in
  exists w', sync_blocks rpc clock db_fault start_height max_blocks w = (inr tt, w') /\
    requested_heights (requests w') =
    requested_heights (requests w) ++ seqZ current_height (end_height + 1 - current_height).
Proof.
  intros Htip current_height end_height.
  unfold sync_blocks, get_latest_block_height, mbind at 1, M_bind at 1, rpc_call.
  rewrite Htip.
  set (w0 := set_requests (requests w ++ [GetBlockchainInfo]) w).
  assert (exists w1,
    (if truthy_int start_height then mret (get start_height 0)
     else (h ← get_db_latest_height db_fault; mret (h + 1))) w0 = (inr current_height, w1)
    /\ requests w1 = requests w0) as (w1 & Hcur & Hreq1).
  { subst current_height. destruct (truthy_int start_height).
    - by eexists.
    - unfold mbind, M_bind. rewrite get_db_latest_height_run. by eexists. }
  unfold mbind at 1, M_bind at 1. rewrite Hcur.
  unfold mbind, M_bind, get_db_connection, rollback, try_finally, conn_close.
  fold end_height.
  destruct (for_each_sync_height_run (seqZ current_height (end_height + 1 - current_height))
              (set_working (committed w1) w1)) as (w2 & H2 & E2).
  unfold mbind, M_bind in H2. rewrite H2. eexists. split; [done|].
  simpl. rewrite E2. simpl. rewrite Hreq1. subst w0. simpl.
  rewrite requested_heights_app. simpl. by rewrite app_nil_r.
Qed.

End Sync.
End SyncFacts.

(** ** The auditor *)

Module AuditFacts.
Import Payload Store Remote ReorgCheck.

(** *** Dictionaries built from lists *)

Lemma dict_of_foldl {A V} (key : A -> Z) (val : A -> V) (l : list A) (m : gmap Z V) k :
  foldl (fun m x => <[key x := val x]> m) m l !! k =
  match last (filter (fun x => key x = k) l) with
  | Some x => Some (val x)
  | None => m !! k
  end.
Proof.
  revert m. induction l as [|x l IH]; intros m; [done|]. simpl. rewrite IH.
  rewrite filter_cons. case_decide as Hk.
  - destruct (filter (fun x => key x = k) l) as [|y l'] eqn:E; simpl.
    + by rewrite Hk, lookup_insert_eq.
    + destruct (last (y :: l')) eqn:E2; [done|]. by apply last_None in E2.
  - by rewrite lookup_insert_ne.
Qed.

Lemma dict_of_lookup {A V} (key : A -> Z) (val : A -> V) (l : list A) k :
  dict_of key val l !! k = val <$> last (filter (fun x => key x = k) l).
Proof.
  unfold dict_of. rewrite dict_of_foldl.
  by destruct (last (filter (fun x => key x = k) l)).
Qed.

Lemma dict_of_lookup_None {A V} (key : A -> Z) (val : A -> V) (l : list A) k :
  dict_of key val l !! k = None <-> k ∉ key <$> l.
Proof.
  rewrite dict_of_lookup, fmap_None, last_None. split.
  - intros E [x [-> Hx]]%list_elem_of_fmap.
    assert (x ∈ filter (fun y => key y = key x) l) as Hin by by apply list_elem_of_filter.
    rewrite E in Hin. by apply elem_of_nil in Hin.
  - intros Hk. destruct (filter (fun x => key x = k) l) as [|x l'] eqn:E; [done|].
    assert (x ∈ filter (fun x => key x = k) l) as [Hx Hin]%list_elem_of_filter
      by (rewrite E; left).
    destruct Hk. apply list_elem_of_fmap. eauto.
Qed.

(** With distinct keys at most one element carries a given key. *)
Lemma filter_key_NoDup {A} (key : A -> Z) (l : list A) k :
  NoDup (key <$> l) ->
  filter (fun x => key x = k) l = [] \/ exists x, filter (fun x => key x = k) l = [x].
Proof.
  induction l as [|y l IH]; intros Hnd; [by left|].
  rewrite fmap_cons, NoDup_cons in Hnd. destruct Hnd as [Hy Hnd].
  rewrite filter_cons. case_decide as Hk; [|by apply IH].
  right. exists y. f_equal.
  destruct (filter (fun x => key x = k) l) as [|z l'] eqn:E; [done|].
  assert (z ∈ filter (fun x => key x = k) l) as [Hz Hin]%list_elem_of_filter
    by (rewrite E; left).
  destruct Hy. apply list_elem_of_fmap. exists z. split; [congruence|done].
Qed.

Lemma filter_key_Permutation {A} (key : A -> Z) (l l' : list A) k :
  NoDup (key <$> l) -> l ≡ₚ l' ->
  filter (fun x => key x = k) l' = filter (fun x => key x = k) l.
Proof.
  intros Hnd Hp.
  assert (filter (fun x => key x = k) l' ≡ₚ filter (fun x => key x = k) l) as Hf
    by by rewrite Hp.
  destruct (filter_key_NoDup key l k Hnd) as [E|[x E]]; rewrite E in Hf |- *.
  - by apply Permutation_nil_r.
  - by apply Permutation_singleton_r.
Qed.

Lemma filter_fmap_key {A B} (f : A -> B) (key : B -> Z) (l : list A) k :
  filter (fun y => key y = k) (f <$> l) = f <$> filter (fun x => key (f x) = k) l.
Proof.
  induction l as [|x l IH]; [done|].
  rewrite fmap_cons, !filter_cons. case_decide; [by rewrite fmap_cons, IH|done].
Qed.

(** *** The two dictionaries of the auditor *)

Lemma select_blocks_from_heights start d k :
  k ∈ db_height <$> select_blocks_from start d <->
  k ∈ b_height <$> blocks d /\ k >= start.
Proof.
  unfold select_blocks_from. rewrite <- list_fmap_compose.
  rewrite merge_sort_Permutation, !list_elem_of_fmap. split.
  - intros (r & -> & [Hr Hin]%list_elem_of_filter). simpl. eauto.
  - intros [(r & -> & Hin) Hk]. exists r. split; [done|].
    by apply list_elem_of_filter.
Qed.

Lemma db_blocks_lookup_None start d k :
  dict_of db_height id (select_blocks_from start d) !! k = None <->
  ~ (k ∈ b_height <$> blocks d /\ k >= start).
Proof. by rewrite dict_of_lookup_None, select_blocks_from_heights. Qed.

Lemma db_blocks_lookup start d k :
  NoDup (b_height <$> blocks d) -> k >= start ->
  dict_of db_height id (select_blocks_from start d) !! k =
  db_block_of_row <$> head (filter (fun b => b_height b = k) (blocks d)).
Proof.
  intros Hnd Hk. rewrite dict_of_lookup. unfold select_blocks_from.
  rewrite (filter_fmap_key db_block_of_row db_height). simpl.
  rewrite option_fmap_id.
  set (kept := filter (fun b => b_height b >= start) (blocks d)).
  assert (NoDup (b_height <$> kept)) as Hnd'.
  { eapply sublist_NoDup; [exact Hnd|apply fmap_sublist, sublist_filter]. }
  rewrite (filter_key_Permutation b_height kept (merge_sort height_le kept) k Hnd')
    by by rewrite merge_sort_Permutation.
  assert (filter (fun b => b_height b = k) kept =
          filter (fun b => b_height b = k) (blocks d)) as ->.
  { subst kept. rewrite list_filter_filter. apply list_filter_iff. intros b. lia. }
  destruct (filter_key_NoDup b_height (blocks d) k Hnd) as [->|[x ->]]; done.
Qed.

Section Checker.
Variable rpc : Rpc.

Lemma fetch_bitcoind_blocks_foldl heights (m : gmap Z BtcBlock) k :
  foldl (fun m height =>
           match fetch_bitcoind_block rpc height with
           | Some b => <[height := b]> m
           | None => m
           end) m heights !! k =
  match (if decide (k ∈ heights) then fetch_bitcoind_block rpc k else None) with
  | Some b => Some b
  | None => m !! k
  end.
Proof.
  revert m. induction heights as [|h heights IH]; intros m; cbn [foldl].
  - by rewrite decide_False by apply not_elem_of_nil.
  - rewrite IH.
    assert (match fetch_bitcoind_block rpc h with
            | Some b => <[h := b]> m
            | None => m
            end !! k =
            if decide (k = h)
            then match fetch_bitcoind_block rpc k with
                 | Some b => Some b
                 | None => m !! k
                 end
            else m !! k) as ->.
    { destruct (decide (k = h)) as [->|Hk];
        destruct (fetch_bitcoind_block rpc h); by rewrite ?lookup_insert_eq, ?lookup_insert_ne. }
    destruct (decide (k = h)) as [->|Hne].
    + rewrite (decide_True (P := h ∈ h :: heights)) by by left.
      by destruct (decide (h ∈ heights)), (fetch_bitcoind_block rpc h).
    + destruct (decide (k ∈ heights)) as [Hin|Hin].
      * by rewrite (decide_True (P := k ∈ h :: heights)) by by right.
      * by rewrite (decide_False (P := k ∈ h :: heights)) by (rewrite elem_of_cons; tauto).
Qed.

Lemma fetch_bitcoind_blocks_lookup heights k :
  fetch_bitcoind_blocks rpc heights !! k =
  if decide (k ∈ heights) then fetch_bitcoind_block rpc k else None.
Proof.
  unfold fetch_bitcoind_blocks. rewrite fetch_bitcoind_blocks_foldl.
  by destruct (if decide (k ∈ heights) then _ else _).
Qed.

Lemma fetch_bitcoind_blocks_size_foldl heights (m : gmap Z BtcBlock) :
  NoDup heights ->
  Forall (fun k => is_Some (fetch_bitcoind_block rpc k)) heights ->
  Forall (fun k => m !! k = None) heights ->
  size (foldl (fun m height =>
                 match fetch_bitcoind_block rpc height with
                 | Some b => <[height := b]> m
                 | None => m
                 end) m heights) = (size m + length heights)%nat.
Proof.
  revert m. induction heights as [|h heights IH]; intros m Hnd Hall Hm; simpl; [lia|].
  apply NoDup_cons in Hnd as [Hh Hnd].
  apply Forall_cons in Hall as [[b Hb] Hall].
  apply Forall_cons in Hm as [Hmh Hm].
  rewrite Hb, IH; [|done|done|].
  - rewrite map_size_insert_None by done. lia.
  - eapply Forall_impl; [apply Forall_and; split; [exact Hm|]|].
    + apply Forall_forall. intros k Hk. exact Hk.
    + simpl. intros k [Hk Hin]. rewrite lookup_insert_ne; [done|]. by intros ->.
Qed.

Lemma fetch_bitcoind_blocks_size heights :
  NoDup heights ->
  Forall (fun k => is_Some (fetch_bitcoind_block rpc k)) heights ->
  size (fetch_bitcoind_blocks rpc heights) = length heights.
Proof.
  intros Hnd Hall. unfold fetch_bitcoind_blocks.
  rewrite fetch_bitcoind_blocks_size_foldl; [by rewrite map_size_empty|done|done|].
  apply Forall_forall. intros k _. apply lookup_empty.
Qed.

(** The comparison loop appends, height after height, what [compare_height]
    finds. *)
Lemma compare_blocks_foldl start db bt heights acc :
  foldl (fun acc height =>
           let new := compare_height start db bt height in
           (acc.1 ++ new.1, acc.2 ++ new.2)) acc heights =
  (acc.1 ++ mjoin ((fun h => (compare_height start db bt h).1) <$> heights),
   acc.2 ++ mjoin ((fun h => (compare_height start db bt h).2) <$> heights)).
Proof.
  revert acc. induction heights as [|h heights IH]; intros [a1 a2]; simpl.
  - by rewrite !app_nil_r.
  - rewrite IH. simpl. by rewrite <- !app_assoc.
Qed.

Lemma compare_blocks_concat start db bt heights :
  compare_blocks start db bt heights =
  (mjoin ((fun h => (compare_height start db bt h).1) <$> heights),
   mjoin ((fun h => (compare_height start db bt h).2) <$> heights)).
Proof. unfold compare_blocks. by rewrite compare_blocks_foldl. Qed.

End Checker.

(** *** The greatest stored height *)

Lemma foldl_max_spec (k : Z) (ks : list Z) :
  foldl Z.max k ks ∈ k :: ks /\ Forall (fun j => j <= foldl Z.max k ks) (k :: ks).
Proof.
  revert k. induction ks as [|j ks IH]; intros k; simpl.
  - split; [by left|]. by repeat constructor.
  - destruct (IH (Z.max k j)) as [Hin Hall].
    apply Forall_cons in Hall as [Hm Hall]. split.
    + apply elem_of_cons in Hin as [Hin|Hin]; [|by do 2 right].
      rewrite Hin. destruct (Z.max_spec k j) as [[_ ->]|[_ ->]]; [right|]; by left.
    + constructor; [lia|]. constructor; [lia|done].
Qed.

Lemma select_max_height_Some d m :
  m ∈ b_height <$> blocks d ->
  Forall (fun j => j <= m) (b_height <$> blocks d) ->
  select_max_height d = Some m.
Proof.
  unfold select_max_height. intros Hin Hall.
  destruct (b_height <$> blocks d) as [|k ks]; [by apply elem_of_nil in Hin|].
  f_equal. destruct (foldl_max_spec k ks) as [Hin' Hall'].
  rewrite Forall_forall in Hall, Hall'.
  apply Hall in Hin'. apply Hall' in Hin. by apply Z.le_antisymm.
Qed.

Lemma select_max_height_inv d m :
  select_max_height d = Some m ->
  m ∈ b_height <$> blocks d /\ Forall (fun j => j <= m) (b_height <$> blocks d).
Proof.
  unfold select_max_height.
  destruct (b_height <$> blocks d) as [|k ks]; [done|]. intros [= <-].
  apply foldl_max_spec.
Qed.

Lemma seqZ_10 s :
  seqZ s 10 = [s; s + 1; s + 2; s + 3; s + 4; s + 5; s + 6; s + 7; s + 8; s + 9].
Proof. unfold seqZ. simpl. repeat (apply (f_equal2 (@cons Z)); [lia|]). done. Qed.

Section Report.
Variable rpc : Rpc.

Lemma compare_height_missing start db bt height k :
  k ∈ (compare_height start db bt height).2 <-> k = height /\ db !! height = None.
Proof.
  unfold compare_height. destruct (db !! height) as [dbk|]; simpl.
  - split; [|by intros [_ ?]]. destruct (bt !! height); simpl; by intros ?%elem_of_nil.
  - rewrite list_elem_of_singleton. split; [by intros ->|by intros [-> _]].
Qed.

Lemma compare_height_found start db bt height i :
  i ∈ (compare_height start db bt height).1 ->
  inc_height i = height /\ is_Some (db !! height).
Proof.
  unfold compare_height. destruct (db !! height) as [dbk|]; simpl;
    [|by intros []%elem_of_nil].
  destruct (bt !! height) as [btk|]; simpl; [|by intros []%elem_of_nil].
  rewrite elem_of_app. intros [Hi|Hi].
  - case_bool_decide; [|by apply elem_of_nil in Hi].
    apply list_elem_of_singleton in Hi as ->. eauto.
  - case_bool_decide; [|by apply elem_of_nil in Hi].
    destruct (db !! (height - 1)); [|by apply elem_of_nil in Hi].
    destruct (bt !! (height - 1)); [|by apply elem_of_nil in Hi].
    case_bool_decide; [|by apply elem_of_nil in Hi].
    apply list_elem_of_singleton in Hi as ->. eauto.
Qed.

(** The entries of the two dictionaries for a height of a window in which
    every height is stored once and can be fetched. *)
Lemma window_entry d s len k :
  b_height <$> blocks d ≡ₚ seqZ s len ->
  Forall (fun k => is_Some (fetch_bitcoind_block rpc k)) (seqZ s len) ->
  s <= k < s + len ->
  exists r btk,
    dict_of db_height id (select_blocks_from s d) !! k = Some (db_block_of_row r) /\
    r ∈ blocks d /\ b_height r = k /\
    select_hash_by_height k d = Some (b_hash r) /\
    fetch_bitcoind_blocks rpc (seqZ s len) !! k = Some btk /\
    fetch_bitcoind_block rpc k = Some btk /\
    getblockhash rpc k = Some (btc_hash btk).
Proof.
  intros Hperm Hfetch Hk.
  assert (NoDup (b_height <$> blocks d)) as Hnd by (rewrite Hperm; apply NoDup_seqZ).
  assert (k ∈ seqZ s len) as Hin by (apply elem_of_seqZ; lia).
  rewrite db_blocks_lookup by (done || lia). unfold select_hash_by_height.
  destruct (head (filter (fun b => b_height b = k) (blocks d))) as [r|] eqn:Er.
  2:{ apply head_None in Er. rewrite <- Hperm in Hin.
      apply list_elem_of_fmap in Hin as (r & -> & Hr).
      assert (r ∈ filter (fun b => b_height b = b_height r) (blocks d)) as Hf
        by by apply list_elem_of_filter.
      rewrite Er in Hf. by apply elem_of_nil in Hf. }
  assert (r ∈ filter (fun b => b_height b = k) (blocks d)) as [Hrk Hr]%list_elem_of_filter.
  { destruct (filter (fun b => b_height b = k) (blocks d)); [done|].
    injection Er as ->. by left. }
  rewrite Forall_forall in Hfetch. destruct (Hfetch k Hin) as [btk Hbtk].
  exists r, btk. rewrite fetch_bitcoind_blocks_lookup, decide_True by done.
  split_and!; try done.
  unfold fetch_bitcoind_block in Hbtk.
  destruct (getblockhash rpc k) as [hash|]; [|done]. simpl in Hbtk.
  destruct (getblock rpc hash 1); [|done]. by injection Hbtk as <-.
Qed.

End Report.

End AuditFacts.


(** ** What a round of the loop leaves in the store *)

Module RoundFacts.
Import Payload Store Remote ETL Describe Observe Runs StoreFacts ReorgFacts SyncFacts.

(** *** More on the runs of the primitive actions *)

Lemma db_step_ticks f : keeps ticks (db_step f).
Proof. keeps_prim. Qed.
Lemma apply_stmt_ticks s : keeps ticks (apply_stmt s).
Proof. keeps_prim. Qed.
Lemma read_ticks {A} (q : Db -> A) : keeps ticks (read q).
Proof. keeps_prim. Qed.
Lemma rollback_ticks : keeps ticks rollback.
Proof. keeps_prim. Qed.
Lemma commit_txn_ticks : keeps ticks commit_txn.
Proof. keeps_prim. Qed.

#[export] Hint Resolve db_step_ticks apply_stmt_ticks read_ticks rollback_ticks
  commit_txn_ticks : keeps.

Lemma fetch_inv {A} db_fault (q : Db -> A) w x w' :
  fetch db_fault q w = (inr x, w') ->
  x = q (working w) /\ w' = set_stmts (S (stmts w)) w.
Proof.
  unfold fetch, mbind, M_bind, db_step, read. simpl.
  destruct (db_fault (stmts w)); [done|]. by intros [= <- <-].
Qed.

Lemma fetch_ok_at {A} db_fault (q : Db -> A) w :
  db_fault (stmts w) = false ->
  fetch db_fault q w = (inr (q (working w)), set_stmts (S (stmts w)) w).
Proof.
  intros Hnf. unfold fetch, mbind, M_bind, db_step, read. simpl. by rewrite Hnf.
Qed.

Lemma commit_inv db_fault w w' :
  commit db_fault w = (inr tt, w') ->
  w' = set_committed (working w) (set_stmts (S (stmts w)) w).
Proof.
  unfold commit, mbind, M_bind, db_step, commit_txn. simpl.
  destruct (db_fault (stmts w)); [done|]. by intros [= <-].
Qed.

Section Reorg.
Variable db_fault : nat -> bool.

Lemma walk_back_ticks p n : keeps ticks (walk_back db_fault p n).
Proof. induction n; simpl; unfold fetch; keeps_auto. Qed.

Lemma handle_reorg_ticks bd : keeps ticks (handle_reorg db_fault bd).
Proof.
  unfold handle_reorg, find_fork, remove_blocks_after, commit, execute, fetch.
  pose proof walk_back_ticks. keeps_auto.
Qed.

Lemma walk_back_committed p n : keeps committed (walk_back db_fault p n).
Proof. induction n; simpl; unfold fetch; keeps_auto. Qed.

Lemma walk_back_inv prev n w k w' :
  walk_back db_fault prev n w = (inr k, w') ->
  working w' = working w /\
  (k = -1 \/ (0 <= k < Z.of_nat n /\ is_Some prev /\
              select_hash_by_height k (working w) = prev)).
Proof.
  revert w. induction n as [|n IH]; intros w H; simpl in H.
  - injection H as <- <-. split; [done|by left].
  - apply bind_inv in H as [(e & _ & [=])|(block & w1 & Hf & H)].
    apply fetch_inv in Hf as [-> ->]. case_bool_decide as Hd.
    + injection H as <- <-. split; [done|]. right. destruct Hd as [Hs Hd].
      split_and!; [lia|lia|by rewrite <- Hd|done].
    + apply IH in H as [Hw Hk]. split; [done|].
      destruct Hk as [->|(? & ? & ?)]; [by left|right]. split_and!; [lia|lia|done|done].
Qed.

Lemma find_fork_inv prev height w k w' :
  find_fork db_fault prev height w = (inr k, w') ->
  working w' = working w /\
  (k < 0 \/ (0 <= k < height /\ is_Some prev /\
             select_hash_by_height k (working w) = prev)).
Proof.
  unfold find_fork. destruct (height - 1 <? 0) eqn:E.
  - apply Z.ltb_lt in E. intros [= <- <-]. split; [done|]. left. lia.
  - apply Z.ltb_ge in E. intros [Hw Hk]%walk_back_inv. split; [done|].
    destruct Hk as [->|(? & ? & ?)]; [left; lia|right]. split_and!; [lia|lia|done|done].
Qed.

Lemma remove_blocks_after_inv f w w' :
  remove_blocks_after db_fault f w = (inr tt, w') ->
  committed w' = truncated f (working w) /\ working w' = truncated f (working w).
Proof.
  unfold remove_blocks_after. intros H.
  apply bind_inv in H as [(e & _ & [=])|([] & w1 & H1 & H)].
  apply bind_inv in H as [(e & _ & [=])|([] & w2 & H2 & H)].
  apply bind_inv in H as [(e & _ & [=])|([] & w3 & H3 & H)].
  apply bind_inv in H as [(e & _ & [=])|([] & w4 & H4 & H)].
  apply execute_inv in H1 as ->, H2 as ->, H3 as ->, H4 as ->.
  apply commit_inv in H as ->. done.
Qed.

Lemma raises_keep_committed_bind {A B} (m : M A) (f : A -> M B) :
  keeps committed m -> (forall x, raises_keep_committed (f x)) ->
  raises_keep_committed (m ≫= f).
Proof.
  intros Hm Hf w e w' H. apply bind_inv in H as [(e' & H & _)|(x & w1 & H1 & H2)].
  - by eapply Hm.
  - apply Hf in H2. apply Hm in H1. congruence.
Qed.

Lemma keeps_raises_keep_committed {A} (m : M A) :
  keeps committed m -> raises_keep_committed m.
Proof. intros Hm w e w' H. by eapply Hm. Qed.

Lemma remove_blocks_after_raises f :
  raises_keep_committed (remove_blocks_after db_fault f).
Proof.
  unfold remove_blocks_after.
  repeat (apply raises_keep_committed_bind; [apply execute_committed|intros _]).
  intros w e w'. unfold commit, mbind, M_bind, db_step, commit_txn. simpl.
  destruct (db_fault (stmts w)); [|done]. by intros [= _ <-].
Qed.

Lemma find_fork_committed prev height : keeps committed (find_fork db_fault prev height).
Proof. unfold find_fork. case_match; [apply keeps_ret|apply walk_back_committed]. Qed.

(** What [handle_reorg] leaves behind: the truncation after a height, made
    and committed, when it answers [True]; the committed data it found when
    it answers [False], with the view of the connection as it was or rolled
    back. *)
Lemma handle_reorg_outcome bd w b w' :
  handle_reorg db_fault bd w = (inr b, w') ->
  if b
  then exists height k,
         bd_height bd = Some height /\ 0 <= k < height /\
         select_hash_by_height k (working w) = bd_previousblockhash bd /\
         committed w' = truncated k (working w) /\
         working w' = committed w'
  else committed w' = committed w /\
       (working w' = working w \/ working w' = committed w').
Proof.
  intros H. apply try_except_inv in H as [(x & H & [= <-])|(e & w1 & Hbody & Hh)].
  - (* the body returned *)
    destruct (negb (truthy_str (bd_previousblockhash bd))).
    { injection H as <- <-. by eauto. }
    apply bind_inv in H as [(e & _ & [=])|(prev_block & w1 & Hf & H)].
    apply fetch_inv in Hf as [-> ->].
    apply bind_inv in H as [(e & _ & [=])|(continuous & w2 & Hc & H)].
    assert (w2 = set_stmts (S (stmts w)) w) as ->.
    { destruct (select_height_by_hash _ _); [|by injection Hc as _ <-].
      apply bind_inv in Hc as [(e & _ & [=])|(h & w3 & Hh & Hc)].
      destruct (bd_height bd); [|done]. injection Hh as _ <-. by injection Hc as _ <-. }
    destruct continuous. { injection H as <- <-. by eauto. }
    apply bind_inv in H as [(e & _ & [=])|(height & w3 & Hh & H)].
    destruct (bd_height bd) as [height'|] eqn:Eh; [|done]. injection Hh as -> <-.
    apply bind_inv in H as [(e & _ & [=])|(k & w4 & Hfork & H)].
    pose proof (find_fork_committed _ _ _ _ _ Hfork) as Hc4.
    apply find_fork_inv in Hfork as [Hw4 Hk].
    destruct (0 <=? k) eqn:E0.
    + apply Z.leb_le in E0.
      apply bind_inv in H as [(e & _ & [=])|([] & w5 & Hrm & H)].
      injection H as <- <-.
      apply remove_blocks_after_inv in Hrm as [Hc5 Hw5].
      destruct Hk as [?|(? & _ & Hm)]; [lia|].
      exists height, k. rewrite Hc5, Hw5, Hw4. by simpl in *.
    + injection H as <- <-. rewrite Hc4, Hw4. by eauto.
  - (* the body raised and the handler rolled back *)
    assert (committed w1 = committed w) as Hc.
    { revert Hbody. generalize e w1. change (raises_keep_committed ?m) with
        (forall w0 e0 w2, m w0 = (inl e0, w2) -> committed w2 = committed w0).
      intros e0 w0 Hb.
      assert (raises_keep_committed
        (let prev_hash := bd_previousblockhash bd in
         if negb (truthy_str prev_hash) then mret false else
         prev_block ← fetch db_fault (select_height_by_hash (get prev_hash ""));
         continuous ← match prev_block with
                      | Some h =>
                          height ← getitem "height" (bd_height bd);
                          mret (bool_decide (h = height - 1))
                      | None => mret false
                      end;
         if (continuous : bool) then mret false else
         height ← getitem "height" (bd_height bd);
         fork_height ← find_fork db_fault prev_hash height;
         if 0 <=? fork_height then
           remove_blocks_after db_fault fork_height ;; mret true
         else mret false)) as Hr; [|by eapply Hr].
      cbv zeta. case_match; [apply keeps_raises_keep_committed, keeps_ret|].
      apply raises_keep_committed_bind; [unfold fetch; keeps_auto|intros prev_block].
      apply raises_keep_committed_bind; [keeps_auto|intros continuous].
      case_match; [apply keeps_raises_keep_committed, keeps_ret|].
      apply raises_keep_committed_bind; [keeps_auto|intros height].
      apply raises_keep_committed_bind; [apply find_fork_committed|intros k].
      case_match; [|apply keeps_raises_keep_committed, keeps_ret].
      intros w2 e2 w3 H2.
      apply bind_inv in H2 as [(e' & H2 & _)|([] & w4 & _ & [=])].
      by apply remove_blocks_after_raises in H2. }
    apply bind_inv in Hh as [(e' & [=] & _)|([] & w2 & Hrb & Hh)].
    injection Hrb as <-. injection Hh as <- <-. simpl. by eauto.
Qed.

End Reorg.

(** *** The tables after a block has been written *)

Lemma tx_written_tables clock tick tx hash height time d d' :
  tx_written clock tick tx hash height time d = Some d' ->
  exists txid,
    tx_txid tx = Some txid /\
    blocks d' = blocks d /\
    transactions d' =
      filter (fun t => t_txid t <> txid) (transactions d) ++
      [transaction_row tx txid hash height time (clock tick)] /\
    tx_inputs d' = tx_inputs d ++ ((fun v => input_row v txid) <$> get (tx_vin tx) []) /\
    tx_outputs d' = tx_outputs d ++ ((fun v => output_row v txid) <$> get (tx_vout tx) []).
Proof.
  unfold tx_written. destruct (tx_txid tx) as [txid|]; [|done]. simpl. intros [= <-].
  exists txid. split; [done|].
  destruct (outputs_written_tables txid (get (tx_vout tx) [])
    (inputs_written txid (get (tx_vin tx) [])
       (insert_or_replace_transaction
          (transaction_row tx txid hash height time (clock tick)) d)))
    as (-> & -> & -> & ->).
  destruct (inputs_written_tables txid (get (tx_vin tx) [])
       (insert_or_replace_transaction
          (transaction_row tx txid hash height time (clock tick)) d))
    as (-> & -> & -> & ->).
  done.
Qed.

Lemma filter_none {A} (P : A -> Prop) `{!forall x, Decision (P x)} (l : list A) :
  Forall (fun x => ~ P x) l -> filter P l = [].
Proof.
  induction 1 as [|x l Hx _ IH]; [done|]. by rewrite filter_cons, decide_False.
Qed.

Lemma upsert_NoDup {A} (key : A -> string) (l : list A) (r : A) :
  NoDup (key <$> l) ->
  NoDup (key <$> (filter (fun t => key t <> key r) l ++ [r])).
Proof.
  intros Hnd. rewrite fmap_app. apply NoDup_app. split_and!.
  - eapply sublist_NoDup; [exact Hnd|apply fmap_sublist, sublist_filter].
  - intros x (t & -> & [Ht _]%list_elem_of_filter)%list_elem_of_fmap.
    simpl. by intros ?%list_elem_of_singleton.
  - simpl. apply NoDup_singleton.
Qed.

Lemma upsert_elem_of {A} (key : A -> string) (l : list A) (r : A) x :
  x ∈ key <$> (filter (fun t => key t <> key r) l ++ [r]) <->
  x = key r \/ x ∈ key <$> l.
Proof.
  rewrite fmap_app, elem_of_app. simpl. rewrite list_elem_of_singleton. split.
  - intros [Hx| ->]; [right|by left].
    apply list_elem_of_fmap in Hx as (t & -> & [_ Ht]%list_elem_of_filter).
    apply list_elem_of_fmap. eauto.
  - intros [->|Hx]; [by right|].
    apply list_elem_of_fmap in Hx as (t & -> & Ht).
    destruct (decide (key t = key r)) as [E|E]; [by right|left].
    apply list_elem_of_fmap. exists t. split; [done|]. by apply list_elem_of_filter.
Qed.

Lemma txs_written_tables clock tick txs hash height time d d' :
  txs_written clock tick txs hash height time d = Some d' ->
  blocks d' = blocks d /\
  tx_inputs d' = tx_inputs d ++ (txs ≫= fun tx =>
     match tx_txid tx with
     | Some txid => (fun v => input_row v txid) <$> get (tx_vin tx) []
     | None => []
     end) /\
  tx_outputs d' = tx_outputs d ++ (txs ≫= fun tx =>
     match tx_txid tx with
     | Some txid => (fun v => output_row v txid) <$> get (tx_vout tx) []
     | None => []
     end) /\
  (NoDup (t_txid <$> transactions d) -> NoDup (t_txid <$> transactions d')) /\
  (forall x, x ∈ t_txid <$> transactions d -> x ∈ t_txid <$> transactions d') /\
  (forall tx, tx ∈ txs -> exists txid,
     tx_txid tx = Some txid /\ txid ∈ t_txid <$> transactions d').
Proof.
  revert tick d. induction txs as [|tx txs IH]; intros tick d H; simpl in H.
  - injection H as <-. rewrite !app_nil_r. split_and!; try done.
    intros tx []%elem_of_nil.
  - destruct time as [t|]; [|done]. simpl in H.
    destruct (tx_written clock tick tx hash height t d) as [d1|] eqn:E1; [|done].
    simpl in H. apply IH in H as (-> & -> & -> & Hnd & Hkeep & Hin).
    apply tx_written_tables in E1 as (txid & Etx & -> & Et & -> & ->).
    cbn [mbind list_bind]. rewrite Etx, <- !app_assoc. split_and!; try done.
    + intros Hnd0. apply Hnd. rewrite Et.
      apply (upsert_NoDup t_txid _ (transaction_row tx txid hash height t (clock tick))).
      done.
    + intros x Hx. apply Hkeep. rewrite Et.
      apply (upsert_elem_of t_txid _ (transaction_row tx txid hash height t (clock tick))).
      by right.
    + intros tx' [->|Htx]%elem_of_cons; [|by apply Hin].
      exists txid. split; [done|]. apply Hkeep. rewrite Et.
      apply (upsert_elem_of t_txid _ (transaction_row tx txid hash height t (clock tick))).
      by left.
Qed.

(** The tables after the rows of a payload have been written. *)
Lemma block_written_tables clock tick bd d d' :
  block_written clock tick bd d = Some d' ->
  exists hash height,
    bd_hash bd = Some hash /\ bd_height bd = Some height /\
    blocks d' =
      filter (fun b => ~ block_conflicts (block_row bd hash height (clock tick)) b)
        (blocks d) ++ [block_row bd hash height (clock tick)] /\
    tx_inputs d' = tx_inputs d ++ payload_input_rows bd /\
    tx_outputs d' = tx_outputs d ++ payload_output_rows bd /\
    (NoDup (t_txid <$> transactions d) -> NoDup (t_txid <$> transactions d')) /\
    (forall tx, tx ∈ get (bd_tx bd) [] -> exists txid,
       tx_txid tx = Some txid /\ txid ∈ t_txid <$> transactions d').
Proof.
  unfold block_written, payload_input_rows, payload_output_rows.
  destruct (bd_hash bd) as [hash|]; [|done].
  destruct (bd_height bd) as [height|]; [|done]. simpl. intros H.
  apply txs_written_tables in H as (-> & -> & -> & Hnd & _ & Hin).
  exists hash, height. split_and!; done.
Qed.

(** The transaction table after the transactions of a payload have been
    written. *)
Lemma txs_written_transactions clock tick txs hash height time d d' :
  txs_written clock tick txs hash height time d = Some d' ->
  (txs <> [] -> is_Some time) /\
  Forall (fun tx => is_Some (tx_txid tx)) txs /\
  transactions d' =
    replaced_by_txid (transactions d)
      (imap (fun i tx =>
               transaction_row tx (get (tx_txid tx) "") hash height (get time 0)
                 (clock (tick + i)%nat)) txs).
Proof.
  revert tick d. induction txs as [|tx txs IH]; intros tick d H; simpl in H.
  - injection H as <-. done.
  - destruct time as [t|]; [|done]. simpl in H.
    destruct (tx_written clock tick tx hash height t d) as [d1|] eqn:E1; [|done].
    simpl in H. apply IH in H as (_ & Hall & ->).
    apply tx_written_tables in E1 as (txid & Etx & _ & Et & _ & _).
    split_and!; [by eauto|by constructor; [rewrite Etx; eauto|]|].
    rewrite imap_cons. simpl. rewrite Etx. simpl. rewrite Et, Nat.add_0_r.
    f_equal. apply imap_ext. intros i x _. simpl. do 2 f_equal. lia.
Qed.

Lemma payload_complete_written clock tick bd d :
  payload_complete bd <-> is_Some (block_written clock tick bd d).
Proof.
  unfold payload_complete, block_written. split.
  - intros ([hash ->] & [height ->] & Htime & Hall). simpl.
    generalize (insert_or_replace_block (block_row bd hash height (clock tick)) d).
    generalize (S tick).
    induction Hall as [|tx txs [txid Htx] _ IH]; intros t d0; simpl; [by eauto|].
    destruct (Htime ltac:(done)) as [time Et]. rewrite Et in *. simpl.
    unfold tx_written. rewrite Htx. simpl. apply IH. by eauto.
  - intros [d' H].
    destruct (bd_hash bd) as [hash|]; [|done].
    destruct (bd_height bd) as [height|]; [|done]. simpl in H.
    apply txs_written_transactions in H as (Ht & Hall & _).
    split_and!; by eauto.
Qed.


(** A payload that is written is persisted completely, and conversely. *)
Lemma block_written_persisted clock tick bd d d' :
  block_written clock tick bd d = Some d' -> block_persisted clock tick bd d d'.
Proof.
  intros H. split; [apply (payload_complete_written clock tick bd d); by eexists|].
  unfold block_written in H. unfold payload_block_row, payload_transaction_rows.
  destruct (bd_hash bd) as [hash|]; [|done].
  destruct (bd_height bd) as [height|]; [|done]. simpl in *.
  pose proof H as H'. apply txs_written_transactions in H' as (_ & _ & ->).
  apply txs_written_tables in H as (-> & -> & -> & _).
  split_and!; try done. simpl. f_equal.
  apply list_filter_iff. intros b. unfold block_conflicts. simpl.
  split; [intros Hb; split; intros E; apply Hb; by eauto|intros [? ?] [?|?]; done].
Qed.

Section Inserted.
Variable clock : nat -> string.
Variable db_fault : nat -> bool.

(** [insert_block] returns only for a payload that has its keys, and returns
    for such a payload when no statement fails. *)
Lemma insert_block_persists bd w r w' :
  insert_block clock db_fault bd w = (r, w') ->
  working w' = committed w' /\
  match r with
  | inl _ => committed w' = committed w
  | inr _ => block_persisted clock (ticks w) bd (working w) (committed w')
  end.
Proof.
  intros H. apply insert_block_outcome in H as [Hw H]. split; [done|].
  destruct r; [done|]. by apply block_written_persisted.
Qed.

Lemma insert_block_complete bd w :
  (forall n, db_fault n = false) -> payload_complete bd ->
  exists w', insert_block clock db_fault bd w = (inr tt, w').
Proof.
  intros Hnf Hc. apply (insert_block_ok clock db_fault Hnf).
  by apply payload_complete_written.
Qed.

Lemma insert_block_incomplete bd w :
  ~ payload_complete bd ->
  exists e w', insert_block clock db_fault bd w = (inl e, w') /\
    committed w' = committed w /\ working w' = committed w'.
Proof.
  intros Hc. destruct (insert_block clock db_fault bd w) as [[e|[]] w'] eqn:H.
  - apply insert_block_outcome in H as [? ?]. by eauto.
  - apply insert_block_outcome in H as [_ H]. destruct Hc.
    apply (payload_complete_written clock (ticks w) bd (working w)). by eexists.
Qed.

End Inserted.


Section Rounds.
Variable rpc : Rpc.
Variable clock : nat -> string.
Variable db_fault : nat -> bool.

(** One round of the loop of [sync_blocks], started without an open
    transaction: it returns; the committed data are those found at its start,
    or those truncated after a height by [handle_reorg], or one of the two
    with the fetched block persisted completely. *)
Lemma sync_height_outcome height w :
  working w = committed w ->
  exists w', sync_height rpc clock db_fault height w = (inr tt, w') /\
    working w' = committed w' /\
    exists d0,
      (d0 = committed w \/ exists k, 0 <= k /\ d0 = truncated k (committed w)) /\
      (committed w' = d0 \/
       exists hash bd,
         getblockhash rpc height = Some hash /\ getblock rpc hash 2 = Some bd /\
         block_persisted clock (ticks w) bd d0 (committed w')).
Proof.
  intros Hclean. unfold sync_height, try_except, fetch_block.
  unfold mbind at 1, M_bind at 1, rpc_call at 1.
  destruct (getblockhash rpc height) as [hash|] eqn:Eh.
  2:{ eexists. split_and!; [done|done|]. exists (committed w). by eauto. }
  unfold mbind at 1, M_bind at 1, rpc_call at 1.
  destruct (getblock rpc hash 2) as [bd|] eqn:Eb.
  2:{ eexists. split_and!; [done|done|]. exists (committed w). by eauto. }
  set (w1 := set_requests _ (set_requests _ w)).
  destruct (handle_reorg_returns db_fault bd w1) as (b & w2 & Hr).
  unfold mbind at 1, M_bind at 1. rewrite Hr.
  pose proof (handle_reorg_ticks db_fault bd w1 _ _ Hr) as Ht. simpl in Ht.
  apply handle_reorg_outcome in Hr.
  assert (working w2 = committed w2 /\
          (committed w2 = committed w \/
           exists k, 0 <= k /\ committed w2 = truncated k (committed w))) as [Hc2 Hd0].
  { destruct b.
    - destruct Hr as (h & k & _ & ? & _ & Hc & Hw). simpl in Hc. rewrite Hclean in Hc.
      split; [done|]. right. exists k. split; [lia|done].
    - destruct Hr as [Hc Hw]. simpl in *. split; [|by left].
      destruct Hw as [Hw|Hw]; [|done]. by rewrite Hw, Hc. }
  destruct (insert_block clock db_fault bd w2) as [r w3] eqn:Hi.
  apply insert_block_persists in Hi as [Hw3 Hi].
  destruct r as [e|[]].
  - eexists. split_and!; [done|done|]. exists (committed w2). split; [|by left].
    destruct Hd0 as [->|(k & ? & ->)]; by eauto.
  - eexists. split_and!; [done|done|]. exists (committed w2). split.
    { destruct Hd0 as [->|(k & ? & ->)]; by eauto. }
    right. exists hash, bd. rewrite Ht, Hc2 in Hi. done.
Qed.

End Rounds.

End RoundFacts.


(** * The properties of the design document *)

Module Claims.
Import Payload Store Remote ETL ReorgCheck Describe Observe Examples MoreExamples.
Import Runs StoreFacts ReorgFacts SyncFacts AuditFacts RoundFacts.

(** C1.  The design document asks that ingesting a height twice with the same
    payload leave one block row, one transaction row per txid and the input
    and output rows of the payload once.  [insert_block] replaces the block
    and transaction rows but adds the input and output rows with a plain
    [INSERT]: after height 0 of chain A has been ingested twice the store
    holds one block row and one transaction row, and two input rows and two
    output rows for a payload with one input and one output. *)
Theorem reingest_duplicates_input_and_output_rows :
  let once := (sync_height (node chain_a) clock0 no_fault 0 empty_world).2 in
  let twice := (sync_height (node chain_a) clock0 no_fault 0 once).2 in
  payload_inputs a0 = 1%nat /\ payload_outputs a0 = 1%nat /\
  length (tx_inputs (committed once)) = 1%nat /\
  length (tx_outputs (committed once)) = 1%nat /\
  b_hash <$> blocks (committed twice) = ["a0"] /\
  t_txid <$> transactions (committed twice) = ["ta0"] /\
  i_txid <$> tx_inputs (committed twice) = ["ta0"; "ta0"] /\
  o_txid <$> tx_outputs (committed twice) = ["ta0"; "ta0"].
Proof. by vm_compute. Qed.

(** C2.  The design document asks that the truncation after a fork point
    delete the blocks above it together with their transactions, inputs and
    outputs.  [handle_reorg] deletes the transactions before it selects their
    txids for the deletion of inputs and outputs, so no input or output row
    is deleted: with chain A stored and a block that names [a0] as its
    predecessor, the blocks and transactions above height 0 go and all input
    and output rows stay. *)
Theorem truncation_keeps_input_and_output_rows :
  let out := handle_reorg no_fault c3 world_a in
  out.1 = inr true /\
  b_height <$> blocks (committed out.2) = [0] /\
  t_txid <$> transactions (committed out.2) = ["ta0"] /\
  i_txid <$> tx_inputs (committed out.2) = ["ta0"; "ta1"; "ta2"] /\
  o_txid <$> tx_outputs (committed out.2) = ["ta0"; "ta1"; "ta2"] /\
  committed out.2 = truncated 0 store_a.
Proof. by vm_compute. Qed.

(** C3, as the design document states it, fails: chain A is stored and the
    node serves chain D, which has no block in common with it.  For the block
    of height 3 the search of the design document, which compares the hash of
    the node with the stored hash at each height, finds no fork point down to
    height 0, and the walk back of [handle_reorg] ends below height 0; yet
    [handle_reorg] answers [False], nothing is raised, the height is
    ingested on top of chain A, and the loop goes on to height 4. *)
Lemma unresolved_reorg_is_ingested :
  let out := sync_blocks (node chain_d) clock0 no_fault None None world_a in
  b_hash <$> blocks store_a = ["a0"; "a1"; "a2"] /\
  omap bd_hash chain_d = ["d0"; "d1"; "d2"; "d3"; "d4"] /\
  worded_fork_point (node chain_d) store_a 0 3 = None /\
  (find_fork no_fault (bd_previousblockhash d3) 3 world_a).1 = inr (-1) /\
  (handle_reorg no_fault d3 world_a).1 = inr false /\
  (sync_height (node chain_d) clock0 no_fault 3 world_a).1 = inr tt /\
  out.1 = inr tt /\
  requested_heights (requests out.2) = [3; 4] /\
  b_hash <$> blocks (committed out.2) = ["a0"; "a1"; "a2"; "d3"; "d4"].
Proof. by vm_compute. Qed.

(** C3, amended.  For every incoming block such that no stored height below
    its own carries the hash it names as predecessor, and with no failing
    statement, [handle_reorg] raises nothing: it answers [False] and leaves
    the store as it is.  The round of the loop then returns normally: when
    the payload has every key [insert_block] reads, the block is persisted
    at that height with all its rows; otherwise the failure of
    [insert_block] is swallowed and the committed store is as it was.  The
    loop of [sync_blocks] never aborts: every round returns, and every
    height of the range is asked for in turn. *)
Theorem unresolved_reorg_returns_false rpc clock db_fault bd p hash height w :
  (forall n, db_fault n = false) ->
  getblockhash rpc height = Some hash ->
  getblock rpc hash 2 = Some bd ->
  bd_height bd = Some height ->
  bd_previousblockhash bd = Some p ->
  Forall (fun j => select_hash_by_height j (working w) <> Some p) (seqZ 0 height) ->
  (exists w', handle_reorg db_fault bd w = (inr false, w') /\
     working w' = working w /\ committed w' = committed w) /\
  (exists w', sync_height rpc clock db_fault height w = (inr tt, w') /\
     working w' = committed w' /\
     (payload_complete bd ->
      block_persisted clock (ticks w) bd (working w) (committed w')) /\
     (~ payload_complete bd -> committed w' = committed w)) /\
  (forall heights w0, exists w1,
     for_each heights (sync_height rpc clock db_fault) w0 = (inr tt, w1) /\
     requested_heights (requests w1) = requested_heights (requests w0) ++ heights).
Proof.
  intros Hnf Hhash Hblock Hh Hp Hnone.
  assert (forall w0, working w0 = working w ->
            exists w', handle_reorg db_fault bd w0 = (inr false, w') /\
              working w' = working w0 /\ committed w' = committed w0 /\
              ticks w' = ticks w0) as Hreorg.
  { intros w0 Hw0.
    destruct (handle_reorg_unresolved db_fault Hnf bd p height w0 Hh Hp)
      as (w' & Hr & ? & ?).
    { intros j Hj. rewrite Hw0. rewrite Forall_forall in Hnone.
      apply Hnone, elem_of_seqZ. lia. }
    exists w'. split_and!; try done. by apply (handle_reorg_ticks db_fault bd w0 _ _ Hr). }
  split_and!.
  - destruct (Hreorg w eq_refl) as (w' & ? & ? & ? & _). by eauto.
  - unfold sync_height, try_except, fetch_block.
    unfold mbind at 1, M_bind at 1, rpc_call at 1. rewrite Hhash.
    unfold mbind at 1, M_bind at 1, rpc_call at 1. rewrite Hblock.
    set (w1 := set_requests _ (set_requests _ w)).
    destruct (Hreorg w1 eq_refl) as (w2 & Hr & Hw2 & Hc2 & Ht2).
    unfold mbind at 1, M_bind at 1. rewrite Hr.
    destruct (insert_block clock db_fault bd w2) as [r w3] eqn:Hi.
    destruct (decide (is_Some (block_written clock (ticks w) bd (working w)))) as [Hc|Hc].
    + apply payload_complete_written in Hc.
      destruct (insert_block_complete clock db_fault bd w2 Hnf Hc) as (w3' & Hi').
      rewrite Hi in Hi'. injection Hi' as -> ->.
      apply insert_block_persists in Hi as [Hw3 Hi]. rewrite Ht2, Hw2 in Hi.
      eexists. split_and!; try done.
    + assert (~ payload_complete bd) as Hc'.
      { intros ?. apply Hc. by apply payload_complete_written. }
      destruct (insert_block_incomplete clock db_fault bd w2 Hc') as (e & w3' & Hi' & ? & ?).
      rewrite Hi in Hi'. injection Hi' as -> ->.
      eexists. split_and!; try done. intros _. by rewrite Hc2 in *.
  - apply for_each_sync_height_run.
Qed.

Lemma unresolved_reorg_returns_false_witness :
  (exists w', handle_reorg no_fault d3 world_a = (inr false, w') /\
     working w' = working world_a /\ committed w' = committed world_a) /\
  (exists w', sync_height (node chain_d) clock0 no_fault 3 world_a = (inr tt, w') /\
     working w' = committed w' /\
     block_persisted clock0 (ticks world_a) d3 (working world_a) (committed w')) /\
  (forall heights w0, exists w1,
     for_each heights (sync_height (node chain_d) clock0 no_fault) w0 = (inr tt, w1) /\
     requested_heights (requests w1) = requested_heights (requests w0) ++ heights).
Proof.
  destruct (unresolved_reorg_returns_false (node chain_d) clock0 no_fault d3 "d2" "d3" 3
              world_a) as (H1 & (w' & Hs & Hw & Hp & _) & H3).
  - intros n. reflexivity.
  - reflexivity.
  - reflexivity.
  - reflexivity.
  - reflexivity.
  - compute_done.
  - split_and!; [exact H1| |exact H3].
    exists w'. split_and!; [exact Hs|exact Hw|]. apply Hp.
    split_and!; [by eexists|by eexists|by eexists|]. repeat constructor. by eexists.
Defined.

(** C4, as the design document states it, fails: with chain A stored and the
    node on chain B, the search worded in the document finds height 1, where
    the hash of the node and the stored hash agree; the search of
    [handle_reorg] for the block of height 3 ends with [-1] and sends nothing
    to the node. *)
Lemma fork_search_ignores_remote_hashes :
  let out := find_fork no_fault (bd_previousblockhash b3) 3 world_a in
  worded_fork_point (node chain_b) store_a 0 3 = Some 1 /\
  out.1 = inr (-1) /\
  requests out.2 = requests world_a.
Proof. by vm_compute. Qed.

(** C4, amended.  When a divergence is declared for an incoming block at
    height [h], the search walks from [h - 1] down to height 0 and compares,
    at each height, the stored hash with the hash the incoming block names as
    its predecessor; no request goes to the node.  It stops at the highest
    height where the two agree, and the store is truncated after that
    height; when there is none it ends below 0 and the store is left as it
    is. *)
Theorem fork_search_compares_stored_hashes_with_parent db_fault bd p height w :
  (forall n, db_fault n = false) ->
  bd_height bd = Some height ->
  bd_previousblockhash bd = Some p ->
  p <> "" ->
  select_height_by_hash p (working w) <> Some (height - 1) ->
  exists k w1,
    find_fork db_fault (Some p) height w = (inr k, w1) /\
    requests w1 = requests w /\
    ((0 <= k < height /\
      select_hash_by_height k (working w) = Some p /\
      (forall j, k < j < height -> select_hash_by_height j (working w) <> Some p) /\
      exists w', handle_reorg db_fault bd w = (inr true, w') /\
        committed w' = truncated k (working w)) \/
     (k < 0 /\
      (forall j, 0 <= j < height -> select_hash_by_height j (working w) <> Some p) /\
      exists w', handle_reorg db_fault bd w = (inr false, w') /\
        working w' = working w /\ committed w' = committed w)).
Proof.
  intros Hnf Hh Hp Hne Hdiv.
  destruct (find_fork_run db_fault Hnf p height w) as (k & w1 & Hrun & _ & _ & Hreq & Hk).
  exists k, w1. split_and!; [done|done|].
  destruct Hk as [(Hk & Hmatch & Hhigh)|[Hk Hnone]]; [left|right].
  - split_and!; [lia|lia|done|done|].
    destruct (handle_reorg_resolved db_fault Hnf bd p height k w) as (w' & ? & ? & _);
      by eauto.
  - split_and!; [done|done|].
    by apply (handle_reorg_unresolved db_fault Hnf bd p height w).
Qed.

Lemma fork_search_compares_stored_hashes_with_parent_witness :
  exists k w1,
    find_fork no_fault (Some "a0") 3 world_a = (inr k, w1) /\
    requests w1 = requests world_a /\
    ((0 <= k < 3 /\
      select_hash_by_height k (working world_a) = Some "a0" /\
      (forall j, k < j < 3 -> select_hash_by_height j (working world_a) <> Some "a0") /\
      exists w', handle_reorg no_fault c3 world_a = (inr true, w') /\
        committed w' = truncated k (working world_a)) \/
     (k < 0 /\
      (forall j, 0 <= j < 3 -> select_hash_by_height j (working world_a) <> Some "a0") /\
      exists w', handle_reorg no_fault c3 world_a = (inr false, w') /\
        working w' = working world_a /\ committed w' = committed world_a)).
Proof.
  apply (fork_search_compares_stored_hashes_with_parent no_fault c3 "a0" 3 world_a).
  - reflexivity.
  - reflexivity.
  - reflexivity.
  - compute_done.
  - compute_done.
Defined.

(** Two failures in the middle of a block.  The payload of height 3 lacks
    the key ['time'], read after the block row has been written; and SQLite
    fails on the third statement, the insertion of the input row.  Both leave
    the store of chain A as it was. *)
Example insert_block_missing_time_rolls_back :
  let bd := mk_block "a3" 3 (Some "a2") None (Some [coinbase_tx "ta3"]) in
  let out := insert_block clock0 no_fault bd world_a in
  out.1 = inl (KeyError "time") /\
  committed out.2 = store_a /\ working out.2 = store_a.
Proof. by vm_compute. Qed.

Example insert_block_failing_statement_rolls_back :
  let bd := mk_block "a3" 3 (Some "a2") (Some 103) (Some [coinbase_tx "ta3"]) in
  let out := insert_block clock0 (fault_at 2) bd world_a in
  out.1 = inl DatabaseError /\
  committed out.2 = store_a /\ working out.2 = store_a /\
  b_hash <$> blocks (committed (insert_block clock0 no_fault bd world_a).2) =
    ["a0"; "a1"; "a2"; "a3"].
Proof. by vm_compute. Qed.

(** C5, as the design document states it, fails: chain A is stored and the
    block fetched for height 3 names [a0] as its predecessor.  [handle_reorg]
    truncates the store after height 0 and commits; the insertion of the
    input row of the block then fails and [insert_block] rolls back.  The
    round returns normally and the store is not the one found when the
    ingestion of the block began: heights 1 and 2 are gone. *)
Lemma failed_insert_after_truncation :
  let rpc := node (chain_a ++ [c3]) in
  let out := sync_height rpc clock0 (fault_at 11) 3 world_a in
  b_hash <$> blocks (committed world_a) = ["a0"; "a1"; "a2"] /\
  t_txid <$> transactions (committed world_a) = ["ta0"; "ta1"; "ta2"] /\
  getblockhash rpc 3 = Some "c3" /\ getblock rpc "c3" 2 = Some c3 /\
  (handle_reorg (fault_at 11) c3 world_a).1 = inr true /\
  (insert_block clock0 (fault_at 11) c3 (handle_reorg (fault_at 11) c3 world_a).2).1 =
    inl DatabaseError /\
  out.1 = inr tt /\
  b_hash <$> blocks (committed out.2) = ["a0"] /\
  t_txid <$> transactions (committed out.2) = ["ta0"] /\
  working out.2 = committed out.2.
Proof. by vm_compute. Qed.

(** C5, amended.  [insert_block] persists the block row and every
    transaction, input and output row of the payload in one transaction of
    its own.  When it returns, the committed data are the data it found with
    the payload persisted completely, and it returns whenever the payload has
    the keys it reads and no statement fails.  When anything fails, a missing
    key or a failing statement, the transaction is rolled back: the committed
    data are those found when [insert_block] was called and nothing is left
    pending.  The truncation [handle_reorg] may have committed for the same
    block is not undone: after a round of the loop the committed data are
    those found at its start, or those truncated after a height, or one of
    the two with the fetched block persisted completely. *)
Theorem insert_block_atomic (rpc : Rpc) (clock : nat -> string) (db_fault : nat -> bool) :
  (forall bd w,
     let out := insert_block clock db_fault bd w in
     working out.2 = committed out.2 /\
     match out.1 with
     | inl _ => committed out.2 = committed w
     | inr _ => block_persisted clock (ticks w) bd (working w) (committed out.2)
     end /\
     ((forall n, db_fault n = false) -> payload_complete bd -> out.1 = inr tt)) /\
  (forall height w,
     working w = committed w ->
     let out := sync_height rpc clock db_fault height w in
     out.1 = inr tt /\
     working out.2 = committed out.2 /\
     exists d0,
       (d0 = committed w \/ exists k, 0 <= k /\ d0 = truncated k (committed w)) /\
       (committed out.2 = d0 \/
        exists hash bd,
          getblockhash rpc height = Some hash /\ getblock rpc hash 2 = Some bd /\
          block_persisted clock (ticks w) bd d0 (committed out.2))).
Proof.
  split.
  - intros bd w out.
    destruct (insert_block_persists clock db_fault bd w out.1 out.2) as [Hw Hm].
    { subst out. apply surjective_pairing. }
    split_and!; [done|done|]. intros Hnf Hc.
    destruct (insert_block_complete clock db_fault bd w Hnf Hc) as [w' H].
    subst out. by rewrite H.
  - intros height w Hclean out.
    destruct (sync_height_outcome rpc clock db_fault height w Hclean) as (w' & H & ? & ?).
    subst out. rewrite H. done.
Qed.

Lemma insert_block_atomic_witness :
  ((insert_block clock0 no_fault a3 world_a).1 = inr tt /\
   working (insert_block clock0 no_fault a3 world_a).2 =
     committed (insert_block clock0 no_fault a3 world_a).2 /\
   block_persisted clock0 (ticks world_a) a3 (working world_a)
     (committed (insert_block clock0 no_fault a3 world_a).2)) /\
  (exists e, (insert_block clock0 (fault_at 2) a3 world_a).1 = inl e /\
   working (insert_block clock0 (fault_at 2) a3 world_a).2 =
     committed (insert_block clock0 (fault_at 2) a3 world_a).2 /\
   committed (insert_block clock0 (fault_at 2) a3 world_a).2 = committed world_a) /\
  ((sync_height (node (chain_a ++ [c3])) clock0 (fault_at 11) 3 world_a).1 = inr tt /\
   working (sync_height (node (chain_a ++ [c3])) clock0 (fault_at 11) 3 world_a).2 =
     committed (sync_height (node (chain_a ++ [c3])) clock0 (fault_at 11) 3 world_a).2).
Proof.
  split_and!.
  - pose proof (insert_block_atomic (node chain_a) clock0 no_fault) as [H _].
    pose proof (H a3 world_a) as (_ & _ & Hok). apply Hok.
    + intros n. reflexivity.
    + split_and!; [by eexists|by eexists|by eexists|]. repeat constructor. by eexists.
  - pose proof (insert_block_atomic (node chain_a) clock0 no_fault) as [H _].
    pose proof (H a3 world_a) as (Hw & _). exact Hw.
  - pose proof (insert_block_atomic (node chain_a) clock0 no_fault) as [H _].
    pose proof (H a3 world_a) as (_ & Hm & Hok). cbv zeta in Hm, Hok.
    destruct (insert_block clock0 no_fault a3 world_a) as [r w'].
    assert (r = inr tt) as ->.
    { apply Hok.
      - intros n. reflexivity.
      - split_and!; [by eexists|by eexists|by eexists|]. repeat constructor. by eexists. }
    exact Hm.
  - pose proof (insert_block_atomic (node chain_a) clock0 (fault_at 2)) as [H _].
    pose proof (H a3 world_a) as (Hw & Hm & _). cbv zeta in Hw, Hm.
    destruct (insert_block clock0 (fault_at 2) a3 world_a) as [r w'] eqn:E.
    assert (r = inl DatabaseError) as ->.
    { change r with (r, w').1. rewrite <- E. by vm_compute. }
    exists DatabaseError. split_and!; [reflexivity|exact Hw|exact Hm].
  - pose proof (insert_block_atomic (node (chain_a ++ [c3])) clock0 (fault_at 11)) as [_ H].
    apply (H 3 world_a). by vm_compute.
  - pose proof (insert_block_atomic (node (chain_a ++ [c3])) clock0 (fault_at 11)) as [_ H].
    apply (H 3 world_a). by vm_compute.
Defined.

(** C6, as the design document states it, fails: the store mirrors the ten
    blocks of chain C except for the hash at height 5; the audit of a window
    of 10 reports two discrepancies, the hash at height 5 and the predecessor
    hash at height 6, and 80 percent. *)
Lemma audit_mutation_below_tip :
  exists rep,
    check_block_consistency (node chain_c) (store_c 5) "t" 10 = inr rep /\
    b_hash <$> blocks (store_c 5) =
      ["c0"; "c1"; "c2"; "c3"; "c4"; "xx"; "c6"; "c7"; "c8"; "c9"] /\
    omap bd_hash chain_c =
      ["c0"; "c1"; "c2"; "c3"; "c4"; "c5"; "c6"; "c7"; "c8"; "c9"] /\
    b_previousblockhash <$> blocks (store_c 5) =
      (fun b => get (bd_previousblockhash b) "") <$> chain_c /\
    b_time <$> blocks (store_c 5) = (fun b => get (bd_time b) 0) <$> chain_c /\
    inconsistencies rep =
      [hash_mismatch 5 "xx" "c5"; prev_hash_mismatch 6 "xx" "c5"] /\
    total_inconsistencies (consistency rep) = 2%nat /\
    percentage (consistency rep) = 80%Q.
Proof. eexists. split; [by vm_compute|]. by vm_compute. Qed.

(** C6, amended.  If the store holds 10 blocks at consecutive heights, every
    height of the window can be fetched, the chain of the node is linked,
    and the stored hash differs from the hash of the node at height [h] and
    nowhere else, then the audit of a window of 10 reports a [hash_mismatch]
    at [h] and, when [h] is not the highest height, a [prev_hash_mismatch]
    at [h + 1]; the percentage is 90 when [h] is the highest height and 80
    otherwise. *)
Theorem audit_one_mutated_hash rpc d now s h local_hash remote_hash :
  0 <= s -> s <= h <= s + 9 ->
  b_height <$> blocks d ≡ₚ seqZ s 10 ->
  Forall (fun k => is_Some (fetch_bitcoind_block rpc k)) (seqZ s 10) ->
  Forall (fun k => btc_previousblockhash <$> fetch_bitcoind_block rpc (k + 1) =
                   getblockhash rpc k) (seqZ s 9) ->
  Forall (fun r => b_height r <> h -> getblockhash rpc (b_height r) = Some (b_hash r))
    (blocks d) ->
  select_hash_by_height h d = Some local_hash ->
  getblockhash rpc h = Some remote_hash ->
  local_hash <> remote_hash ->
  exists rep, check_block_consistency rpc d now 10 = inr rep /\
    inconsistencies rep =
      hash_mismatch h local_hash remote_hash ::
      (if bool_decide (h < s + 9)
       then [prev_hash_mismatch (h + 1) local_hash remote_hash] else []) /\
    percentage (consistency rep) = (if bool_decide (h < s + 9) then 80%Q else 90%Q) /\
    total (blocks_checked rep) = 10%nat /\
    missing_blocks rep = [] /\
    status rep = inconsistent.
Proof.
  intros Hs Hh Hperm Hfetch Hlink Hsame Hlocal Hremote Hdiff.
  assert (select_max_height d = Some (s + 9)) as Hmax.
  { apply select_max_height_Some.
    - rewrite Hperm. apply elem_of_seqZ. lia.
    - apply Forall_forall. intros j Hj. rewrite Hperm in Hj.
      apply elem_of_seqZ in Hj. lia. }
  unfold check_block_consistency. rewrite Hmax.
  replace (0 `max` (s + 9 - 10 + 1)) with s by lia.
  replace (s + 9 + 1 - s) with 10 by lia.
  rewrite fetch_bitcoind_blocks_size by (done || apply NoDup_seqZ).
  rewrite length_seqZ. change (Z.to_nat 10) with 10%nat.
  rewrite compare_blocks_concat.
  set (db := dict_of db_height id (select_blocks_from s d)).
  set (bt := fetch_bitcoind_blocks rpc (seqZ s 10)).
  assert (Forall (fun k => compare_height s db bt k =
     ((if decide (k = h) then [hash_mismatch h local_hash remote_hash] else []) ++
      (if decide (k = h + 1)
       then [prev_hash_mismatch (h + 1) local_hash remote_hash] else []), []))
     (seqZ s 10)) as Hpoint.
  { apply Forall_forall. intros k Hk%elem_of_seqZ.
    destruct (window_entry rpc d s 10 k Hperm Hfetch ltac:(lia))
      as (r & btk & Hdb & Hr & Hrk & Hlh & Hbt & Hfk & Hrh).
    unfold compare_height. fold db in Hdb. fold bt in Hbt. rewrite Hdb, Hbt. simpl.
    f_equal. f_equal.
    - (* the hash stored for [k] against the hash of the node *)
      destruct (decide (k = h)) as [->|Hne].
      + rewrite Hlocal in Hlh. rewrite Hremote in Hrh.
        injection Hlh as <-. injection Hrh as <-.
        by rewrite bool_decide_true.
      + rewrite Forall_forall in Hsame. specialize (Hsame r Hr).
        rewrite Hrk in Hsame. specialize (Hsame Hne). rewrite Hrh in Hsame.
        injection Hsame as Hsame. by rewrite bool_decide_false by (by intros []).
    - (* the hash stored for [k - 1] against the predecessor the node names *)
      case_bool_decide as Hks; [|by rewrite decide_False by lia].
      destruct (window_entry rpc d s 10 (k - 1) Hperm Hfetch ltac:(lia))
        as (r' & btp & Hdb' & Hr' & Hrk' & Hlh' & Hbt' & Hfk' & Hrh').
      fold db in Hdb'. fold bt in Hbt'. rewrite Hdb', Hbt'. simpl.
      rewrite Forall_forall in Hlink.
      assert (k - 1 ∈ seqZ s 9) as Hlk by (apply elem_of_seqZ; lia).
      apply Hlink in Hlk. replace (k - 1 + 1) with k in Hlk by lia.
      rewrite Hfk, Hrh' in Hlk. injection Hlk as Hlk.
      destruct (decide (k = h + 1)) as [->|Hne].
      + replace (h + 1 - 1) with h in * by lia.
        rewrite Hlocal in Hlh'. rewrite Hremote in Hrh'.
        injection Hlh' as <-. injection Hrh' as Hrh'.
        rewrite Hlk, <- Hrh'. by rewrite bool_decide_true.
      + rewrite Forall_forall in Hsame. specialize (Hsame r' Hr').
        rewrite Hrk' in Hsame. specialize (Hsame ltac:(lia)). rewrite Hrh' in Hsame.
        injection Hsame as Hsame.
        by rewrite bool_decide_false by (rewrite Hlk, Hsame; by intros []). }
  assert ((fun k => (compare_height s db bt k).2) <$> seqZ s 10 =
          (fun _ => []) <$> seqZ s 10) as ->.
  { apply Forall_fmap_ext_1. eapply Forall_impl; [exact Hpoint|].
    simpl. by intros k ->. }
  assert ((fun k => (compare_height s db bt k).1) <$> seqZ s 10 =
          (fun k => (if decide (k = h) then [hash_mismatch h local_hash remote_hash] else []) ++
             (if decide (k = h + 1)
              then [prev_hash_mismatch (h + 1) local_hash remote_hash] else []))
          <$> seqZ s 10) as ->.
  { apply Forall_fmap_ext_1. eapply Forall_impl; [exact Hpoint|].
    simpl. by intros k ->. }
  rewrite seqZ_10.
  assert (h = s \/ h = s + 1 \/ h = s + 2 \/ h = s + 3 \/ h = s + 4 \/ h = s + 5 \/
          h = s + 6 \/ h = s + 7 \/ h = s + 8 \/ h = s + 9) as Hcases by lia.
  eexists. split; [reflexivity|]. cbn [fmap list_fmap mjoin list_join].
  repeat (destruct Hcases as [->|Hcases]); try subst h;
    repeat first [rewrite decide_True by lia | rewrite decide_False by lia];
    first [rewrite (bool_decide_true (_ < _)) by lia
          |rewrite (bool_decide_false (_ < _)) by lia];
    by vm_compute.
Qed.

Lemma audit_one_mutated_hash_witness :
  exists rep, check_block_consistency (node chain_c) (store_c 9) "t" 10 = inr rep /\
    inconsistencies rep =
      hash_mismatch 9 "xx" "c9" ::
      (if bool_decide (9 < 0 + 9)
       then [prev_hash_mismatch (9 + 1) "xx" "c9"] else []) /\
    percentage (consistency rep) = (if bool_decide (9 < 0 + 9) then 80%Q else 90%Q) /\
    total (blocks_checked rep) = 10%nat /\
    missing_blocks rep = [] /\
    status rep = inconsistent.
Proof.
  apply (audit_one_mutated_hash (node chain_c) (store_c 9) "t" 0 9 "xx" "c9").
  - lia.
  - lia.
  - by vm_compute.
  - compute_done.
  - compute_done.
  - compute_done.
  - reflexivity.
  - reflexivity.
  - compute_done.
Defined.

(** C7, as the design document states it, fails: height 1 is absent from the
    store and lies in the window; the report lists it in [missing_blocks],
    finds no discrepancy and gives the status [healthy]. *)
Lemma missing_block_reported_healthy :
  exists rep,
    check_block_consistency (node chain_a) store_gap "t" 10 = inr rep /\
    b_height <$> blocks store_gap = [0; 2] /\
    missing_blocks rep = [1] /\
    inconsistencies rep = [] /\
    status rep = healthy.
Proof. eexists. split; [by vm_compute|]. by vm_compute. Qed.

(** C7, amended.  The status of the report is [healthy] if and only if the
    list of discrepancies is empty.  A height of the window that is absent
    from the store is listed in [missing_blocks], which the report counts
    apart; every discrepancy is about a height that is stored, so a missing
    block does not change the status. *)
Theorem audit_status_ignores_missing_blocks rpc d now num_blocks rep :
  check_block_consistency rpc d now num_blocks = inr rep ->
  (status rep = healthy <-> inconsistencies rep = []) /\
  (forall k, k ∈ missing_blocks rep <->
     start_height (blocks_checked rep) <= k <= end_height (blocks_checked rep) /\
     k ∉ b_height <$> blocks d) /\
  (forall i, i ∈ inconsistencies rep -> inc_height i ∈ b_height <$> blocks d) /\
  missing_blocks_count (consistency rep) = length (missing_blocks rep).
Proof.
  unfold check_block_consistency.
  destruct (select_max_height d) as [latest|]; [|done]. intros [= <-]. simpl.
  rewrite compare_blocks_concat. simpl. split_and!; [| | |done].
  - case_bool_decide as Hl.
    + split; [|done]. intros _. by apply length_zero_iff_nil.
    + split; [done|]. intros E. by rewrite E in Hl.
  - intros k. rewrite list_elem_of_join. split.
    + intros (l & Hk & (height & -> & Hh)%list_elem_of_fmap).
      apply compare_height_missing in Hk as [-> Hnone].
      apply elem_of_seqZ in Hh. split; [lia|].
      apply db_blocks_lookup_None in Hnone. intros Hin. apply Hnone. split; [done|lia].
    + intros [Hk Hnot]. eexists. split.
      * apply compare_height_missing. split; [done|].
        apply db_blocks_lookup_None. by intros [? _].
      * apply list_elem_of_fmap. exists k. split; [done|]. apply elem_of_seqZ. lia.
  - intros i (l & Hi & (height & -> & Hh)%list_elem_of_fmap)%list_elem_of_join.
    apply compare_height_found in Hi as [-> [dbk Hdb]].
    destruct (decide (height ∈ b_height <$> blocks d)) as [|Hnot]; [done|].
    assert (dict_of db_height id
              (select_blocks_from (0 `max` (latest - num_blocks + 1)) d) !! height = None)
      as E by (apply db_blocks_lookup_None; by intros [? _]).
    by rewrite E in Hdb.
Qed.

Lemma audit_status_ignores_missing_blocks_witness :
  exists rep,
    check_block_consistency (node chain_a) store_gap "t" 10 = inr rep /\
    (status rep = healthy <-> inconsistencies rep = []) /\
    (forall k, k ∈ missing_blocks rep <->
       start_height (blocks_checked rep) <= k <= end_height (blocks_checked rep) /\
       k ∉ b_height <$> blocks store_gap) /\
    (forall i, i ∈ inconsistencies rep -> inc_height i ∈ b_height <$> blocks store_gap) /\
    missing_blocks_count (consistency rep) = length (missing_blocks rep).
Proof.
  eexists. split; [by vm_compute|].
  apply (audit_status_ignores_missing_blocks (node chain_a) store_gap "t" 10).
  by vm_compute.
Defined.

(** C8.  The design document asks that the start be the override when one is
    given and the stored maximum plus one otherwise, and that the end be
    bounded by [max_blocks] when it is given.  [sync_blocks] tests both
    arguments for truth: with heights 0 to 2 stored and the tip at 4, a start
    of 0 makes it ask for heights 3 and 4 instead of 0 to 4, and a
    [max_blocks] of 0 makes it ask for 3 and 4 instead of nothing.  With
    height 0 alone stored and no override it starts again at height 0. *)
Theorem sync_blocks_ignores_zero_arguments :
  let rpc := node chain_b in
  let heights start_height max_blocks w :=
    requested_heights
      (requests (sync_blocks rpc clock0 no_fault start_height max_blocks w).2) in
  select_max_height store_a = Some 2 /\
  getblockchaininfo rpc = Some 4 /\
  heights (Some 0) None world_a = [3; 4] /\
  heights (Some 1) None world_a = [1; 2; 3; 4] /\
  heights None (Some 0) world_a = [3; 4] /\
  heights None (Some 1) world_a = [3] /\
  select_max_height store_genesis = Some 0 /\
  heights None (Some 1) (world_of store_genesis) = [0].
Proof. by vm_compute. Qed.

(** C9.  The design document defines the checkpoint as the greatest stored
    height.  [get_db_latest_height] tests the maximum for truth, so that a
    store whose only block has height 0 is answered [-1], as the empty store
    is; the auditor tests the same query with [is None]. *)
Theorem latest_height_of_genesis_store :
  b_height <$> blocks store_genesis = [0] /\
  select_max_height store_genesis = Some 0 /\
  (get_db_latest_height no_fault (world_of store_genesis)).1 = inr (-1) /\
  (get_db_latest_height no_fault empty_world).1 = inr (-1) /\
  (get_db_latest_height no_fault world_a).1 = inr 2.
Proof. by vm_compute. Qed.




End Claims.

(** * Further properties of the code

    Properties of [etl_sync.py] and [reorg_check.py] beyond the ones above:
    what the methods do when a key is missing or a statement fails, what
    they leave unchanged, and how they compose. *)

Module Coverage.
Import Payload Store Remote ETL ReorgCheck ChainWork Describe Observe ObserveAudit.
Import Examples MoreExamples.
Import Runs StoreFacts ReorgFacts SyncFacts AuditFacts RoundFacts.

(** ** The reorganisation check, whatever fails *)

Section Reorg.
Variable db_fault : nat -> bool.

(** X1.  [handle_reorg] never raises, whatever the payload lacks and
    whichever statement fails; it sends nothing to the node and does not read
    the clock. *)
Theorem handle_reorg_never_raises bd w :
  exists b w', handle_reorg db_fault bd w = (inr b, w') /\
    requests w' = requests w /\ ticks w' = ticks w.
Proof.
  destruct (handle_reorg_returns db_fault bd w) as (b & w' & H).
  exists b, w'. split_and!; [done|..].
  - by apply (handle_reorg_requests db_fault bd w (inr b) w').
  - by apply (handle_reorg_ticks db_fault bd w (inr b) w').
Qed.

(** X2.  [handle_reorg] is all or nothing on the committed data: when it
    answers [True] the four deletions were made after a height below the
    block's own whose stored hash is the predecessor the block names, and
    they are committed; when it answers [False] the committed data are those
    it found, whichever statement failed on the way. *)
Theorem handle_reorg_all_or_nothing bd w b w' :
  handle_reorg db_fault bd w = (inr b, w') ->
  if b
  then exists height k,
         bd_height bd = Some height /\ 0 <= k < height /\
         select_hash_by_height k (working w) = bd_previousblockhash bd /\
         committed w' = truncated k (working w) /\
         working w' = committed w'
  else committed w' = committed w.
Proof.
  intros H. apply handle_reorg_outcome in H. destruct b; [done|]. by destruct H.
Qed.

(** X3.  [handle_reorg] accepts the block without a deletion when the block
    names no predecessor, and when the stored block that carries the named
    hash sits one height below it: it answers [False] and leaves both views
    of the data and the request log as they are.  In the second case one
    query is sent, which must not fail. *)
Theorem handle_reorg_accepts_linked_block bd w :
  truthy_str (bd_previousblockhash bd) = false \/
  (exists height,
     bd_height bd = Some height /\
     select_height_by_hash (get (bd_previousblockhash bd) "") (working w)
       = Some (height - 1) /\
     db_fault (stmts w) = false) ->
  exists w', handle_reorg db_fault bd w = (inr false, w') /\
    working w' = working w /\ committed w' = committed w /\
    requests w' = requests w /\ (stmts w' <= S (stmts w))%nat.
Proof.
  intros [Hp|(height & Hh & Hsel & Hnf)]; unfold handle_reorg, try_except.
  - rewrite Hp. simpl. exists w. split_and!; try done. lia.
  - destruct (truthy_str (bd_previousblockhash bd)); simpl.
    2:{ exists w. split_and!; try done. lia. }
    rewrite (bind_returned _ _ _ _ _ (fetch_ok_at db_fault _ w Hnf)).
    rewrite Hsel, Hh. unfold getitem. rewrite bind_assoc, !ret_bind.
    rewrite bool_decide_true by done.
    eexists. split_and!; try done.
Qed.

End Reorg.

(** ** Rows of a block *)

Section Inserted.
Variable clock : nat -> string.
Variable db_fault : nat -> bool.

(** X4.  A block that is written adds to [tx_inputs] exactly one row per
    element of the [vin] arrays of the payload and to [tx_outputs] one row
    per element of the [vout] arrays, in the order of the payload and each
    under the txid of its transaction; the rows that were there stay. *)
Theorem insert_block_appends_inputs_and_outputs bd w w' :
  insert_block clock db_fault bd w = (inr tt, w') ->
  tx_inputs (committed w') = tx_inputs (working w) ++ payload_input_rows bd /\
  tx_outputs (committed w') = tx_outputs (working w) ++ payload_output_rows bd.
Proof.
  intros H. apply insert_block_outcome in H as [_ H].
  by apply block_written_tables in H as (hash & height & _ & _ & _ & -> & -> & _).
Qed.

(** X5.  Writing the same payload a second time adds its input and output
    rows a second time: after two insertions that return, the rows of the
    payload stand twice at the end of [tx_inputs] and of [tx_outputs]. *)
Theorem insert_block_twice_appends_twice bd w w1 w2 :
  insert_block clock db_fault bd w = (inr tt, w1) ->
  insert_block clock db_fault bd w1 = (inr tt, w2) ->
  tx_inputs (committed w2) =
    tx_inputs (working w) ++ payload_input_rows bd ++ payload_input_rows bd /\
  tx_outputs (committed w2) =
    tx_outputs (working w) ++ payload_output_rows bd ++ payload_output_rows bd.
Proof.
  intros H1 H2.
  apply insert_block_outcome in H1 as [Hw1 H1], H2 as [_ H2].
  apply block_written_tables in H1 as (? & ? & _ & _ & _ & E1 & E1' & _).
  apply block_written_tables in H2 as (? & ? & _ & _ & _ & E2 & E2' & _).
  by rewrite E2, E2', Hw1, E1, E1', <- !app_assoc.
Qed.

(** X6.  After a block has been written, the store answers the two queries
    of [handle_reorg] with it: its height is found under its hash and its
    hash under its height, and every txid of the payload has a transaction
    row. *)
Theorem insert_block_then_lookup bd w w' :
  insert_block clock db_fault bd w = (inr tt, w') ->
  exists hash height,
    bd_hash bd = Some hash /\ bd_height bd = Some height /\
    select_hash_by_height height (committed w') = Some hash /\
    select_height_by_hash hash (committed w') = Some height /\
    Forall (fun tx => exists txid,
              tx_txid tx = Some txid /\ txid ∈ t_txid <$> transactions (committed w'))
      (get (bd_tx bd) []).
Proof.
  intros H. apply insert_block_outcome in H as [_ H].
  apply block_written_tables in H as (hash & height & Eh & Ek & Eb & _ & _ & _ & Hin).
  exists hash, height. split_and!; [done|done|..].
  - unfold select_hash_by_height. rewrite Eb, filter_app.
    rewrite filter_none; [by rewrite filter_cons, decide_True|].
    apply Forall_forall. intros b [Hb _]%list_elem_of_filter E.
    apply Hb. by right.
  - unfold select_height_by_hash. rewrite Eb, filter_app.
    rewrite filter_none; [by rewrite filter_cons, decide_True|].
    apply Forall_forall. intros b [Hb _]%list_elem_of_filter E.
    apply Hb. by left.
  - by apply Forall_forall.
Qed.

Lemma replace_block_NoDup {A} (key : BlockRow -> A) (l : list BlockRow) (r : BlockRow) :
  (forall b, ~ block_conflicts r b -> key b <> key r) ->
  NoDup (key <$> l) ->
  NoDup (key <$> (filter (fun b => ~ block_conflicts r b) l ++ [r])).
Proof.
  intros Hkey Hnd. rewrite fmap_app. apply NoDup_app. split_and!.
  - eapply sublist_NoDup; [exact Hnd|apply fmap_sublist, sublist_filter].
  - intros x (b & -> & [Hb _]%list_elem_of_filter)%list_elem_of_fmap.
    simpl. intros ?%list_elem_of_singleton. by apply (Hkey b).
  - simpl. apply NoDup_singleton.
Qed.

(** X7.  [insert_block] keeps the store free of duplicates: if no two block
    rows share a height or a hash and no two transaction rows share a txid,
    in the committed data and in the view of the connection, the same holds
    of the committed data when [insert_block] has returned or raised. *)
Theorem insert_block_keeps_unique bd w :
  store_unique (committed w) -> store_unique (working w) ->
  store_unique (committed (insert_block clock db_fault bd w).2).
Proof.
  intros Hc (Hh & Hx & Ht).
  destruct (insert_block clock db_fault bd w) as [r w'] eqn:H.
  apply insert_block_outcome in H as [_ H]. simpl. destruct r as [e|[]].
  - by rewrite H.
  - apply block_written_tables in H as (hash & height & _ & _ & Eb & _ & _ & Hnd & _).
    unfold store_unique. rewrite Eb. split_and!.
    + apply replace_block_NoDup; [|done]. intros b Hb E. apply Hb. by right.
    + apply replace_block_NoDup; [|done]. intros b Hb E. apply Hb. by left.
    + by apply Hnd.
Qed.

(** X8.  The checkpoint follows the insertion: when a block of a height
    other than 0 has been written to a store that held no greater height,
    [get_db_latest_height] answers that height, provided its query does not
    fail. *)
Theorem insert_block_advances_latest_height bd height w w' :
  insert_block clock db_fault bd w = (inr tt, w') ->
  bd_height bd = Some height ->
  height <> 0 ->
  Forall (fun k => k <= height) (b_height <$> blocks (working w)) ->
  db_fault (stmts w') = false ->
  get_db_latest_height db_fault w' = (inr height, set_stmts (S (stmts w')) w').
Proof.
  intros H Hh Hne Hall Hnf. apply insert_block_outcome in H as [_ H].
  apply block_written_tables in H as (hash & height' & _ & Ek & Eb & _).
  rewrite Hh in Ek. injection Ek as <-.
  assert (select_max_height (committed w') = Some height) as Hmax.
  { apply select_max_height_Some; rewrite Eb, fmap_app.
    - apply elem_of_app. right. by left.
    - apply Forall_app. split; [|by repeat constructor].
      rewrite Forall_forall in Hall |- *.
      intros k (b & -> & [_ Hb]%list_elem_of_filter)%list_elem_of_fmap.
      apply Hall, list_elem_of_fmap. eauto. }
  rewrite get_db_latest_height_run. unfold latest_height_answer.
  rewrite Hnf, Hmax. simpl. by destruct (Z.eqb_spec height 0).
Qed.

End Inserted.

Section Keys.
Variable clock : nat -> string.
Variable db_fault : nat -> bool.

(** X9.  A payload without ['hash'] or without ['height'] is refused before
    anything is sent to SQLite: [insert_block] raises [KeyError], the clock
    is not read and the connection is rolled back.  The key named is
    ['height'] whenever the height is missing, also when the hash is missing
    too, since the handler formats the height into its log line. *)
Theorem insert_block_without_hash_or_height bd w :
  bd_hash bd = None \/ bd_height bd = None ->
  insert_block clock db_fault bd w =
  (inl (KeyError (match bd_height bd with Some _ => "hash" | None => "height" end)),
   set_working (committed w) w).
Proof.
  intros Hmiss. unfold insert_block, try_except, mbind, M_bind.
  destruct (bd_hash bd) as [hash|], (bd_height bd) as [height|]; simpl; try done.
  by destruct Hmiss.
Qed.

(** X10.  The key ['time'] is needed only for the transactions: a payload
    without it and without transactions is written, its row holding time 0;
    a payload without it that has a transaction raises [KeyError] for
    ['time'] after the block row has been sent, and nothing of it is
    committed or left pending. *)
Theorem insert_block_without_time bd hash height w :
  (forall n, db_fault n = false) ->
  bd_hash bd = Some hash ->
  bd_height bd = Some height ->
  bd_time bd = None ->
  let out := insert_block clock db_fault bd w in
  match get (bd_tx bd) [] with
  | [] =>
      out.1 = inr tt /\
      select_hash_by_height height (committed out.2) = Some hash /\
      Forall (fun b => b_height b = height -> b_time b = 0) (blocks (committed out.2))
  | _ :: _ =>
      out.1 = inl (KeyError "time") /\
      committed out.2 = committed w /\ working out.2 = committed w /\
      stmts out.2 = S (stmts w)
  end.
Proof.
  intros Hnf Hhash Hheight Htime out.
  destruct (get (bd_tx bd) []) as [|tx txs] eqn:Etx.
  - destruct (insert_block_ok clock db_fault Hnf bd w) as [w' H].
    { unfold block_written. rewrite Hhash, Hheight, Etx. simpl. by eexists. }
    subst out. rewrite H. simpl.
    apply insert_block_outcome in H as [_ H].
    apply block_written_tables in H as (hash' & height' & Eh & Ek & Eb & _).
    rewrite Hhash in Eh. rewrite Hheight in Ek. injection Eh as <-. injection Ek as <-.
    split_and!; [done|..].
    + unfold select_hash_by_height. rewrite Eb, filter_app.
      rewrite filter_none; [by rewrite filter_cons, decide_True|].
      apply Forall_forall. intros b [Hb _]%list_elem_of_filter E. apply Hb. by right.
    + rewrite Eb. apply Forall_app. split.
      * apply Forall_forall. intros b [Hb _]%list_elem_of_filter E.
        destruct Hb. by right.
      * repeat constructor. intros _. simpl. by rewrite Htime.
  - subst out. unfold insert_block, try_except.
    destruct (bd_tx bd) as [txs0|] eqn:Etx0; simpl in Etx; [subst txs0|done].
    rewrite Hhash, Hheight, Htime. unfold mbind, M_bind, getitem, now. simpl.
    rewrite (execute_ok db_fault Hnf). simpl. done.
Qed.

End Keys.

(** ** The loop and the truncation *)

Section Sync.
Variable rpc : Rpc.
Variable clock : nat -> string.
Variable db_fault : nat -> bool.


(** X12.  The loop of [sync_blocks] leaves no transaction open between two
    heights: started on a connection without pending statements, it ends
    without any, whatever the node answers and whichever statements fail. *)
Theorem sync_loop_no_open_transaction heights w r w' :
  working w = committed w ->
  for_each heights (sync_height rpc clock db_fault) w = (r, w') ->
  working w' = committed w'.
Proof.
  revert w. induction heights as [|h heights IH]; intros w Hclean H; simpl in H.
  - by injection H as _ <-.
  - apply bind_inv in H as [(e & H & _)|([] & w1 & H1 & H)].
    + by eapply sync_height_no_open_transaction.
    + eapply IH; [|done]. by eapply sync_height_no_open_transaction.
Qed.

(** X13.  [sync_blocks] raises exactly when the tip cannot be fetched or a
    connection cannot be opened: the one [get_db_latest_height] opens when
    no start height is given, or its own.  It has then asked for no height
    and written nothing.  Once the tip is known and the connections are open
    it returns normally, whatever happens at the single heights. *)
Theorem sync_blocks_raises_only_without_tip start_height max_blocks w :
  let out := Connections.sync_blocks rpc clock db_fault start_height max_blocks w in
  match getblockchaininfo rpc with
  | None =>
      out = (inl (RpcFailure "getblockchaininfo"),
             set_requests (requests w ++ [GetBlockchainInfo]) w)
  | Some _ =>
      let opened :=
        if truthy_int start_height
        then negb (db_fault (stmts w))
        else negb (db_fault (stmts w)) && negb (db_fault (S (S (stmts w)))) in
      if opened then out.1 = inr tt
      else out.1 = inl DatabaseError /\
           requested_heights (requests out.2) = requested_heights (requests w) /\
           committed out.2 = committed w
  end.
Proof.
  intros out.
  destruct (Connections.sync_blocks rpc clock db_fault start_height max_blocks w)
    as [r w'] eqn:H.
  subst out. simpl. revert H.
  unfold Connections.sync_blocks, get_latest_block_height.
  unfold mbind at 1, M_bind at 1, rpc_call.
  destruct (getblockchaininfo rpc) as [tip|]; [|intros Hx; simplify_eq; done].
  set (w0 := set_requests (requests w ++ [GetBlockchainInfo]) w).
  assert (requested_heights (requests w0) = requested_heights (requests w)) as Hreq.
  { subst w0. simpl. rewrite requested_heights_app. simpl. by rewrite app_nil_r. }
  assert (committed w0 = committed w /\ stmts w0 = stmts w) as [Hc0 Hs0] by done.
  clearbody w0.
  assert (forall current_height end_height w1,
    requests w1 = requests w0 -> committed w1 = committed w ->
    (Connections.get_db_connection db_fault ;;
     try_finally
       (for_each (seqZ current_height (end_height + 1 - current_height))
          (sync_height rpc clock db_fault))
       conn_close) w1 = (r, w') ->
    if negb (db_fault (stmts w1))
    then r = inr tt
    else r = inl DatabaseError /\
         requested_heights (requests w') = requested_heights (requests w) /\
         committed w' = committed w) as Hloop.
  { intros current_height end_height w1 Hr1 Hc1.
    unfold Connections.get_db_connection, Connections.connect.
    unfold mbind, M_bind, db_step.
    destruct (db_fault (stmts w1)); simpl.
    { intros Hx. simplify_eq. simpl. by rewrite Hr1. }
    unfold try_finally, conn_close, ETL.get_db_connection, rollback.
    match goal with |- context [for_each ?l ?f ?w2] =>
      destruct (for_each_sync_height_run rpc clock db_fault l w2) as (w3 & -> & _)
    end. intros Hx. simplify_eq. simpl. done. }
  intros H. apply bind_inv in H as [(e & H1 & ->)|(current_height & w1 & H1 & H2)].
  - (* no start height, and the connection of [get_db_latest_height] fails *)
    destruct (truthy_int start_height); [done|].
    apply bind_inv in H1 as [(e' & H1 & [= ->])|(h & w2 & _ & [=])].
    revert H1. unfold Connections.get_db_latest_height, Connections.connect.
    unfold mbind, M_bind, db_step. rewrite Hs0.
    destruct (db_fault (stmts w)); simpl.
    + intros Hx. simplify_eq. simpl. by rewrite Hreq, Hc0.
    + by rewrite get_db_latest_height_run.
  - destruct (truthy_int start_height).
    + injection H1 as <- <-. apply Hloop in H2; [|done|done]. by rewrite Hs0 in H2.
    + apply bind_inv in H1 as [(e' & _ & [=])|(h & w2 & H1 & [= <- <-])].
      revert H1. unfold Connections.get_db_latest_height, Connections.connect.
      unfold mbind, M_bind, db_step. rewrite Hs0.
      destruct (db_fault (stmts w)); simpl; [done|].
      rewrite get_db_latest_height_run. intros Hx. simplify_eq.
      apply Hloop in H2; [|done|done]. simpl in H2. done.
Qed.


(** X15.  [max_blocks] bounds a run: with a positive [max_blocks] the run
    asks for at most that many heights, and none above the tip. *)
Theorem sync_blocks_respects_max_blocks start_height n w tip :
  getblockchaininfo rpc = Some tip ->
  0 < n ->
  let asked :=
    drop (length (requested_heights (requests w)))
      (requested_heights
         (requests (sync_blocks rpc clock db_fault start_height (Some n) w).2)) in
  (Z.of_nat (length asked) <= n) /\ Forall (fun h => h <= tip) asked.
Proof.
  intros Htip Hn asked.
  destruct (sync_blocks_run rpc clock db_fault start_height (Some n) w tip Htip)
    as (w' & H & E).
  subst asked. rewrite H. simpl. rewrite E, drop_app_length.
  assert (truthy_int (Some n) = true) as ->.
  { simpl. destruct (Z.eqb_spec n 0); [lia|done]. }
  simpl. split.
  - rewrite length_seqZ. lia.
  - apply Forall_forall. intros h Hh%elem_of_seqZ. lia.
Qed.

(** X16.  Without a start height a run never goes back: every height it asks
    for is above the answer of [get_db_latest_height], so that a height
    skipped below it is not fetched again. *)
Theorem sync_blocks_never_refetches max_blocks w tip :
  getblockchaininfo rpc = Some tip ->
  let asked :=
    drop (length (requested_heights (requests w)))
      (requested_heights
         (requests (sync_blocks rpc clock db_fault None max_blocks w).2)) in
  Forall (fun h => latest_height_answer db_fault w < h <= tip) asked.
Proof.
  intros Htip asked.
  destruct (sync_blocks_run rpc clock db_fault None max_blocks w tip Htip)
    as (w' & H & E).
  subst asked. rewrite H. simpl. rewrite E, drop_app_length. simpl.
  apply Forall_forall. intros h Hh%elem_of_seqZ.
  destruct (truthy_int max_blocks); lia.
Qed.

(** X23.  A height the node cannot resolve, or whose block it cannot
    deliver, is passed over in silence: the round returns normally, sends no
    statement to SQLite, reads no clock and leaves both views of the data as
    they are. *)
Theorem sync_height_skips_unreachable_height height w :
  getblockhash rpc height = None \/
  (exists hash, getblockhash rpc height = Some hash /\ getblock rpc hash 2 = None) ->
  exists w', sync_height rpc clock db_fault height w = (inr tt, w') /\
    working w' = working w /\ committed w' = committed w /\
    stmts w' = stmts w /\ ticks w' = ticks w.
Proof.
  intros [E|(hash & E & E')];
    unfold sync_height, try_except, fetch_block, mbind, M_bind, rpc_call;
    rewrite E; [|rewrite E']; by eexists.
Qed.

End Sync.

Section Truncation.
Variable db_fault : nat -> bool.

(** X17.  When the statements of the truncation after height [f] have run
    and the commit has succeeded, the committed store holds exactly the block
    rows of height at most [f] and the transaction rows of block height at
    most [f]; the tables of inputs and of outputs are as they were, rows of
    deleted transactions included. *)
Theorem remove_blocks_after_keeps_inputs_and_outputs f w w' :
  remove_blocks_after db_fault f w = (inr tt, w') ->
  working w' = committed w' /\
  blocks (committed w') = filter (fun b => b_height b <= f) (blocks (working w)) /\
  transactions (committed w') =
    filter (fun t => t_block_height t <= f) (transactions (working w)) /\
  tx_inputs (committed w') = tx_inputs (working w) /\
  tx_outputs (committed w') = tx_outputs (working w).
Proof.
  intros [Hc Hw]%remove_blocks_after_inv.
  destruct (truncated_tables f (working w)) as (Eb & Et & Ei & Eo).
  rewrite Hw, Hc, Eb, Et, Ei, Eo.
  split_and!; try done; apply list_filter_iff; intros x; lia.
Qed.

End Truncation.

(** ** The reports of the auditor *)

(** *** Entries of the dictionaries of the auditor *)

Lemma dict_of_lookup_Some {A V} (key : A -> Z) (val : A -> V) (l : list A) k v :
  dict_of key val l !! k = Some v -> exists x, x ∈ l /\ key x = k /\ val x = v.
Proof.
  rewrite dict_of_lookup.
  destruct (last (filter (fun x => key x = k) l)) as [x|] eqn:E; [|done].
  intros [= <-]. exists x.
  assert (x ∈ filter (fun x => key x = k) l) as [Hk Hin]%list_elem_of_filter.
  { apply last_Some in E as [l' ->]. apply elem_of_app. right. by left. }
  done.
Qed.

Lemma db_blocks_lookup_Some start d k dbk :
  dict_of db_height id (select_blocks_from start d) !! k = Some dbk ->
  exists r, r ∈ blocks d /\ b_height r = k /\ k >= start /\ dbk = db_block_of_row r.
Proof.
  intros (x & Hx & Hk & Hv)%dict_of_lookup_Some. simpl in Hv. subst x.
  unfold select_blocks_from in Hx.
  apply list_elem_of_fmap in Hx as (r & -> & Hr).
  rewrite merge_sort_Permutation in Hr.
  apply list_elem_of_filter in Hr as [Hs Hr].
  exists r. simpl in Hk. subst k. done.
Qed.

Section Report.
Variable rpc : Rpc.

Lemma bitcoind_blocks_lookup_Some heights k btk :
  fetch_bitcoind_blocks rpc heights !! k = Some btk ->
  k ∈ heights /\ fetch_bitcoind_block rpc k = Some btk /\
  getblockhash rpc k = Some (btc_hash btk).
Proof.
  rewrite fetch_bitcoind_blocks_lookup. case_decide as Hin; [|done]. intros H.
  split_and!; [done|done|].
  unfold fetch_bitcoind_block in H.
  destruct (getblockhash rpc k) as [hash|]; [|done]. simpl in H.
  destruct (getblock rpc hash 1); [|done]. by injection H as <-.
Qed.

Lemma compare_height_sound start d heights height i :
  i ∈ (compare_height start (dict_of db_height id (select_blocks_from start d))
         (fetch_bitcoind_blocks rpc heights) height).1 ->
  record_holds rpc d i /\ inc_height i = height /\
  match i with prev_hash_mismatch h _ _ => start < h | _ => True end.
Proof.
  unfold compare_height.
  destruct (dict_of _ _ _ !! height) as [dbk|] eqn:Edb; [|by intros []%elem_of_nil].
  destruct (fetch_bitcoind_blocks rpc heights !! height) as [btk|] eqn:Ebt;
    [|by intros []%elem_of_nil].
  apply db_blocks_lookup_Some in Edb as (r & Hr & Hrk & _ & ->).
  apply bitcoind_blocks_lookup_Some in Ebt as (_ & Hfetch & Hhash).
  simpl. rewrite elem_of_app. intros [Hi|Hi].
  - case_bool_decide as Hne; [|by apply elem_of_nil in Hi].
    apply list_elem_of_singleton in Hi as ->. simpl.
    split_and!; [done|done|by eauto|done|done].
  - case_bool_decide as Hgt; [|by apply elem_of_nil in Hi].
    destruct (dict_of _ _ _ !! (height - 1)) as [dbp|] eqn:Edb';
      [|by apply elem_of_nil in Hi].
    destruct (fetch_bitcoind_blocks rpc heights !! (height - 1)) as [btp|] eqn:Ebt';
      [|by apply elem_of_nil in Hi].
    case_bool_decide as Hne; [|by apply elem_of_nil in Hi].
    apply list_elem_of_singleton in Hi as ->.
    apply db_blocks_lookup_Some in Edb' as (r' & Hr' & Hrk' & _ & ->).
    apply bitcoind_blocks_lookup_Some in Ebt' as (_ & Hfetch' & _).
    simpl. rewrite Hfetch. split_and!; [done|done|by eexists|by eauto|done|lia].
Qed.

Lemma inconsistencies_sound d now num_blocks rep :
  check_block_consistency rpc d now num_blocks = inr rep ->
  Forall (fun i => record_holds rpc d i /\ record_in_window rep i) (inconsistencies rep).
Proof.
  unfold check_block_consistency.
  destruct (select_max_height d) as [latest|]; [|done]. intros [= <-]. simpl.
  rewrite compare_blocks_concat. simpl. apply Forall_forall.
  intros i (l & Hi & (height & -> & Hh)%list_elem_of_fmap)%list_elem_of_join.
  apply elem_of_seqZ in Hh.
  apply compare_height_sound in Hi as (Hrec & Hheight & Hprev). split; [done|].
  destruct i; simpl in *; lia.
Qed.

(** X18.  Every discrepancy the audit reports is real and lies in the
    window.  For a [hash_mismatch] at height [h], the first hash is that of a
    stored block of height [h], the second the hash the node gives for [h],
    and the two differ.  For a [prev_hash_mismatch] at [h], which is never
    the first height of the window, the first hash is that of a stored block
    of height [h - 1], the second the predecessor the node names for [h],
    the two differ, and the node could be asked about [h - 1]. *)
Theorem audit_discrepancies_are_real d now num_blocks rep :
  check_block_consistency rpc d now num_blocks = inr rep ->
  Forall (fun i => record_holds rpc d i /\ record_in_window rep i) (inconsistencies rep).
Proof. apply inconsistencies_sound. Qed.

(** X19.  With one block row per height, the audit misses no differing hash:
    a stored block of the window whose hash differs from the hash the node
    gives for its height is reported as a [hash_mismatch]. *)
Theorem audit_reports_every_differing_hash d now num_blocks rep r btk :
  check_block_consistency rpc d now num_blocks = inr rep ->
  NoDup (b_height <$> blocks d) ->
  r ∈ blocks d ->
  start_height (blocks_checked rep) <= b_height r ->
  fetch_bitcoind_block rpc (b_height r) = Some btk ->
  b_hash r <> btc_hash btk ->
  hash_mismatch (b_height r) (b_hash r) (btc_hash btk) ∈ inconsistencies rep.
Proof.
  unfold check_block_consistency.
  destruct (select_max_height d) as [latest|] eqn:Emax; [|done]. intros [= <-]. simpl.
  intros Hnd Hr Hstart Hfetch Hne. set (start := 0 `max` (latest - num_blocks + 1)) in *.
  apply select_max_height_inv in Emax as [_ Hall].
  assert (b_height r <= latest) as Hle.
  { rewrite Forall_forall in Hall. apply Hall, list_elem_of_fmap. eauto. }
  assert (b_height r ∈ seqZ start (latest + 1 - start)) as Hin
    by (apply elem_of_seqZ; lia).
  rewrite compare_blocks_concat. simpl. apply list_elem_of_join.
  eexists. split; [|apply list_elem_of_fmap; by exists (b_height r)].
  simpl. unfold compare_height.
  rewrite db_blocks_lookup by (done || lia).
  assert (filter (fun b => b_height b = b_height r) (blocks d) = [r]) as ->.
  { assert (r ∈ filter (fun b => b_height b = b_height r) (blocks d)) as Hf
      by by apply list_elem_of_filter.
    destruct (filter_key_NoDup b_height (blocks d) (b_height r) Hnd) as [E|[x E]];
      rewrite E in Hf |- *; [by apply elem_of_nil in Hf|].
    by apply list_elem_of_singleton in Hf as ->. }
  simpl. rewrite fetch_bitcoind_blocks_lookup, decide_True, Hfetch by done.
  simpl. rewrite bool_decide_true by done. apply elem_of_app. left. by left.
Qed.

(** X20.  The audit of a faithful mirror is clean: if every stored block has
    the hash the node gives for its height, whenever the node gives one, and
    within the window the predecessor the node names for a height is the
    hash it gives for the height below, the report lists no discrepancy and
    its status is [healthy]. *)
Theorem audit_of_mirror_is_healthy d now num_blocks rep :
  check_block_consistency rpc d now num_blocks = inr rep ->
  Forall (fun r => getblockhash rpc (b_height r) = None \/
                   getblockhash rpc (b_height r) = Some (b_hash r)) (blocks d) ->
  (forall k btk btp,
     start_height (blocks_checked rep) < k <= end_height (blocks_checked rep) ->
     fetch_bitcoind_block rpc k = Some btk ->
     fetch_bitcoind_block rpc (k - 1) = Some btp ->
     btc_previousblockhash btk = btc_hash btp) ->
  inconsistencies rep = [] /\
  total_inconsistencies (consistency rep) = 0%nat /\
  status rep = healthy.
Proof.
  intros Hrep Hsame Hlink.
  pose proof (inconsistencies_sound d now num_blocks rep Hrep) as Hsound.
  assert (forall r b, r ∈ blocks d -> getblockhash rpc (b_height r) = Some b ->
                      b_hash r = b) as Hsame'.
  { intros r b Hr Hb. rewrite Forall_forall in Hsame.
    destruct (Hsame r Hr) as [E|E]; congruence. }
  assert (inconsistencies rep = []) as Hnil.
  { destruct (inconsistencies rep) as [|i l]; [done|]. exfalso.
    apply Forall_cons in Hsound as [[Hi Hwin] _].
    destruct i as [h a b|h a b]; simpl in Hi, Hwin.
    - destruct Hi as (Hne & Hb & r & Hr & <- & <-). apply Hne. by apply Hsame'.
    - destruct Hi as (Hne & Hprev & [btp Hp] & r & Hr & Hrk & <-).
      destruct (fetch_bitcoind_block rpc h) as [btk|] eqn:Hk; [|done].
      injection Hprev as <-. apply Hne. rewrite (Hlink h btk btp Hwin Hk Hp).
      apply Hsame'; [done|]. rewrite Hrk.
      unfold fetch_bitcoind_block in Hp.
      destruct (getblockhash rpc (h - 1)) as [hash|]; [|done]. simpl in Hp.
      destruct (getblock rpc hash 1); [|done]. by injection Hp as <-. }
  revert Hrep Hnil. unfold check_block_consistency.
  destruct (select_max_height d); [|done]. intros [= <-]. simpl. intros ->. done.
Qed.

End Report.

(** *** Dictionaries filled height by height *)

Section Fill.
Context {V : Type} (f : Z -> option V).

Lemma fill_lookup heights m k :
  fill f m heights !! k =
  match (if decide (k ∈ heights) then f k else None) with
  | Some b => Some b
  | None => m !! k
  end.
Proof.
  unfold fill. revert m. induction heights as [|h heights IH]; intros m; cbn [foldl].
  - by rewrite decide_False by apply not_elem_of_nil.
  - rewrite IH.
    assert (match f h with
            | Some b => <[h := b]> m
            | None => m
            end !! k =
            if decide (k = h)
            then match f k with
                 | Some b => Some b
                 | None => m !! k
                 end
            else m !! k) as ->.
    { destruct (decide (k = h)) as [->|Hk];
        destruct (f h); by rewrite ?lookup_insert_eq, ?lookup_insert_ne. }
    destruct (decide (k = h)) as [->|Hne].
    + rewrite (decide_True (P := h ∈ h :: heights)) by by left.
      by destruct (decide (h ∈ heights)), (f h).
    + destruct (decide (k ∈ heights)) as [Hin|Hin].
      * by rewrite (decide_True (P := k ∈ h :: heights)) by by right.
      * by rewrite (decide_False (P := k ∈ h :: heights)) by (rewrite elem_of_cons; tauto).
Qed.

End Fill.

Section Work.
Variable rpc : Rpc.

(** A number is never reported against itself: the difference of a number
    with itself is a zero, or not a number when it is infinite. *)
Lemma difficulty_differs_diag a : difficulty_differs a a = false.
Proof.
  unfold difficulty_differs. rewrite ltb_spec, abs_spec, sub_spec.
  destruct (Prim2SF a) as [s|s| |s m e]; simpl.
  - by destruct s.
  - by destruct s.
  - done.
  - unfold SFsub. by rewrite Z.min_id, Z.sub_diag.
Qed.

Lemma difficulty_differs_neq a b : difficulty_differs a b = true -> a <> b.
Proof. intros H ->. by rewrite difficulty_differs_diag in H. Qed.

(** The decimal numbers 0.3 and 0.301 as Python reads them.  Their
    difference as binary64 numbers exceeds the tolerance, which their
    difference as decimal numbers, one thousandth, would not; a stored 1 is
    within the tolerance of 1.0009765625 and beyond it of 1.5. *)
Example difficulty_tolerance_is_binary :
  difficulty_differs 0x1.3333333333333p-2%float 0x1.34395810624ddp-2%float = true /\
  difficulty_differs 1%float 0x1.004p+0%float = false /\
  difficulty_differs 1%float 0x1.8p+0%float = true.
Proof. by vm_compute. Qed.

Lemma work_inconsistencies_concat db bt heights acc :
  foldl (fun acc height => acc ++ compare_work db bt height) acc heights =
  acc ++ mjoin (compare_work db bt <$> heights).
Proof.
  revert acc. induction heights as [|h heights IH]; intros acc; simpl.
  - by rewrite app_nil_r.
  - by rewrite IH, app_assoc.
Qed.

Lemma work_lookup_Some start d k dbk :
  dict_of dw_height id (select_work_from start d) !! k = Some dbk ->
  exists r, r ∈ blocks d /\ b_height r = k /\ dbk = db_work_of_row r.
Proof.
  intros (x & Hx & Hk & Hv)%dict_of_lookup_Some. simpl in Hv. subst x.
  unfold select_work_from in Hx.
  apply list_elem_of_fmap in Hx as (r & -> & Hr).
  rewrite merge_sort_Permutation in Hr.
  apply list_elem_of_filter in Hr as [Hs Hr].
  exists r. simpl in Hk. subst k. done.
Qed.

Lemma work_inconsistencies_sound d now num_blocks rep :
  check_chain_work rpc d now num_blocks = inr rep ->
  Forall (work_record_holds rpc d) (work_inconsistencies rep).
Proof.
  unfold check_chain_work.
  destruct (select_max_height d) as [latest|]; [|done]. intros [= <-]. simpl.
  rewrite work_inconsistencies_concat. simpl. apply Forall_forall.
  intros i (l & Hi & (height & -> & Hh)%list_elem_of_fmap)%list_elem_of_join.
  unfold compare_work in Hi.
  destruct (dict_of _ _ _ !! height) as [dbk|] eqn:Edb; [|by apply elem_of_nil in Hi].
  destruct (fetch_bitcoind_chainwork rpc _ !! height) as [btk|] eqn:Ebt;
    [|by apply elem_of_nil in Hi].
  apply work_lookup_Some in Edb as (r & Hr & Hrk & ->).
  change (fetch_bitcoind_chainwork rpc ?l) with (fill (fetch_bitcoind_work rpc) ∅ l) in Ebt.
  rewrite fill_lookup, lookup_empty in Ebt.
  assert (fetch_bitcoind_work rpc height = Some btk) as Hfetch.
  { destruct (decide _); [|done]. by destruct (fetch_bitcoind_work rpc height). }
  apply elem_of_app in Hi as [Hi|Hi].
  - case_bool_decide; [|by apply elem_of_nil in Hi].
    apply list_elem_of_singleton in Hi as ->. simpl. rewrite Hfetch.
    split_and!; [done|done|by eauto].
  - destruct (difficulty_differs _ _) eqn:Ed; [|by apply elem_of_nil in Hi].
    apply list_elem_of_singleton in Hi as ->. simpl. rewrite Hfetch.
    split_and!; [by apply difficulty_differs_neq|done|by eauto].
Qed.

(** X21.  Every discrepancy [check_chain_work] reports is real: the first
    value of a record is the chainwork, or the difficulty, of a stored block
    of that height, the second the one the node gives for the height, and the
    two differ, as strings for the chainwork and as binary64 numbers for the
    difficulty.  Equal values are never reported. *)
Theorem chain_work_discrepancies_are_real d now num_blocks rep :
  check_chain_work rpc d now num_blocks = inr rep ->
  Forall (work_record_holds rpc d) (work_inconsistencies rep).
Proof. apply work_inconsistencies_sound. Qed.

End Work.

(** ** The theorems above at concrete payloads, nodes and stores *)

Lemma handle_reorg_all_or_nothing_witness :
  exists height k,
    bd_height c3 = Some height /\ 0 <= k < height /\
    select_hash_by_height k (working world_a) = bd_previousblockhash c3 /\
    committed (handle_reorg no_fault c3 world_a).2 = truncated k (working world_a) /\
    working (handle_reorg no_fault c3 world_a).2 =
      committed (handle_reorg no_fault c3 world_a).2.
Proof.
  apply (handle_reorg_all_or_nothing no_fault c3 world_a true
           (handle_reorg no_fault c3 world_a).2).
  by vm_compute.
Defined.

Lemma handle_reorg_accepts_linked_block_witness :
  exists w', handle_reorg no_fault a3 world_a = (inr false, w') /\
    working w' = working world_a /\ committed w' = committed world_a /\
    requests w' = requests world_a /\ (stmts w' <= S (stmts world_a))%nat.
Proof.
  apply (handle_reorg_accepts_linked_block no_fault a3 world_a).
  right. exists 3. split_and!; by vm_compute.
Defined.

Lemma insert_block_appends_inputs_and_outputs_witness :
  tx_inputs (committed (insert_block clock0 no_fault a3 world_a).2) =
    tx_inputs (working world_a) ++ payload_input_rows a3 /\
  tx_outputs (committed (insert_block clock0 no_fault a3 world_a).2) =
    tx_outputs (working world_a) ++ payload_output_rows a3.
Proof.
  apply (insert_block_appends_inputs_and_outputs clock0 no_fault a3 world_a).
  by vm_compute.
Defined.

Lemma insert_block_twice_appends_twice_witness :
  let w1 := (insert_block clock0 no_fault a3 world_a).2 in
  let w2 := (insert_block clock0 no_fault a3 w1).2 in
  tx_inputs (committed w2) =
    tx_inputs (working world_a) ++ payload_input_rows a3 ++ payload_input_rows a3 /\
  tx_outputs (committed w2) =
    tx_outputs (working world_a) ++ payload_output_rows a3 ++ payload_output_rows a3.
Proof.
  intros w1 w2.
  apply (insert_block_twice_appends_twice clock0 no_fault a3 world_a w1 w2);
    by vm_compute.
Defined.

Lemma insert_block_then_lookup_witness :
  let w' := (insert_block clock0 no_fault a3 world_a).2 in
  exists hash height,
    bd_hash a3 = Some hash /\ bd_height a3 = Some height /\
    select_hash_by_height height (committed w') = Some hash /\
    select_height_by_hash hash (committed w') = Some height /\
    Forall (fun tx => exists txid,
              tx_txid tx = Some txid /\ txid ∈ t_txid <$> transactions (committed w'))
      (get (bd_tx a3) []).
Proof.
  intros w'. apply (insert_block_then_lookup clock0 no_fault a3 world_a w').
  by vm_compute.
Defined.

Lemma insert_block_keeps_unique_witness :
  store_unique (committed (insert_block clock0 no_fault a3 world_a).2).
Proof.
  apply (insert_block_keeps_unique clock0 no_fault a3 world_a);
    unfold store_unique; split_and!; compute_done.
Defined.

Lemma insert_block_advances_latest_height_witness :
  let w' := (insert_block clock0 no_fault a3 world_a).2 in
  get_db_latest_height no_fault w' = (inr 3, set_stmts (S (stmts w')) w').
Proof.
  intros w'.
  apply (insert_block_advances_latest_height clock0 no_fault a3 3 world_a w').
  - by vm_compute.
  - reflexivity.
  - lia.
  - compute_done.
  - reflexivity.
Defined.

Lemma insert_block_without_hash_or_height_witness :
  insert_block clock0 no_fault (without_hash a3) world_a =
  (inl (KeyError (match bd_height (without_hash a3) with
                  | Some _ => "hash"
                  | None => "height"
                  end)),
   set_working (committed world_a) world_a).
Proof.
  apply (insert_block_without_hash_or_height clock0 no_fault (without_hash a3) world_a).
  left. reflexivity.
Defined.

Lemma insert_block_without_time_witness :
  let out := insert_block clock0 no_fault a3_without_time world_a in
  match get (bd_tx a3_without_time) [] with
  | [] =>
      out.1 = inr tt /\
      select_hash_by_height 3 (committed out.2) = Some "a3" /\
      Forall (fun b => b_height b = 3 -> b_time b = 0) (blocks (committed out.2))
  | _ :: _ =>
      out.1 = inl (KeyError "time") /\
      committed out.2 = committed world_a /\ working out.2 = committed world_a /\
      stmts out.2 = S (stmts world_a)
  end.
Proof.
  apply (insert_block_without_time clock0 no_fault a3_without_time "a3" 3 world_a);
    reflexivity.
Defined.

Lemma sync_loop_no_open_transaction_witness :
  let out := for_each [3; 4] (sync_height (node chain_b) clock0 no_fault) world_a in
  working out.2 = committed out.2.
Proof.
  intros out.
  apply (sync_loop_no_open_transaction (node chain_b) clock0 no_fault [3; 4] world_a
           out.1 out.2).
  - by vm_compute.
  - by vm_compute.
Defined.


Lemma sync_blocks_respects_max_blocks_witness :
  let asked :=
    drop (length (requested_heights (requests world_a)))
      (requested_heights
         (requests (sync_blocks (node chain_b) clock0 no_fault (Some 1) (Some 2)
                      world_a).2)) in
  (Z.of_nat (length asked) <= 2) /\ Forall (fun h => h <= 4) asked.
Proof.
  apply (sync_blocks_respects_max_blocks (node chain_b) clock0 no_fault
           (Some 1) 2 world_a 4).
  - reflexivity.
  - lia.
Defined.

Lemma sync_blocks_never_refetches_witness :
  let asked :=
    drop (length (requested_heights (requests world_a)))
      (requested_heights
         (requests (sync_blocks (node chain_b) clock0 no_fault None None world_a).2)) in
  Forall (fun h => latest_height_answer no_fault world_a < h <= 4) asked.
Proof.
  apply (sync_blocks_never_refetches (node chain_b) clock0 no_fault None world_a 4).
  reflexivity.
Defined.

Lemma sync_height_skips_unreachable_height_witness :
  exists w', sync_height (node [a0; a2]) clock0 no_fault 1 world_a = (inr tt, w') /\
    working w' = working world_a /\ committed w' = committed world_a /\
    stmts w' = stmts world_a /\ ticks w' = ticks world_a.
Proof.
  apply (sync_height_skips_unreachable_height (node [a0; a2]) clock0 no_fault 1 world_a).
  left. reflexivity.
Defined.

Lemma remove_blocks_after_keeps_inputs_and_outputs_witness :
  let w' := (remove_blocks_after no_fault 0 world_a).2 in
  working w' = committed w' /\
  blocks (committed w') = filter (fun b => b_height b <= 0) (blocks (working world_a)) /\
  transactions (committed w') =
    filter (fun t => t_block_height t <= 0) (transactions (working world_a)) /\
  tx_inputs (committed w') = tx_inputs (working world_a) /\
  tx_outputs (committed w') = tx_outputs (working world_a).
Proof.
  intros w'.
  apply (remove_blocks_after_keeps_inputs_and_outputs no_fault 0 world_a w').
  by vm_compute.
Defined.

Lemma audit_discrepancies_are_real_witness :
  exists rep,
    check_block_consistency (node chain_c) (store_c 5) "t" 10 = inr rep /\
    Forall (fun i => record_holds (node chain_c) (store_c 5) i /\ record_in_window rep i)
      (inconsistencies rep).
Proof.
  eexists. split; [by vm_compute|].
  apply (audit_discrepancies_are_real (node chain_c) (store_c 5) "t" 10).
  by vm_compute.
Defined.

Lemma audit_reports_every_differing_hash_witness :
  exists rep,
    check_block_consistency (node chain_c) (store_c 5) "t" 10 = inr rep /\
    hash_mismatch (b_height row_5) (b_hash row_5) (btc_hash node_entry_5)
      ∈ inconsistencies rep.
Proof.
  eexists. split; [by vm_compute|].
  apply (audit_reports_every_differing_hash (node chain_c) (store_c 5) "t" 10).
  - by vm_compute.
  - compute_done.
  - apply (list_elem_of_lookup_2 _ 5%nat). by vm_compute.
  - by vm_compute.
  - by vm_compute.
  - by vm_compute.
Defined.

Lemma audit_of_mirror_is_healthy_witness :
  exists rep,
    check_block_consistency (node chain_a) store_a "t" 10 = inr rep /\
    inconsistencies rep = [] /\
    total_inconsistencies (consistency rep) = 0%nat /\
    status rep = healthy.
Proof.
  eexists. split; [by vm_compute|].
  apply (audit_of_mirror_is_healthy (node chain_a) store_a "t" 10).
  - by vm_compute.
  - compute_done.
  - intros k btk btp Hk. simpl in Hk.
    assert (k = 1 \/ k = 2) as [-> | ->] by lia;
      vm_compute; intros [= <-] [= <-]; reflexivity.
Defined.

Lemma chain_work_discrepancies_are_real_witness :
  exists rep,
    check_chain_work (node chain_a_reworked) store_a "t" 10 = inr rep /\
    work_inconsistencies rep =
      [difficulty_mismatch 1 1%float 0x1.8p+0%float; chainwork_mismatch 2 "" "0f"] /\
    Forall (work_record_holds (node chain_a_reworked) store_a) (work_inconsistencies rep).
Proof.
  eexists. split; [by vm_compute|]. split; [by vm_compute|].
  apply (chain_work_discrepancies_are_real (node chain_a_reworked) store_a "t" 10).
  by vm_compute.
Defined.

End Coverage.
